(** * mirrorlist: mirror selection front end and freshness checker

    A shallow embedding of [lib/structs.go], [lib/functions.go],
    [mirrorlist/main.go] (the request handler of the front end) and
    [mirrorlist_updater.go] (the checker pipeline), with the properties
    the design document states about them.

    Conventions of the embedding:
    - a Go [string] is a byte sequence: Rocq's [string] (a list of 8-bit
      [ascii]); Go [int] and [int64] are [Z] (no arithmetic in this
      code comes near the 64-bit bounds, except [strconv.ParseInt],
      whose range check is written out);
    - the relational store is three lists of rows, in table order; a
      query without ORDER BY returns rows in table order, ORDER BY is a
      sort on the listed keys (rows with equal keys in the order the
      sort leaves them), LIMIT keeps a prefix; text columns are compared
      byte by byte and hold no NULL, except the timestamp and result of
      a status row that was never checked;
    - the network, the clock, the location database and the SQL random
      function are inputs of the functions that use them;
    - log output is not modelled, and the failures of the store that
      the code only logs (a failed Prepare or Exec) do not occur. *)

From stdpp Require Import gmap strings list sorting pretty.
From Stdlib Require Import ZArith Ascii.

Open Scope Z_scope.

(** ** Go strings and the regular expressions of the source *)

Module GoString.

Definition nl : string := String "010"%char "".

Definition is_digit (c : ascii) : bool :=
  Ascii.leb "0" c && Ascii.leb c "9".

(** [\w] of Go's regexp (RE2): ASCII letters, digits and underscore. *)
Definition is_word (c : ascii) : bool :=
  is_digit c
  || (Ascii.leb "A" c && Ascii.leb c "Z")
  || (Ascii.leb "a" c && Ascii.leb c "z")
  || Ascii.eqb c "_".

Definition is_slash (c : ascii) : bool := Ascii.eqb c "/".

(** [strings.HasPrefix]-like stripping, used for literal regexp parts. *)
Fixpoint strip_prefix (p s : string) : option string :=
  match p, s with
  | EmptyString, _ => Some s
  | String a p', String b s' =>
      if Ascii.eqb a b then strip_prefix p' s' else None
  | String _ _, EmptyString => None
  end.

Definition has_prefix (p s : string) : bool :=
  match strip_prefix p s with Some _ => true | None => false end.

(** [regexp.MatchString(lit, s)] for a pattern [lit] without
    metacharacters: [lit] occurs somewhere in [s]. *)
Fixpoint contains (lit s : string) : bool :=
  has_prefix lit s ||
  match s with
  | EmptyString => false
  | String _ s' => contains lit s'
  end.

Fixpoint all_digits (s : string) : bool :=
  match s with
  | EmptyString => true
  | String c s' => is_digit c && all_digits s'
  end.

(** The longest run of digits at the head of [s], and what follows. *)
Fixpoint span_digits (s : string) : string * string :=
  match s with
  | EmptyString => (EmptyString, EmptyString)
  | String c s' =>
      if is_digit c
      then let '(d, r) := span_digits s' in (String c d, r)
      else (EmptyString, s)
  end.

(** [<timestamp>(\d+)<\/timestamp>] anchored at the head of [s]: the
    digits captured.  [\d+] is greedy; a shorter run of digits is
    followed by a digit, never by [<], so the longest run is the only
    candidate. *)
Definition tsregex_at (s : string) : option string :=
  match strip_prefix "<timestamp>" s with
  | None => None
  | Some r =>
      let '(d, r') := span_digits r in
      match d with
      | EmptyString => None
      | String _ _ => if has_prefix "</timestamp>" r' then Some d else None
      end
  end.

(** [tsregex.FindStringSubmatch(s)]: the leftmost match, as the slice
    [whole match; group 1], or the empty slice when nothing matches. *)
Fixpoint tsregex_FindStringSubmatch (s : string) : list string :=
  match tsregex_at s with
  | Some d => ["<timestamp>" +:+ d +:+ "</timestamp>"; d]
  | None =>
      match s with
      | EmptyString => []
      | String _ s' => tsregex_FindStringSubmatch s'
      end
  end.

Fixpoint digits_value (acc : Z) (s : string) : option Z :=
  match s with
  | EmptyString => Some acc
  | String c s' =>
      if is_digit c
      then digits_value (10 * acc + (Z.of_nat (nat_of_ascii c) - 48)) s'
      else None
  end.

(** [strconv.ParseInt(s, 10, 64)]: [None] stands for a non-nil error
    (syntax or range). *)
Definition ParseInt (s : string) : option Z :=
  let '(neg, body) :=
    match s with
    | String "+" r => (false, r)
    | String "-" r => (true, r)
    | _ => (false, s)
    end in
  match body with
  | EmptyString => None
  | String _ _ =>
      match digits_value 0 body with
      | None => None
      | Some v =>
          let v' := if neg then - v else v in
          if (- 2 ^ 63 <=? v') && (v' <=? 2 ^ 63 - 1) then Some v' else None
      end
  end.

(** The scanner of [multislash.ReplaceAllString(result, "$1/")] for
    [(\w)\/+]: a word byte followed by one or more slashes is rewritten
    to that byte and one slash.  The state remembers what precedes the
    current byte. *)
Inductive ms_state :=
| MsOther      (* start of input, or a byte that is not a word byte *)
| MsWord       (* a word byte was just copied *)
| MsRun.       (* inside the slashes of a match, one slash copied *)

Fixpoint multislash_from (st : ms_state) (s : string) : string :=
  match s with
  | EmptyString => EmptyString
  | String c s' =>
      if is_slash c then
        match st with
        | MsOther => String c (multislash_from MsOther s')
        | MsWord => String c (multislash_from MsRun s')
        | MsRun => multislash_from MsRun s'
        end
      else
        String c (multislash_from (if is_word c then MsWord else MsOther) s')
  end.

Definition multislash (s : string) : string := multislash_from MsOther s.

End GoString.

(** ** lib/structs.go and lib/functions.go *)

Module Lib.

(** The structs, with the fields the functions below read.  Left out:
    the coordinates of [Location] and [Mirror] (floating point, never
    compared) and the protocol flags of [Mirror] (never read). *)

Record Location := {
  Known : bool;
  Continent : string;
  Country : string;
  Region : string
}.

Record Repo := {
  repo_id : Z;
  major_release : Z;
  path : string;
  repo_name : string;
  arch : string;
  is_altarch : bool;
  repo_enabled : bool
}.

Record Mirror := {
  mirror_id : Z;
  name : string;
  basedir : string;
  basedir_altarch : string;
  ipv4 : Z;
  ipv6 : Z;
  continent : string;
  country : string;
  region : string;
  enabled : bool
}.

(** A row of the [status] table.  [timestamp] and [result] are NULL
    ([None]) until the first probe is committed: rows are inserted with
    [checked] alone. *)
Record Status := {
  st_mirror_id : Z;
  st_repo_id : Z;
  timestamp : option Z;
  checked : Z;
  result : option Z
}.

Record CheckTask := {
  MirrorID : Z;
  RepoID : Z;
  URL : string;
  Iso : bool;
  AltArch : bool;
  Valid : bool
}.

Record CheckResult := {
  cr_MirrorID : Z;
  cr_RepoID : Z;
  cr_Timestamp : Z;
  cr_Result : Z
}.

Definition Bool_to_int (input : bool) : Z := if input then 1 else 0.

(** The tables of the store, in table order. *)
Record DB := {
  mirrors : list Mirror;
  repos : list Repo;
  status : list Status
}.

(** LIMIT n: a prefix of the rows (a negative limit is no limit in
    SQLite). *)
Definition sql_limit {A} (n : Z) (rows : list A) : list A :=
  if n <? 0 then rows else take (Z.to_nat n) rows.

End Lib.


(** ** mirrorlist_updater.go: the checker pipeline *)

Module Updater.
Import GoString Lib.

(** What [client.Do] gives for one GET (of a URL [http.NewRequest]
    accepts): a transport error with its message, or a response. *)
Inductive RoundTrip :=
| TransportError (msg : string)
| HTTPResponse (StatusCode : Z) (Body : string).

Definition Network : Type := string -> RoundTrip.

(** The rows [find_next_check] scans, one per joined row of the query. *)
Record SQLresult := {
  sq_MirrorID : Z;
  sq_RepoID : Z;
  sq_MRelease : Z;
  sq_Name : string;
  sq_Basedir : string;
  sq_BasedirAlt : string;
  sq_RepoPath : string;
  sq_RepoName : string;
  sq_RepoArch : string;
  sq_RepoIsAlt : Z
}.

(** status JOIN mirrors JOIN repos, on the two identifiers. *)
Definition status_join (db : DB) : list (Status * Mirror * Repo) :=
  s ← status db;
  m ← filter (λ m, mirror_id m = st_mirror_id s) (mirrors db);
  r ← filter (λ r, repo_id r = st_repo_id s) (repos db);
  [(s, m, r)].

(** WHERE checked < (? - ?) AND repos.enabled > 0 *)
Definition due (now arg : Z) (row : Status * Mirror * Repo) : bool :=
  (checked row.1.1 <? now - arg) && (0 <? Bool_to_int (repo_enabled row.2)).

(** ORDER BY status.checked ASC *)
Definition checked_le (a b : Status * Mirror * Repo) : Prop :=
  checked a.1.1 <= checked b.1.1.

#[global] Instance checked_le_dec : RelDecision checked_le.
Proof. intros a b. unfold checked_le. apply _. Defined.

(** The query of [find_next_check], with its three arguments. *)
Definition next_check_rows (db : DB) (now arg limit : Z)
  : list (Status * Mirror * Repo) :=
  sql_limit limit
    (merge_sort checked_le (filter (λ row, due now arg row = true) (status_join db))).

Definition scan (row : Status * Mirror * Repo) : SQLresult :=
  let '(s, m, r) := row in
  {| sq_MirrorID := mirror_id m;
     sq_RepoID := st_repo_id s;
     sq_MRelease := major_release r;
     sq_Name := name m;
     sq_Basedir := basedir m;
     sq_BasedirAlt := basedir_altarch m;
     sq_RepoPath := path r;
     sq_RepoName := repo_name r;
     sq_RepoArch := arch r;
     sq_RepoIsAlt := Bool_to_int (is_altarch r) |}.

(** The body of the loop over the rows: one task per row. *)
Definition task_of (res : SQLresult) : CheckTask :=
  let iso := contains "isos" (sq_RepoName res) in
  let RepoArch :=
    if (sq_MRelease res =? 8) && negb iso
    then sq_RepoArch res +:+ "/os" else sq_RepoArch res in
  if 0 <? sq_RepoIsAlt res then
    {| MirrorID := sq_MirrorID res;
       RepoID := sq_RepoID res;
       URL := "http://" +:+ sq_Name res +:+ sq_BasedirAlt res +:+ "/" +:+
              sq_RepoPath res +:+ "/" +:+ sq_RepoName res +:+ "/" +:+ RepoArch;
       Iso := iso;
       AltArch := 0 <? sq_RepoIsAlt res;
       Valid := true |}
  else
    {| MirrorID := sq_MirrorID res;
       RepoID := sq_RepoID res;
       URL := "http://" +:+ sq_Name res +:+ sq_Basedir res +:+ "/" +:+
              sq_RepoPath res +:+ "/" +:+ sq_RepoName res +:+ "/" +:+ RepoArch;
       Iso := iso;
       AltArch := 0 <? sq_RepoIsAlt res;
       Valid := true |}.

(** [rand.Intn(n)] on a raw draw of the generator. *)
Definition Intn (n draw : Z) : Z := draw `mod` n.

(** [find_next_check(limit)]; [rescan] is the configured interval, [now]
    the clock and [draw] the generator's raw value at the call. *)
Definition find_next_check (db : DB) (rescan now draw limit : Z)
  : list CheckTask :=
  task_of ∘ scan <$> next_check_rows db now (rescan + Intn 60 draw) limit.

(** A buffered channel: its queue (oldest first), capacity and whether
    it was closed. *)
Record Chan (A : Type) := {
  buf : list A;
  cap : nat;
  closed : bool
}.
Arguments buf {A} _.
Arguments cap {A} _.
Arguments closed {A} _.

Definition send {A} (x : A) (c : Chan A) : option (Chan A) :=
  if decide (length (buf c) < cap c)%nat
  then Some {| buf := buf c ++ [x]; cap := cap c; closed := closed c |}
  else None.

(** One turn of the scheduler's loop (before its sleep): tasks are
    written only to an empty queue. *)
Definition scheduler_tick (db : DB) (rescan now draw : Z)
    (taskchan : Chan CheckTask) : Chan CheckTask :=
  if decide (length (buf taskchan) = 0)%nat then
    {| buf := buf taskchan ++
              find_next_check db rescan now draw (Z.of_nat (cap taskchan));
       cap := cap taskchan;
       closed := closed taskchan |}
  else taskchan.

(** UPDATE status SET timestamp = ?, checked = ?, result = ?
    WHERE mirror_id = ? AND repo_id = ? *)
Definition update_mirror_status (cr : CheckResult) (now : Z)
    (table : list Status) : list Status :=
  (λ s,
     if decide (st_mirror_id s = cr_MirrorID cr ∧ st_repo_id s = cr_RepoID cr)
     then {| st_mirror_id := st_mirror_id s;
             st_repo_id := st_repo_id s;
             timestamp := Some (cr_Timestamp cr);
             checked := now;
             result := Some (cr_Result cr) |}
     else s) <$> table.

Definition iso_timestamp (net : Network) (now : Z) (url : string) : Z * Z :=
  match net (url +:+ "/sha256sum.txt") with
  | HTTPResponse _ _ => (now, 200)
  | TransportError _ =>
      match net (url +:+ "/CHECKSUM") with
      | HTTPResponse _ _ => (now, 200)
      | TransportError _ => (0, 404)
      end
  end.

Definition repository_timestamp (net : Network) (url : string) : Z * Z :=
  match net (url +:+ "/repodata/repomd.xml") with
  | TransportError err =>
      let nosuchhost := contains "no such host" err in
      let timeout := contains "deadline exceeded" err in
      if nosuchhost then (0, -1)
      else if timeout then (0, -2)
      else (0, -3)
  | HTTPResponse StatusCode data =>
      if negb (StatusCode =? 200) then (0, StatusCode)
      else
        let timestampstr := tsregex_FindStringSubmatch data in
        if decide (length timestampstr = 2%nat) then
          match ParseInt (nth 1 timestampstr "") with
          | Some timestampint => (timestampint, StatusCode)
          | None => (0, StatusCode)
          end
        else (0, -4)
  end.

(** [execute_test]: [None] when the task is skipped, otherwise the
    result written to the result channel.  This is the probe of a task
    whose requests [http.NewRequest] can build; for a URL it rejects
    the request is nil, [req.Header.Set] panics and nothing is
    written. *)
Definition execute_test (net : Network) (now : Z) (task : CheckTask)
  : option CheckResult :=
  if negb (Valid task) then None
  else
    let '(timestamp, httpcode) :=
      if Iso task then iso_timestamp net now (URL task)
      else repository_timestamp net (URL task) in
    Some {| cr_MirrorID := MirrorID task;
            cr_RepoID := RepoID task;
            cr_Timestamp := timestamp;
            cr_Result := httpcode |}.

(** The committer goroutine.  Its control points: the test of the queue
    length, the receive of [for result := range resultchan], the commit
    after that loop, and the sleep. *)
Inductive committer_pc := AtCheck | AtReceive | AtCommit | AtSleep.

Record Committer := {
  resultchan : Chan CheckResult;
  table : list Status;
  pc : committer_pc;
  begun : nat;       (* transactions opened *)
  committed : nat    (* transactions committed *)
}.

(** One step of the committer at clock [now]; [None] when it is blocked
    (a receive on an empty channel that is not closed). *)
Definition committer_step (now : Z) (s : Committer) : option Committer :=
  match pc s with
  | AtCheck =>
      if decide (cap (resultchan s) `div` 2 ≤ length (buf (resultchan s)))%nat
      then Some {| resultchan := resultchan s; table := table s;
                   pc := AtReceive; begun := S (begun s);
                   committed := committed s |}
      else Some {| resultchan := resultchan s; table := table s;
                   pc := AtSleep; begun := begun s;
                   committed := committed s |}
  | AtReceive =>
      match buf (resultchan s) with
      | r :: rest =>
          Some {| resultchan := {| buf := rest; cap := cap (resultchan s);
                                   closed := closed (resultchan s) |};
                  table := update_mirror_status r now (table s);
                  pc := AtReceive; begun := begun s;
                  committed := committed s |}
      | [] =>
          if closed (resultchan s)
          then Some {| resultchan := resultchan s; table := table s;
                       pc := AtCommit; begun := begun s;
                       committed := committed s |}
          else None
      end
  | AtCommit =>
      Some {| resultchan := resultchan s; table := table s;
              pc := AtSleep; begun := begun s;
              committed := S (committed s) |}
  | AtSleep =>
      Some {| resultchan := resultchan s; table := table s;
              pc := AtCheck; begun := begun s;
              committed := committed s |}
  end.

(** What can happen to the committer's state: the committer moves, or a
    probe sends its result.  Nothing in the program closes the channel. *)
Inductive event :=
| Commit_step (now : Z)
| Probe_send (r : CheckResult).

Definition step (e : event) (s : Committer) : option Committer :=
  match e with
  | Commit_step now => committer_step now s
  | Probe_send r =>
      c ← send r (resultchan s);
      Some {| resultchan := c; table := table s; pc := pc s;
              begun := begun s; committed := committed s |}
  end.

(** A schedule of events; an event that is blocked leaves the state as
    it is (the goroutine waits). *)
Fixpoint run (evs : list event) (s : Committer) : Committer :=
  match evs with
  | [] => s
  | e :: evs' => run evs' (default s (step e s))
  end.

End Updater.


(** ** mirrorlist/main.go: the selection front end *)

Module Mirrorlist.
Import GoString Lib.

(** *** Collaborators of the handler *)

(** The city record of the location database, as far as
    [get_ip_location] reads it. *)
Record GeoRecord := {
  ContinentCode : string;
  CountryIsoCode : string;
  Subdivisions : list string
}.

(** [To4 ip] is [net.ParseIP(ip).To4() != nil]; [City ip] is
    [geodb.City(net.ParseIP(ip))], [None] for an error. *)
Record Env := {
  To4 : string → bool;
  City : string → option GeoRecord
}.

Record Config := {
  listsize : Z;
  caching : bool;
  headers : gmap string string
}.

(** The response cache (freecache, a dependency), by its interface: a
    map from keys to values with the time each expires at (0: never),
    and the hit and miss counters; [Get] misses on an absent or expired
    key, [Set] stores.  Capacity, eviction and the size limit of an
    entry are left out. *)
Record Cache := {
  entries : gmap string (string * Z);
  HitCount : Z;
  MissCount : Z
}.

Definition LookupCount (c : Cache) : Z := HitCount c + MissCount c.

Definition NewCache : Cache :=
  {| entries := ∅; HitCount := 0; MissCount := 0 |}.

Definition cache_Get (now : Z) (key : string) (c : Cache)
  : option string * Cache :=
  match entries c !! key with
  | Some (value, expireAt) =>
      if negb (expireAt =? 0) && (expireAt <=? now)
      then (None, {| entries := delete key (entries c);
                     HitCount := HitCount c;
                     MissCount := MissCount c + 1 |})
      else (Some value, {| entries := entries c;
                           HitCount := HitCount c + 1;
                           MissCount := MissCount c |})
  | None => (None, {| entries := entries c;
                      HitCount := HitCount c;
                      MissCount := MissCount c + 1 |})
  end.

Definition cache_Set (now : Z) (key value : string) (expireSeconds : Z)
    (c : Cache) : Cache :=
  let expireAt := if 0 <? expireSeconds then now + expireSeconds else 0 in
  {| entries := <[key := (value, expireAt)]> (entries c);
     HitCount := HitCount c;
     MissCount := MissCount c |}.

(** [rescache.Clear()]: every entry is evicted and the counters start
    again. *)
Definition cache_Clear (c : Cache) : Cache := NewCache.

(** The request and the response under construction ([ctx]). *)
Record Request := {
  RemoteAddr : string;
  QueryArgs : list (string * string)
}.

Record Response := {
  StatusCode : Z;
  Header : gmap string string;
  Body : string
}.

(** [ctx.QueryArgs().Peek(key)]: the first value given for [key], the
    empty string when there is none. *)
Fixpoint Peek (args : list (string * string)) (key : string) : string :=
  match args with
  | [] => ""
  | (k, v) :: args' => if decide (k = key) then v else Peek args' key
  end.

Definition SetStatusCode (code : Z) (ctx : Response) : Response :=
  {| StatusCode := code; Header := Header ctx; Body := Body ctx |}.

Definition SetHeader (k v : string) (ctx : Response) : Response :=
  {| StatusCode := StatusCode ctx; Header := <[k := v]> (Header ctx);
     Body := Body ctx |}.

Definition Write (p : string) (ctx : Response) : Response :=
  {| StatusCode := StatusCode ctx; Header := Header ctx;
     Body := Body ctx +:+ p |}.

Definition FormatBool (b : bool) : string := if b then "true" else "false".

(** *** lib.IPversion and get_ip_location *)

Definition IPversion (env : Env) (ip : string) : string :=
  if To4 env ip then "4" else "6".

Definition get_ip_location (env : Env) (ip : string) : Location :=
  match City env ip with
  | None => {| Known := false; Continent := ""; Country := ""; Region := "" |}
  | Some record =>
      {| Known := true;
         Continent := ContinentCode record;
         Country := CountryIsoCode record;
         Region := match Subdivisions record with
                   | s :: _ => s
                   | [] => ""
                   end |}
  end.

(** *** Queries *)

(** The i-th row of a query gets the random value [rnd (off + i)]. *)
Definition with_rand {A} (rnd : nat → Z) (off : nat) (rows : list A)
  : list (A * Z) :=
  imap (λ i x, (x, rnd (off + i)%nat)) rows.

(** SELECT repo_id, path, is_altarch FROM repos WHERE enabled > 0 AND
    major_release = ? AND name = ? AND arch = ?; the integer column is
    compared with the text of the request parameter as the database
    reads it.  For a text of decimal digits that is the number it
    writes, which is what [ParseInt] gives; a text that only the
    database takes for a number ("8.0" in SQLite) is outside this
    model.  The first row is scanned; no row is an error. *)
Definition get_repo_id (db : DB) (release repo arch_ : string)
  : Z * string * bool :=
  match filter (λ r, 0 < Bool_to_int (repo_enabled r)
                     ∧ ParseInt release = Some (major_release r)
                     ∧ repo_name r = repo ∧ arch r = arch_) (repos db) with
  | r :: _ => (repo_id r, path r, is_altarch r)
  | [] => (-1, "", false)
  end.

(** NULL sorts below every value. *)
Definition ts_lt (a b : option Z) : Prop :=
  match a, b with
  | None, Some _ => True
  | Some x, Some y => x < y
  | _, None => False
  end.

#[global] Instance ts_lt_dec : RelDecision ts_lt.
Proof. intros [x|] [y|]; simpl; apply _. Defined.

(** ORDER BY status.timestamp DESC, RANDOM() *)
Definition fresher (a b : Status * Z) : Prop :=
  ts_lt (timestamp b.1) (timestamp a.1)
  ∨ (timestamp a.1 = timestamp b.1 ∧ a.2 <= b.2).

#[global] Instance fresher_dec : RelDecision fresher.
Proof. intros a b. unfold fresher. apply _. Defined.

Definition mirrors_with_repo (db : DB) (rnd : nat → Z) (repoid : Z) : list Z :=
  let rows :=
    s ← status db;
    m ← filter (λ m, mirror_id m = st_mirror_id s) (mirrors db);
    if decide (st_repo_id s = repoid ∧ 0 < Bool_to_int (enabled m))
    then [s] else [] in
  (λ row : Status * Z, st_mirror_id row.1)
    <$> merge_sort fresher (with_rand rnd 0 rows).

(** The column ["ipv"+ipversion] of the mirrors table; there is none
    unless the version is 4 or 6, and the query fails. *)
Definition ipv_column (ipversion : string) : option (Mirror → Z) :=
  if decide (ipversion = "4") then Some ipv4
  else if decide (ipversion = "6") then Some ipv6
  else None.

(** A row of the compound query of [nearby_mirrors]:
    mirror_id, prio, rand. *)
Definition prio_row : Type := Z * Z * Z.

Definition tagged (prio : Z) (rnd : nat → Z) (off : nat) (ms : list Mirror)
  : list prio_row :=
  (λ mr : Mirror * Z, (mirror_id mr.1, prio, mr.2)) <$> with_rand rnd off ms.

(** ORDER BY prio, rand ASC *)
Definition prio_rand_le (a b : prio_row) : Prop :=
  a.1.2 < b.1.2 ∨ (a.1.2 = b.1.2 ∧ a.2 <= b.2).

#[global] Instance prio_rand_le_dec : RelDecision prio_rand_le.
Proof. intros a b. unfold prio_rand_le. apply _. Defined.

(** The three tiers, each with the IP version and enabled tests. *)
Definition usable (ipv : Mirror → Z) (m : Mirror) : Prop :=
  0 < ipv m ∧ 0 < Bool_to_int (enabled m).

Definition tier3 (loc : Location) (ipv : Mirror → Z) (m : Mirror) : Prop :=
  continent m = Continent loc ∧ usable ipv m.

Definition tier2 (loc : Location) (ipv : Mirror → Z) (m : Mirror) : Prop :=
  continent m = Continent loc ∧ country m = Country loc ∧ usable ipv m.

Definition tier1 (loc : Location) (ipv : Mirror → Z) (m : Mirror) : Prop :=
  continent m = Continent loc ∧ country m = Country loc
  ∧ region m = Region loc ∧ usable ipv m.

#[global] Instance tier3_dec loc ipv m : Decision (tier3 loc ipv m).
Proof. unfold tier3, usable. apply _. Defined.
#[global] Instance tier2_dec loc ipv m : Decision (tier2 loc ipv m).
Proof. unfold tier2, usable. apply _. Defined.
#[global] Instance tier1_dec loc ipv m : Decision (tier1 loc ipv m).
Proof. unfold tier1, usable. apply _. Defined.

(** The rows of the compound SELECT before ORDER BY and LIMIT: the
    UNION (duplicate rows removed) of the three tier selections over
    the eligible mirrors. *)
Definition nearby_rows (db : DB) (rnd : nat → Z) (loc : Location)
    (ipv : Mirror → Z) (mirrors_ : list Z) : list prio_row :=
  let eligible := filter (λ m, mirror_id m ∈ mirrors_) (mirrors db) in
  let n := length eligible in
  remove_dups
    (tagged 3 rnd 0 (filter (tier3 loc ipv) eligible)
     ++ tagged 2 rnd n (filter (tier2 loc ipv) eligible)
     ++ tagged 1 rnd (2 * n) (filter (tier1 loc ipv) eligible)).

Definition nearby_mirrors (db : DB) (rnd : nat → Z) (loc : Location)
    (ipversion : string) (mirrors_ : list Z) (limit : Z) : list Z :=
  if decide (mirrors_ = []) then []            (* sqlx.In: empty slice *)
  else
    match ipv_column ipversion with
    | None => []                               (* the query fails *)
    | Some ipv =>
        (λ row : prio_row, row.1.1)
          <$> sql_limit limit
                (merge_sort prio_rand_le (nearby_rows db rnd loc ipv mirrors_))
    end.

(** The line added to [result] for one row of the mirrors table. *)
Definition url_lines (release repo arch_ : string) (is_altarch_ : bool)
    (result : string) (m : Mirror) : string :=
  let directory := if is_altarch_ then basedir_altarch m else basedir m in
  let result :=
    if has_prefix "7" release
    then result +:+ "http://" +:+ name m +:+ "/" +:+ directory +:+ "/" +:+
         release +:+ "/" +:+ repo +:+ "/" +:+ arch_ +:+ "/" +:+ nl
    else result in
  if has_prefix "8" release
  then result +:+ "http://" +:+ name m +:+ "/" +:+ directory +:+ "/" +:+
       release +:+ "/" +:+ repo +:+ "/" +:+ arch_ +:+ "/os/" +:+ nl
  else result.

(** SELECT name, basedir, basedir_altarch FROM mirrors WHERE mirror_id
    IN (?): the rows of the table whose id is in the slice. *)
Definition full_mirror_urls (db : DB) (mirrors_ : list Z)
    (release repo arch_ : string) (is_altarch_ : bool) : string :=
  if decide (mirrors_ = []) then ""            (* sqlx.In: empty slice *)
  else
    let rows := filter (λ m, mirror_id m ∈ mirrors_) (mirrors db) in
    multislash (foldl (url_lines release repo arch_ is_altarch_) "" rows).

(** *** http_handler_root *)

(** The loop over the required parameters: the first one that is
    missing. *)
Fixpoint first_missing (args : list (string * string)) (keys : list string)
  : option string :=
  match keys with
  | [] => None
  | key :: keys' =>
      if decide (Peek args key = "") then Some key
      else first_missing args keys'
  end.

(** fmt.Sprintf("%d%s%s%s%s", repoid, ipversion, Continent, Country,
    Region) *)
Definition cachekey (repoid : Z) (ipversion : string) (loc : Location)
  : string :=
  pretty repoid +:+ ipversion +:+ Continent loc +:+ Country loc +:+ Region loc.

(** The value of [mirrors] after "Pick local servers, if we have more
    than we need". *)
Definition pick_mirrors (cfg : Config) (db : DB) (rnd : nat → Z)
    (clientloc : Location) (ipversion : string) (allmirrors : list Z)
  : list Z :=
  if listsize cfg <? Z.of_nat (length allmirrors)
  then nearby_mirrors db rnd clientloc ipversion allmirrors (listsize cfg)
  else allmirrors.

(** "Use remote address or `ip` parameter, if provided" *)
Definition client_address (req : Request) : string :=
  if decide (Peek (QueryArgs req) "ip" ≠ "")
  then Peek (QueryArgs req) "ip" else RemoteAddr req.

(** [now] is the cache's clock, [elapsed] the text of the processing
    time, [rnd] the random values of the store for this request. *)
Definition http_handler_root (env : Env) (cfg : Config) (db : DB)
    (now : Z) (elapsed : string) (rnd : nat → Z)
    (req : Request) (rescache : Cache) : Response * Cache :=
  let args := QueryArgs req in
  let clientip := client_address req in
  let ipversion := IPversion env clientip in
  let ctx := {| StatusCode := 200; Header := headers cfg; Body := "" |} in
  match first_missing args ["arch"; "release"; "repo"] with
  | Some key =>
      (Write (key +:+ " not specified" +:+ nl) (SetStatusCode 400 ctx),
       rescache)
  | None =>
      let '(repoid, repopath, is_altarch_) :=
        get_repo_id db (Peek args "release") (Peek args "repo")
          (Peek args "arch") in
      if repoid <=? 0 then
        (Write ("Invalid release/repo/arch combination" +:+ nl)
           (SetStatusCode 404 ctx),
         rescache)
      else
        let clientloc := get_ip_location env clientip in
        let key := cachekey repoid ipversion clientloc in
        let '(cached, ctx, rescache) :=
          if caching cfg then
            let '(response, rescache') := cache_Get now key rescache in
            (response,
             SetHeader "X-Cache-Hit"
               (FormatBool (bool_decide (is_Some response))) ctx,
             rescache')
          else (None, ctx, rescache) in
        match cached with
        | Some response =>
            (Write response (SetHeader "X-Processing-Time" elapsed ctx),
             rescache)
        | None =>
            let allmirrors := mirrors_with_repo db rnd repoid in
            if decide (length allmirrors = 0%nat) then
              (SetStatusCode 404 ctx, rescache)
            else
              let mirrors_ :=
                pick_mirrors cfg db (λ i, rnd (length allmirrors + i)%nat)
                  clientloc ipversion allmirrors in
              let ctx := SetHeader "X-Processing-Time" elapsed ctx in
              let response :=
                full_mirror_urls db mirrors_ repopath (Peek args "repo")
                  (Peek args "arch") is_altarch_ in
              let ctx := Write response ctx in
              if caching cfg && (0 <? Z.of_nat (String.length response))
              then (ctx, cache_Set now key response 3600 rescache)
              else (ctx, rescache)
        end
  end.

(** What reaches the cache over time: a request to the root handler,
    with the store, the collaborators, the clock and the random values
    at that moment, or the DELETE of /admin/cache (which clears the
    cache when caching is on). *)
Inductive cache_event :=
| Served (env : Env) (db : DB) (now : Z) (elapsed : string)
         (rnd : nat → Z) (req : Request)
| Cleared.

Fixpoint serve (cfg : Config) (evs : list cache_event) (c : Cache) : Cache :=
  match evs with
  | [] => c
  | Served env db now elapsed rnd req :: evs' =>
      serve cfg evs' (http_handler_root env cfg db now elapsed rnd req c).2
  | Cleared :: evs' =>
      serve cfg evs' (if caching cfg then cache_Clear c else c)
  end.

End Mirrorlist.


(** ** Properties of the design document that are compared with the code

    Each definition states a sentence of the document about the
    functions above; the theorems below decide them. *)

Module Stated.
Import GoString Lib.

(** §8, scenario 3: after a probe answered with 404, the row of the
    probed pair has result 404 and the timestamp it had before. *)
Definition keeps_timestamp (net : Updater.Network) (now : Z)
    (task : CheckTask) (table : list Status) : Prop :=
  ∀ cr i s,
    Updater.execute_test net now task = Some cr →
    table !! i = Some s →
    st_mirror_id s = MirrorID task →
    st_repo_id s = RepoID task →
    ∃ s', Updater.update_mirror_status cr now table !! i = Some s'
          ∧ result s' = Some 404
          ∧ timestamp s' = timestamp s.

(** §4.3, committer: once the queue is half full, the committer handles
    what is queued, commits and is back at its sleep, within a bounded
    number of its own steps and without further results arriving. *)
Definition drain_bounded (s : Updater.Committer) : Prop :=
  ∃ n : nat,
    let s' := Updater.run (replicate n (Updater.Commit_step 0)) s in
    Updater.committed s' = S (Updater.committed s)
    ∧ Updater.pc s' = Updater.AtSleep.

(** §4.3, probe: on HTTP 200 the outcome is 200 with the parsed value
    when the first tag parses, and -4 when there is no tag or its digits
    do not parse. *)
Definition classifies_200 (data : string) (res : Z * Z) : Prop :=
  match tsregex_FindStringSubmatch data with
  | [_; digits] =>
      match ParseInt digits with
      | Some t => res = (t, 200)
      | None => res.2 = -4
      end
  | _ => res.2 = -4
  end.

(** §4.1, edge cases: NotFound, and the cache is left as it was (no
    lookup, hit or miss is counted). *)
Definition notfound_without_cache (resp : Mirrorlist.Response)
    (before after : Mirrorlist.Cache) : Prop :=
  Mirrorlist.StatusCode resp = 404 ∧ after = before.

(** The identifier [id] is a candidate and a row of the mirrors table
    with that identifier satisfies [P]. *)
Definition matches (db : DB) (allmirrors : list Z) (P : Mirror → Prop)
    (id : Z) : Prop :=
  id ∈ allmirrors ∧ ∃ m, m ∈ mirrors db ∧ mirror_id m = id ∧ P m.

(** §8: every entry of a tier-1 mirror precedes every entry of a mirror
    that matches tier 2 or 3 at best. *)
Definition tier1_entries_first (db : DB) (loc : Location)
    (ipv : Mirror → Z) (allmirrors res : list Z) : Prop :=
  ∀ i j a b,
    res !! i = Some a → res !! j = Some b →
    matches db allmirrors (Mirrorlist.tier1 loc ipv) a →
    ¬ matches db allmirrors (Mirrorlist.tier1 loc ipv) b →
    (i < j)%nat.





(** The repository a request resolves to, and the cache key the handler
    forms for it. *)
Definition request_repo (db : DB) (req : Mirrorlist.Request)
  : Z * string * bool :=
  Mirrorlist.get_repo_id db
    (Mirrorlist.Peek (Mirrorlist.QueryArgs req) "release")
    (Mirrorlist.Peek (Mirrorlist.QueryArgs req) "repo")
    (Mirrorlist.Peek (Mirrorlist.QueryArgs req) "arch").

Definition request_key (env : Mirrorlist.Env) (db : DB)
    (req : Mirrorlist.Request) : string :=
  Mirrorlist.cachekey (request_repo db req).1.1
    (Mirrorlist.IPversion env (Mirrorlist.client_address req))
    (Mirrorlist.get_ip_location env (Mirrorlist.client_address req)).

(** The result of the lookup the handler makes when caching is on,
    with the cache after it. *)
Definition looked_up (env : Mirrorlist.Env) (cfg : Mirrorlist.Config)
    (db : DB) (now : Z) (req : Mirrorlist.Request) (c : Mirrorlist.Cache)
  : option string * Mirrorlist.Cache :=
  if Mirrorlist.caching cfg
  then Mirrorlist.cache_Get now (request_key env db req) c
  else (None, c).

(** No entry of the cache has an empty body. *)
Definition no_empty_body (c : Mirrorlist.Cache) : Prop :=
  ∀ k v e, Mirrorlist.entries c !! k = Some (v, e) → v ≠ "".

End Stated.


(** ** Sample data: a small store, a client and some probes *)

Module Sample.
Import GoString Lib.

Definition mirror (id : Z) (host dir cont ctry reg : string) : Mirror :=
  {| mirror_id := id; name := host; basedir := dir; basedir_altarch := "";
     ipv4 := 1; ipv6 := 0;
     continent := cont; country := ctry; region := reg; enabled := true |}.

Definition mA : Mirror := mirror 1 "a.example" "/centos" "EU" "DE" "BY".
Definition mB : Mirror := mirror 2 "b.example" "/centos" "EU" "DE" "HE".
Definition mC : Mirror := mirror 3 "c.example" "/pub/centos/" "NA" "US" "CA".
Definition mD : Mirror := mirror 4 "d.example" "/pub/centos/" "EU" "FR" "IDF".

Definition repo (id release : Z) (dir : string) : Repo :=
  {| repo_id := id; major_release := release; path := dir;
     repo_name := "BaseOS"; arch := "x86_64";
     is_altarch := false; repo_enabled := true |}.

Definition r8 : Repo := repo 1 8 "8.3.2011".
Definition r9 : Repo := repo 2 9 "9-stream".

Definition row (m r ts chk : Z) : Status :=
  {| st_mirror_id := m; st_repo_id := r; timestamp := Some ts;
     checked := chk; result := Some 200 |}.

(** Four mirrors carry repository 1, nobody carries repository 2 but
    mirror A. *)
Definition db : DB :=
  {| mirrors := [mA; mB; mC; mD];
     repos := [r8; r9];
     status := [row 1 1 1600000000 500; row 2 1 1600000000 300;
                row 3 1 1600000000 400; row 4 1 1600000000 200;
                row 1 2 1600000000 100] |}.

(** The same store after every mirror was removed from repository 1. *)
Definition db_no_mirrors : DB :=
  {| mirrors := [mA; mB; mC; mD]; repos := [r8; r9]; status := [] |}.

Definition munich : Mirrorlist.GeoRecord :=
  {| Mirrorlist.ContinentCode := "EU"; Mirrorlist.CountryIsoCode := "DE";
     Mirrorlist.Subdivisions := ["BY"] |}.

Definition frankfurt : Mirrorlist.GeoRecord :=
  {| Mirrorlist.ContinentCode := "EU"; Mirrorlist.CountryIsoCode := "DE";
     Mirrorlist.Subdivisions := ["HE"] |}.

(** The record of an address the location database does not know. *)
Definition nowhere : Mirrorlist.GeoRecord :=
  {| Mirrorlist.ContinentCode := ""; Mirrorlist.CountryIsoCode := "";
     Mirrorlist.Subdivisions := [] |}.

(** The texts the sample parser takes for IPv4 addresses: decimal
    digits with three dots.  An address with its port, as [RemoteAddr]
    has it, is none. *)
Fixpoint dotted (dots : nat) (ip : string) : bool :=
  match ip with
  | EmptyString => Nat.eqb dots 3
  | String c ip' =>
      if is_digit c then dotted dots ip'
      else if Ascii.eqb c "." then dotted (S dots) ip'
      else false
  end.

(** The sample surroundings: 192.0.2.7 lies in Munich, 192.0.2.8 in
    Frankfurt, any other IPv4 address is unknown to the location
    database, and a text that is no address is an error. *)
Definition env : Mirrorlist.Env :=
  {| Mirrorlist.To4 := dotted 0;
     Mirrorlist.City := λ ip,
       if decide (ip = "192.0.2.7") then Some munich
       else if decide (ip = "192.0.2.8") then Some frankfurt
       else if dotted 0 ip then Some nowhere
       else None |}.

Definition bavaria : Location := Mirrorlist.get_ip_location env "192.0.2.7".

Definition cfg (size : Z) (cache : bool) : Mirrorlist.Config :=
  {| Mirrorlist.listsize := size; Mirrorlist.caching := cache;
     Mirrorlist.headers := ∅ |}.

Definition request (args : list (string * string)) : Mirrorlist.Request :=
  {| Mirrorlist.RemoteAddr := "192.0.2.7:40000"; Mirrorlist.QueryArgs := args |}.

(** The client passes its address in the [ip] parameter. *)
Definition get_baseos (release : string) : Mirrorlist.Request :=
  request [("arch", "x86_64"); ("release", release); ("repo", "BaseOS");
           ("ip", "192.0.2.7")].

(** Random values: the draw for mirror B's country row is below the one
    for mirror A's. *)
Definition rnd (i : nat) : Z :=
  match i with
  | 4%nat => 1
  | 5%nat => 0
  | _ => Z.of_nat i + 10
  end.

Definition body_A8 : string :=
  "http://a.example/centos/8.3.2011/BaseOS/x86_64/os/" +:+ nl.

(** A cache that still holds the answer given while mirrors existed. *)
Definition stale_cache : Mirrorlist.Cache :=
  Mirrorlist.cache_Set 1000 "14EUDEBY" body_A8 3600 Mirrorlist.NewCache.

(** Probes. *)
Definition task : CheckTask :=
  {| MirrorID := 1; RepoID := 1;
     URL := "http://a.example/centos/8.3.2011/BaseOS/x86_64/os";
     Iso := false; AltArch := false; Valid := true |}.

Definition net404 : Updater.Network := λ _, Updater.HTTPResponse 404 "".

Definition repomd_overflow : string :=
  "<repomd><timestamp>9223372036854775808</timestamp></repomd>".

Definition net_overflow : Updater.Network :=
  λ _, Updater.HTTPResponse 200 repomd_overflow.

Definition ok (m : Z) : CheckResult :=
  {| cr_MirrorID := m; cr_RepoID := 1; cr_Timestamp := 1600000000;
     cr_Result := 200 |}.

(** The committer at its test, ten results queued out of twenty. *)
Definition half_full : Updater.Committer :=
  {| Updater.resultchan :=
       {| Updater.buf := ok <$> [1; 2; 3; 4; 1; 2; 3; 4; 1; 2];
          Updater.cap := 20; Updater.closed := false |};
     Updater.table := status db;
     Updater.pc := Updater.AtCheck;
     Updater.begun := 0;
     Updater.committed := 0 |}.

(** Two clients whose locations differ: country US without region, and
    region US without country. *)
Definition loc_country_US : Location :=
  {| Known := true; Continent := "NA"; Country := "US"; Region := "" |}.
Definition loc_region_US : Location :=
  {| Known := true; Continent := "NA"; Country := ""; Region := "US" |}.

Definition env2 : Mirrorlist.Env :=
  {| Mirrorlist.To4 := dotted 0;
     Mirrorlist.City := λ ip,
       if decide (ip = "198.51.100.1") then
         Some {| Mirrorlist.ContinentCode := "NA";
                 Mirrorlist.CountryIsoCode := "US";
                 Mirrorlist.Subdivisions := [] |}
       else if decide (ip = "203.0.113.9") then
         Some {| Mirrorlist.ContinentCode := "NA";
                 Mirrorlist.CountryIsoCode := "";
                 Mirrorlist.Subdivisions := ["US"] |}
       else if dotted 0 ip then Some nowhere
       else None |}.

Definition db2 : DB :=
  {| mirrors := [mirror 1 "us.example" "/centos" "NA" "US" "";
                 mirror 2 "other.example" "/centos" "NA" "" "US"];
     repos := [r8];
     status := [row 1 1 1600000000 500; row 2 1 1600000000 300] |}.

Definition from (ip : string) : Mirrorlist.Request :=
  request [("arch", "x86_64"); ("release", "8"); ("repo", "BaseOS");
           ("ip", ip)].


End Sample.


(** ** The administrative handlers and the remaining helpers

    [mirrorlist/main.go]: the handlers that create and delete mirrors
    and repositories, the cache and issues endpoints; [lib/functions.go]:
    the DNS helpers and the DSN.  A decoded request body is an input
    ([inl] the error text of [json.Unmarshal]); the identifier the store
    assigns to an inserted row is an input too, a positive number. *)

Module Admin.
Import GoString Lib Mirrorlist.

(** [net.LookupIP(host)]: [None] for an error, otherwise the addresses
    in text form, of which there is at least one. *)
Definition Resolver : Type := string → option (string * list string).

(** [lib.IPfamilies]: the values of [result[4]] and [result[6]]. *)
Definition IPfamilies (env : Env) (dns : Resolver) (host : string) : Z * Z :=
  match dns host with
  | None => (0, 0)
  | Some (ip, ips) =>
      foldl (λ result ip,
               let result := if To4 env ip then (1, result.2) else result in
               if negb (To4 env ip) then (result.1, 1) else result)
            (0, 0) (ip :: ips)
  end.

(** [lib.Name_to_ip(host).String()] *)
Definition Name_to_ip (dns : Resolver) (host : string) : string :=
  match dns host with
  | None => "0.0.0.0"
  | Some (ip, _) => ip
  end.

(** SELECT mirror_id FROM mirrors WHERE name = ? LIMIT 1 *)
Definition mirror_name_to_id (db : DB) (name_ : string) : Z * bool :=
  match filter (λ m, name m = name_) (mirrors db) with
  | m :: _ => (mirror_id m, true)
  | [] => (-1, false)
  end.

(** INSERT INTO status (mirror_id, repo_id, checked) VALUES (m, r, 0):
    refused (and logged) when the pair, the primary key, is present. *)
Definition insert_status (mid rid : Z) (table : list Status) : list Status :=
  if decide (Exists (λ s, st_mirror_id s = mid ∧ st_repo_id s = rid) table)
  then table
  else table ++ [ {| st_mirror_id := mid; st_repo_id := rid;
                     timestamp := None; checked := 0; result := None |} ].

(** The test of the loop of [http_handler_mirror_post]. *)
Definition mirror_serves (newmirror : Mirror) (repo : Repo) : Prop :=
  (basedir newmirror ≠ "" ∧ is_altarch repo = false ∧ repo_enabled repo = true)
  ∨ (basedir_altarch newmirror ≠ "" ∧ is_altarch repo = true
     ∧ repo_enabled repo = true).

#[global] Instance mirror_serves_dec m r : Decision (mirror_serves m r).
Proof. unfold mirror_serves. apply _. Defined.

(** [http_handler_mirror_post]: status code, body, and the store
    afterwards. *)
Definition http_handler_mirror_post (env : Env) (dns : Resolver)
    (newid : positive) (post : string + Mirror) (db : DB) : Z * string * DB :=
  match post with
  | inl err => (400, err, db)
  | inr newmirror =>
      if decide (name newmirror = ""
                 ∨ basedir newmirror +:+ basedir_altarch newmirror = "")
      then (400, "Required parameters: name, basedir and/or basedir_altarch",
            db)
      else if (mirror_name_to_id db (name newmirror)).2 then (409, "", db)
      else
        let ipfamilies := IPfamilies env dns (name newmirror) in
        let loc := get_ip_location env (Name_to_ip dns (name newmirror)) in
        let inserted :=
          {| mirror_id := Z.pos newid;
             name := name newmirror;
             basedir := basedir newmirror;
             basedir_altarch := basedir_altarch newmirror;
             ipv4 := ipfamilies.1;
             ipv6 := ipfamilies.2;
             continent := Continent loc;
             country := Country loc;
             region := Region loc;
             enabled := enabled newmirror |} in
        let db1 := {| mirrors := mirrors db ++ [inserted];
                      repos := repos db; status := status db |} in
        let ID := (mirror_name_to_id db1 (name newmirror)).1 in
        if ID <=? 0 then (500, "", db1)
        else
          (201, "",
           {| mirrors := mirrors db1;
              repos := repos db1;
              status :=
                foldl (λ table repo,
                         if decide (mirror_serves newmirror repo)
                         then insert_status ID (repo_id repo) table
                         else table)
                      (status db1) (repos db1) |})
  end.

(** The test of the loop of [http_handler_repo_post]. *)
Definition repo_served_by (newrepo : Repo) (mirror : Mirror) : Prop :=
  (basedir mirror ≠ "" ∧ is_altarch newrepo = false)
  ∨ (basedir_altarch mirror ≠ "" ∧ is_altarch newrepo = true).

#[global] Instance repo_served_by_dec r m : Decision (repo_served_by r m).
Proof. unfold repo_served_by. apply _. Defined.

(** "Iterate over a fresh repo list to find the match and take the ID" *)
Definition same_repo (a b : Repo) : Prop :=
  major_release a = major_release b ∧ repo_name a = repo_name b
  ∧ path a = path b ∧ arch a = arch b
  ∧ is_altarch a = is_altarch b ∧ repo_enabled a = repo_enabled b.

#[global] Instance same_repo_dec a b : Decision (same_repo a b).
Proof. unfold same_repo. apply _. Defined.

Definition http_handler_repo_post (newid : positive) (post : string + Repo)
    (db : DB) : Z * string * DB :=
  match post with
  | inl err => (400, err, db)
  | inr newrepo =>
      if decide (major_release newrepo = 0 ∨ path newrepo = ""
                 ∨ repo_name newrepo = "" ∨ arch newrepo = "")
      then (400, "Required parameters: release, path, name, arch", db)
      else
        let inserted :=
          {| repo_id := Z.pos newid;
             major_release := major_release newrepo;
             path := path newrepo;
             repo_name := repo_name newrepo;
             arch := arch newrepo;
             is_altarch := is_altarch newrepo;
             repo_enabled := repo_enabled newrepo |} in
        let db1 := {| mirrors := mirrors db; repos := repos db ++ [inserted];
                      status := status db |} in
        let ID :=
          foldl (λ id repo, if decide (same_repo repo newrepo)
                            then repo_id repo else id)
                (repo_id newrepo) (repos db1) in
        (201, "",
         {| mirrors := mirrors db1;
            repos := repos db1;
            status :=
              foldl (λ table mirror,
                       if decide (repo_served_by newrepo mirror)
                       then insert_status (mirror_id mirror) ID table
                       else table)
                    (status db1) (mirrors db1) |})
  end.

(** [http_handler_mirror_delete]: status code and the store afterwards. *)
Definition http_handler_mirror_delete (name_ : string) (db : DB) : Z * DB :=
  let '(mirror_id_, exists_) := mirror_name_to_id db name_ in
  if negb exists_ then (404, db)
  else
    (204,
     {| mirrors := filter (λ m, mirror_id m ≠ mirror_id_) (mirrors db);
        repos := repos db;
        status := filter (λ s, st_mirror_id s ≠ mirror_id_) (status db) |}).

(** [http_handler_repo_delete]; [repo_id_] is the text of the route.
    The text is put into the SQL as it is: its rows are those whose
    identifier is written that way. *)
Definition http_handler_repo_delete (repo_id_ : string) (db : DB) : Z * DB :=
  let exists_ :=
    foldl (λ exists_ repo,
             if decide (pretty (repo_id repo) = repo_id_) then true
             else exists_)
          false (repos db) in
  if negb exists_ then (404, db)
  else
    (204,
     {| mirrors := mirrors db;
        repos := filter (λ r, pretty (repo_id r) ≠ repo_id_) (repos db);
        status := filter (λ s, pretty (st_repo_id s) ≠ repo_id_)
                    (status db) |}).

(** [http_handler_cache_delete] *)
Definition http_handler_cache_delete (cfg : Config) (rescache : Cache)
  : Z * Cache :=
  if negb (caching cfg) then (404, rescache)
  else (204, cache_Clear rescache).

(** *** http_handler_issues *)

Record Issue := {
  issue_Name : string;
  issue_Errors : gmap string Z
}.

(** result != 200 (false for NULL) *)
Definition failed (s : Status) : Prop :=
  match result s with
  | Some r => r ≠ 200
  | None => False
  end.

#[global] Instance failed_dec s : Decision (failed s).
Proof. unfold failed. destruct (result s); apply _. Defined.

(** SELECT DISTINCT status.mirror_id, mirrors.name FROM status JOIN
    mirrors ... WHERE result != 200 and checked > 0 *)
Definition mirrors_with_issues (db : DB) : list (Z * string) :=
  remove_dups
    (s ← status db;
     m ← filter (λ m, mirror_id m = st_mirror_id s) (mirrors db);
     if decide (failed s ∧ 0 < checked s)
     then [(st_mirror_id s, name m)] else []).

(** The results other than 200 of the rows of one mirror. *)
Definition failures_of (db : DB) (mid : Z) : list Z :=
  s ← status db;
  match result s with
  | Some r => if decide (st_mirror_id s = mid ∧ r ≠ 200) then [r] else []
  | None => []
  end.

(** SELECT result, count( * ) FROM status WHERE mirror_id = ? AND
    result != 200 GROUP BY result *)
Definition result_counts (db : DB) (mid : Z) : list (Z * Z) :=
  (λ r, (r, Z.of_nat (length (filter (λ x, x = r) (failures_of db mid)))))
    <$> remove_dups (failures_of db mid).

(** The switch over the result; [StatusMessage] is
    [fasthttp.StatusMessage]. *)
Definition category (StatusMessage : Z → string) (result_ : Z) : string :=
  if decide (result_ = -1) then "Host not found"
  else if decide (result_ = -2) then "Connection timeout"
  else if decide (result_ = -3) then "Unknown connection error"
  else if decide (result_ = -4) then "Failed to parse repomd.xml"
  else StatusMessage result_.

Definition collect_issues (StatusMessage : Z → string) (db : DB)
  : list Issue :=
  (λ row : Z * string,
     {| issue_Name := row.2;
        issue_Errors :=
          foldl (λ (errors : gmap string Z) (rc : Z * Z),
                   <[category StatusMessage rc.1 := rc.2]> errors)
                ∅ (result_counts db row.1) |})
    <$> mirrors_with_issues db.

(** [http_handler_issues]; [Marshal] is [json.Marshal] on the slice. *)
Definition http_handler_issues (StatusMessage : Z → string)
    (Marshal : list Issue → string) (db : DB) : Z * string :=
  let issues := collect_issues StatusMessage db in
  if decide (length issues = 0%nat) then (204, "")
  else (200, Marshal issues).

(** *** lib.Build_DSN *)

(** [cfg.UString(path, default)] on a configuration of text values. *)
Definition UString (cfg : gmap string string) (path_ def : string) : string :=
  default def (cfg !! path_).

Definition Build_DSN (cfg : gmap string string) : string * string :=
  let driver := UString cfg "database.driver" "sqlite3" in
  let dsn := "" in
  let dsn :=
    if decide (driver = "sqlite3")
    then UString cfg "database.file" "mirrorlist.sql" else dsn in
  let dsn :=
    if decide (driver = "mysql") then
      if decide (UString cfg "database.socket" "" ≠ "") then
        UString cfg "database.username" "" +:+ ":" +:+
        UString cfg "database.password" "" +:+ "@unix(" +:+
        UString cfg "database.socket" "" +:+ ")/" +:+
        UString cfg "database.name" "mirrorlist"
      else
        UString cfg "database.username" "" +:+ ":" +:+
        UString cfg "database.password" "" +:+ "@tcp(" +:+
        UString cfg "database.host" "" +:+ ":" +:+
        UString cfg "database.port" "3306" +:+ "/" +:+
        UString cfg "database.name" "mirrorlist"
    else dsn in
  (driver, dsn).

(** How often the byte [c] occurs in [s]. *)
Fixpoint occurrences (c : ascii) (s : string) : nat :=
  match s with
  | EmptyString => 0
  | String x s' => (if Ascii.eqb x c then 1 else 0) + occurrences c s'
  end.

End Admin.


(** ** The checker pipeline: probes and the status table *)

Module UpdaterFacts.
Import GoString Lib Updater.

Lemma update_mirror_status_lookup cr now (table : list Status) i s :
  table !! i = Some s →
  update_mirror_status cr now table !! i =
    Some (if decide (st_mirror_id s = cr_MirrorID cr
                     ∧ st_repo_id s = cr_RepoID cr)
          then {| st_mirror_id := st_mirror_id s;
                  st_repo_id := st_repo_id s;
                  timestamp := Some (cr_Timestamp cr);
                  checked := now;
                  result := Some (cr_Result cr) |}
          else s).
Proof.
  intros Hs. unfold update_mirror_status.
  by rewrite list_lookup_fmap, Hs.
Qed.

Lemma update_mirror_status_length cr now (table : list Status) :
  length (update_mirror_status cr now table) = length table.
Proof. unfold update_mirror_status. apply length_fmap. Qed.

Lemma repository_timestamp_not_ok net url code data :
  net (url +:+ "/repodata/repomd.xml") = HTTPResponse code data →
  code ≠ 200 →
  repository_timestamp net url = (0, code).
Proof.
  intros Hnet Hcode. unfold repository_timestamp. rewrite Hnet.
  destruct (Z.eqb_spec code 200) as [->|_]; [done|reflexivity].
Qed.

(** C1, as the code has it: a probe of a repository (not an ISO tree)
    answered with HTTP 404 yields the result (0, 404), and the update
    overwrites all three fields of the row of that pair: result 404,
    timestamp 0, checked the time of the update.  Every other row is
    left as it was. *)
Theorem probe_404_row net now task data (table : list Status) :
  Iso task = false →
  Valid task = true →
  net (URL task +:+ "/repodata/repomd.xml") = HTTPResponse 404 data →
  ∃ cr,
    execute_test net now task = Some cr
    ∧ length (update_mirror_status cr now table) = length table
    ∧ ∀ i s, table !! i = Some s →
        update_mirror_status cr now table !! i =
          Some (if decide (st_mirror_id s = MirrorID task
                           ∧ st_repo_id s = RepoID task)
                then {| st_mirror_id := st_mirror_id s;
                        st_repo_id := st_repo_id s;
                        timestamp := Some 0;
                        checked := now;
                        result := Some 404 |}
                else s).
Proof.
  intros Hiso Hvalid Hnet.
  eexists. split; [|split].
  - unfold execute_test. rewrite Hvalid, Hiso. simpl.
    rewrite (repository_timestamp_not_ok _ _ _ _ Hnet) by done.
    reflexivity.
  - apply update_mirror_status_length.
  - intros i s Hs. by rewrite (update_mirror_status_lookup _ _ _ _ _ Hs).
Qed.

Lemma probe_404_row_witness :
  ∃ cr,
    execute_test Sample.net404 2000 Sample.task = Some cr
    ∧ update_mirror_status cr 2000 (status Sample.db) !! 0%nat =
        Some {| st_mirror_id := 1; st_repo_id := 1; timestamp := Some 0;
                checked := 2000; result := Some 404 |}.
Proof.
  destruct (probe_404_row Sample.net404 2000 Sample.task ""
              (status Sample.db) eq_refl eq_refl eq_refl)
    as (cr & Hcr & _ & Hrow).
  exists cr. split; [exact Hcr|].
  exact (Hrow 0%nat (Sample.row 1 1 1600000000 500) eq_refl).
Defined.

(** C1, as stated, fails: the row of mirror 1 and repository 1 had
    timestamp 1600000000 from its last successful check; after the 404
    it has timestamp 0. *)
Lemma probe_404_loses_timestamp :
  ¬ Stated.keeps_timestamp Sample.net404 2000 Sample.task (status Sample.db).
Proof.
  intros H.
  destruct (H _ 0%nat _ eq_refl eq_refl eq_refl eq_refl) as (s' & Hs' & _ & Hts).
  vm_compute in Hs'. injection Hs' as <-. discriminate Hts.
Qed.

(** *** The timestamp pattern *)

Lemma span_digits_app (s : string) :
  (span_digits s).1 +:+ (span_digits s).2 = s.
Proof.
  induction s as [|c s IH]; [done|]. simpl.
  destruct (is_digit c); [|done].
  destruct (span_digits s) as [d r]. simpl in *. by rewrite <- IH.
Qed.

Lemma strip_prefix_app (p s r : string) :
  strip_prefix p s = Some r → s = p +:+ r.
Proof.
  revert s. induction p as [|a p IH]; intros s; simpl.
  - by intros [= ->].
  - destruct s as [|b s]; [done|].
    destruct (Ascii.eqb_spec a b) as [->|]; [|done].
    intros H. by rewrite (IH _ H).
Qed.

(** What a match of the pattern at the head of [s] means: [s] begins
    with the opening tag, the captured digits and the closing tag. *)
Lemma tsregex_at_sound (s d : string) :
  tsregex_at s = Some d →
  d ≠ "" ∧ ∃ rest, s = "<timestamp>" +:+ d +:+ "</timestamp>" +:+ rest.
Proof.
  unfold tsregex_at.
  destruct (strip_prefix "<timestamp>" s) as [r|] eqn:Hr; [|done].
  pose proof (span_digits_app r) as Happ.
  destruct (span_digits r) as [d' r'] eqn:Hd. simpl in Happ.
  destruct d' as [|c d']; [done|].
  unfold has_prefix.
  destruct (strip_prefix "</timestamp>" r') as [rest|] eqn:Hrest; [|done].
  intros [= <-]. split; [done|]. exists rest.
  apply strip_prefix_app in Hr, Hrest. subst r'. subst s.
  by rewrite <- Happ.
Qed.

Lemma strip_prefix_here (p r : string) : strip_prefix p (p +:+ r) = Some r.
Proof.
  induction p as [|a p IH]; [done|].
  change (String a p +:+ r) with (String a (p +:+ r)). simpl.
  by rewrite Ascii.eqb_refl.
Qed.

Lemma span_digits_run (d r : string) :
  all_digits d = true →
  match r with String c _ => is_digit c = false | EmptyString => True end →
  span_digits (d +:+ r) = (d, r).
Proof.
  intros Hd Hr. induction d as [|c d IH].
  - destruct r as [|c r]; [done|]. change ("" +:+ String c r) with (String c r).
    simpl. by rewrite Hr.
  - simpl in Hd. apply andb_true_iff in Hd as [Hc Hd].
    change (String c d +:+ r) with (String c (d +:+ r)). simpl.
    by rewrite Hc, (IH Hd).
Qed.

(** And conversely: where the text begins with the opening tag, one or
    more digits and the closing tag, the pattern matches and captures
    those digits. *)
Lemma tsregex_at_complete (d rest : string) :
  d ≠ "" → all_digits d = true →
  tsregex_at ("<timestamp>" +:+ d +:+ "</timestamp>" +:+ rest) = Some d.
Proof.
  intros Hne Hd. unfold tsregex_at.
  rewrite strip_prefix_here, span_digits_run; [|done|done].
  destruct d as [|c d]; [done|].
  unfold has_prefix. by rewrite strip_prefix_here.
Qed.

(** The three outcomes of [repository_timestamp] on HTTP 200. *)
Lemma repository_timestamp_ok net url data :
  net (url +:+ "/repodata/repomd.xml") = HTTPResponse 200 data →
  repository_timestamp net url =
    match tsregex_FindStringSubmatch data with
    | [_; digits] =>
        match ParseInt digits with
        | Some t => (t, 200)
        | None => (0, 200)
        end
    | _ => (0, -4)
    end.
Proof.
  intros Hnet. unfold repository_timestamp. rewrite Hnet. simpl.
  destruct (tsregex_FindStringSubmatch data) as [|w [|d [|x l]]]; done.
Qed.

Lemma FindStringSubmatch_length (s : string) :
  tsregex_FindStringSubmatch s = []
  ∨ ∃ d, tsregex_FindStringSubmatch s
         = ["<timestamp>" +:+ d +:+ "</timestamp>"; d].
Proof.
  induction s as [|c s IH]; simpl.
  - destruct (tsregex_at ""); eauto.
  - destruct (tsregex_at (String c s)); eauto.
Qed.

(** C3, at the failing input: the answer is HTTP 200 and the first
    timestamp tag holds 2^63, which does not fit an int64.
    [strconv.ParseInt] fails, and the probe reports (0, 200): outcome
    200, not the parse failure -4 of the design document. *)
Theorem overflowing_timestamp_reported_200 :
  ParseInt "9223372036854775808" = None
  ∧ tsregex_FindStringSubmatch Sample.repomd_overflow
    = ["<timestamp>9223372036854775808</timestamp>"; "9223372036854775808"]
  ∧ repository_timestamp Sample.net_overflow (URL Sample.task) = (0, 200)
  ∧ execute_test Sample.net_overflow 2000 Sample.task
    = Some {| cr_MirrorID := 1; cr_RepoID := 1; cr_Timestamp := 0;
              cr_Result := 200 |}
  ∧ ¬ Stated.classifies_200 Sample.repomd_overflow
        (repository_timestamp Sample.net_overflow (URL Sample.task)).
Proof.
  split; [reflexivity|]. split; [reflexivity|].
  split; [reflexivity|]. split; [reflexivity|].
  vm_compute. discriminate.
Qed.

(** The other two cases of C3 hold: a first tag that parses gives
    (value, 200); no tag gives (0, -4). *)
Lemma parsed_or_missing_timestamp net url data :
  net (url +:+ "/repodata/repomd.xml") = HTTPResponse 200 data →
  (∀ whole digits t,
     tsregex_FindStringSubmatch data = [whole; digits] →
     ParseInt digits = Some t →
     repository_timestamp net url = (t, 200))
  ∧ (tsregex_FindStringSubmatch data = [] →
     repository_timestamp net url = (0, -4)).
Proof.
  intros Hnet. rewrite (repository_timestamp_ok _ _ _ Hnet).
  split.
  - intros w d t -> ->. done.
  - intros ->. done.
Qed.

(** *** The committer *)

(** Once the committer is at the receive of its range loop, every
    schedule leaves it there: it handles results as they arrive and
    waits on the empty channel, since nothing closes the channel. *)
Lemma receive_forever evs : ∀ s,
  pc s = AtReceive →
  closed (resultchan s) = false →
  pc (run evs s) = AtReceive
  ∧ closed (resultchan (run evs s)) = false
  ∧ committed (run evs s) = committed s
  ∧ begun (run evs s) = begun s.
Proof.
  induction evs as [|e evs IH]; intros s Hpc Hcl; [done|].
  simpl. destruct e as [now|r]; simpl.
  - unfold committer_step. rewrite Hpc.
    destruct (buf (resultchan s)) as [|r rest].
    + rewrite Hcl. simpl. by apply IH.
    + simpl.
      match goal with
      | |- context [run evs ?s'] =>
          destruct (IH s' eq_refl Hcl) as (?&?&?&?)
      end.
      done.
  - unfold send. case_decide; simpl; [|by apply IH].
    match goal with
    | |- context [run evs ?s'] =>
        destruct (IH s' Hpc Hcl) as (?&?&?&?)
    end.
    done.
Qed.

Lemma blocked_on_empty now s :
  pc s = AtReceive →
  closed (resultchan s) = false →
  buf (resultchan s) = [] →
  committer_step now s = None.
Proof.
  intros Hpc Hcl Hbuf. unfold committer_step. by rewrite Hpc, Hbuf, Hcl.
Qed.

(** C2, on the code: when the committer finds the queue at least half
    full it enters the range loop over the result channel, and from
    then on, whatever the schedule of its own steps and of arriving
    results, it is at the receive of that loop: it never commits and
    never comes back to its sleep.  So the drain is not bounded. *)
Theorem drain_never_commits (s : Committer) :
  pc s = AtCheck →
  closed (resultchan s) = false →
  (cap (resultchan s) `div` 2 ≤ length (buf (resultchan s)))%nat →
  (∀ now evs,
     pc (run (Commit_step now :: evs) s) = AtReceive
     ∧ committed (run (Commit_step now :: evs) s) = committed s)
  ∧ ¬ Stated.drain_bounded s.
Proof.
  intros Hpc Hcl Hhalf.
  assert (∀ now evs,
    pc (run (Commit_step now :: evs) s) = AtReceive
    ∧ committed (run (Commit_step now :: evs) s) = committed s) as Hrun.
  { intros now evs. simpl. unfold committer_step. rewrite Hpc.
    rewrite decide_True by done. simpl.
    by destruct (receive_forever evs
      {| resultchan := resultchan s; table := table s; pc := AtReceive;
         begun := S (begun s); committed := committed s |} eq_refl Hcl)
      as (?&?&?&?). }
  split; [exact Hrun|].
  intros [n [Hc Hs]]. destruct n as [|n].
  - simpl in Hc. lia.
  - change (replicate (S n) (Commit_step 0))
      with (Commit_step 0 :: replicate n (Commit_step 0)) in Hc.
    destruct (Hrun 0 (replicate n (Commit_step 0))) as [_ Hc']. lia.
Qed.

Lemma drain_never_commits_witness :
  (∀ now evs,
     pc (run (Commit_step now :: evs) Sample.half_full) = AtReceive
     ∧ committed (run (Commit_step now :: evs) Sample.half_full) = 0%nat)
  ∧ ¬ Stated.drain_bounded Sample.half_full.
Proof.
  apply (drain_never_commits Sample.half_full); [reflexivity | reflexivity |].
  vm_compute. lia.
Defined.

(** With no further arrivals, eleven steps of the committer handle the
    ten queued results; then it is blocked with an open transaction. *)
Example half_full_drained :
  let s := run (replicate 11 (Commit_step 2000)) Sample.half_full in
  buf (resultchan s) = [] ∧ pc s = AtReceive
  ∧ begun s = 1%nat ∧ committed s = 0%nat
  ∧ committer_step 2001 s = None.
Proof. vm_compute. done. Qed.

(** *** The scheduler *)

#[local] Instance checked_le_total : Total checked_le.
Proof. intros a b. unfold checked_le. lia. Qed.

#[local] Instance checked_le_trans : Transitive checked_le.
Proof. intros a b c. unfold checked_le. lia. Qed.

Lemma elem_of_status_join db (row : Status * Mirror * Repo) :
  row ∈ status_join db ↔
    row.1.1 ∈ status db
    ∧ row.1.2 ∈ mirrors db ∧ mirror_id row.1.2 = st_mirror_id row.1.1
    ∧ row.2 ∈ repos db ∧ repo_id row.2 = st_repo_id row.1.1.
Proof.
  destruct row as [[s m] r]. unfold status_join. simpl.
  rewrite list_elem_of_bind. split.
  - intros (s' & Hin & Hs'). apply list_elem_of_bind in Hin as (m' & Hin & Hm').
    apply list_elem_of_bind in Hin as (r' & Hin & Hr').
    apply list_elem_of_singleton in Hin as [= -> -> ->].
    apply list_elem_of_filter in Hm' as [? ?].
    apply list_elem_of_filter in Hr' as [? ?]. done.
  - intros (Hs & Hm & Hmid & Hr & Hrid).
    exists s. split; [|done].
    apply list_elem_of_bind. exists m. split; [|by apply list_elem_of_filter].
    apply list_elem_of_bind. exists r. split; [|by apply list_elem_of_filter].
    by apply list_elem_of_singleton.
Qed.

Lemma task_of_ids (row : Status * Mirror * Repo) :
  mirror_id row.1.2 = st_mirror_id row.1.1 →
  MirrorID (task_of (scan row)) = st_mirror_id row.1.1
  ∧ RepoID (task_of (scan row)) = st_repo_id row.1.1
  ∧ Valid (task_of (scan row)) = true.
Proof.
  destruct row as [[s m] r]. simpl. intros Hid.
  unfold task_of. simpl. by destruct (0 <? Bool_to_int (is_altarch r)).
Qed.



Example scheduler_tick_sample :
  buf (scheduler_tick Sample.db 7200 10000 61
         {| buf := []; cap := 2; closed := false |})
  = [ {| MirrorID := 1; RepoID := 2;
         URL := "http://a.example/centos/9-stream/BaseOS/x86_64";
         Iso := false; AltArch := false; Valid := true |};
      {| MirrorID := 4; RepoID := 1;
         URL := "http://d.example/pub/centos//8.3.2011/BaseOS/x86_64/os";
         Iso := false; AltArch := false; Valid := true |} ].
Proof. vm_compute. reflexivity. Qed.

End UpdaterFacts.


(** ** The selection front end: the handler and the cache *)

Module HandlerFacts.
Import GoString Lib Mirrorlist.

Lemma Peek_absent (args : list (string * string)) key :
  (∀ v, (key, v) ∉ args) → Peek args key = "".
Proof.
  induction args as [|[k v] args IH]; intros Habs; [done|]. simpl.
  case_decide as Hk.
  - subst k. exfalso. apply (Habs v). by left.
  - apply IH. intros v' Hin. apply (Habs v'). by right.
Qed.

(** C9: a request in which arch, release or repo is missing (absent or
    given empty: [Peek] returns the empty string) is answered with
    status 400 and the body "<key> not specified" and a newline, where
    <key> is the first missing one in the order arch, release, repo; the
    cache is not touched.  A request that lacks repo alone gets "repo
    not specified". *)
Theorem missing_parameter_400 env cfg db now elapsed rnd req rescache :
  let args := QueryArgs req in
  Peek args "arch" = "" ∨ Peek args "release" = "" ∨ Peek args "repo" = "" →
  ∃ before key after,
    ["arch"; "release"; "repo"] = before ++ key :: after
    ∧ Forall (λ k, Peek args k ≠ "") before
    ∧ Peek args key = ""
    ∧ http_handler_root env cfg db now elapsed rnd req rescache
      = ({| StatusCode := 400; Header := headers cfg;
            Body := key +:+ " not specified" +:+ nl |}, rescache)
    ∧ (Peek args "arch" ≠ "" → Peek args "release" ≠ "" → key = "repo").
Proof.
  intros args Hmiss. unfold http_handler_root. fold args. simpl.
  destruct (decide (Peek args "arch" = "")) as [Ha|Ha].
  { exists [], "arch", ["release"; "repo"]. repeat split; done. }
  destruct (decide (Peek args "release" = "")) as [Hr|Hr].
  { exists ["arch"], "release", ["repo"].
    repeat split; try done. by constructor. }
  destruct (decide (Peek args "repo" = "")) as [Hp|Hp].
  { exists ["arch"; "release"], "repo", [].
    repeat split; try done. by repeat constructor. }
  destruct Hmiss as [?|[?|?]]; done.
Qed.

Lemma missing_parameter_400_witness :
  ∃ before key after,
    ["arch"; "release"; "repo"] = before ++ key :: after
    ∧ Forall (λ k, Peek [("arch", "x86_64"); ("release", "8")] k ≠ "") before
    ∧ Peek [("arch", "x86_64"); ("release", "8")] key = ""
    ∧ http_handler_root Sample.env (Sample.cfg 3 true) Sample.db 1000 "1ms"
        Sample.rnd (Sample.request [("arch", "x86_64"); ("release", "8")])
        NewCache
      = ({| StatusCode := 400; Header := ∅;
            Body := key +:+ " not specified" +:+ nl |}, NewCache)
    ∧ (Peek [("arch", "x86_64"); ("release", "8")] "arch" ≠ "" →
       Peek [("arch", "x86_64"); ("release", "8")] "release" ≠ "" →
       key = "repo").
Proof.
  apply (missing_parameter_400 Sample.env (Sample.cfg 3 true) Sample.db 1000
           "1ms" Sample.rnd
           (Sample.request [("arch", "x86_64"); ("release", "8")]) NewCache).
  right. right. reflexivity.
Defined.

Example missing_repo_body :
  Body (http_handler_root Sample.env (Sample.cfg 3 true) Sample.db 1000 "1ms"
          Sample.rnd (Sample.request [("arch", "x86_64"); ("release", "8")])
          NewCache).1
  = "repo not specified" +:+ nl.
Proof. reflexivity. Qed.

(** C10: the cache key is the concatenation of repoid, ipversion,
    continent, country and region without separators, and two
    different tuples have one key: country US without region, and
    region US without country.  A client at the second location is
    served from the cache the body that was rendered for a client at
    the first, which is not the body the handler renders for it. *)
Theorem cachekey_collision :
  (∀ repoid ipversion loc,
     cachekey repoid ipversion loc
     = pretty repoid +:+ ipversion +:+ Continent loc +:+ Country loc
       +:+ Region loc)
  ∧ (1, "4", Sample.loc_country_US) ≠ (1, "4", Sample.loc_region_US)
  ∧ cachekey 1 "4" Sample.loc_country_US = cachekey 1 "4" Sample.loc_region_US
  ∧ get_ip_location Sample.env2 (client_address (Sample.from "198.51.100.1"))
    = Sample.loc_country_US
  ∧ get_ip_location Sample.env2 (client_address (Sample.from "203.0.113.9"))
    = Sample.loc_region_US
  ∧ let handle := http_handler_root Sample.env2 (Sample.cfg 1 true)
                    Sample.db2 1000 "1ms" Sample.rnd in
    let first := handle (Sample.from "198.51.100.1") NewCache in
    let second := handle (Sample.from "203.0.113.9") first.2 in
    let alone := handle (Sample.from "203.0.113.9") NewCache in
    Body first.1 = "http://us.example/centos/8.3.2011/BaseOS/x86_64/os/" +:+ nl
    ∧ Header first.1 !! "X-Cache-Hit" = Some "false"
    ∧ Body second.1 = Body first.1
    ∧ Header second.1 !! "X-Cache-Hit" = Some "true"
    ∧ Body alone.1
      = "http://other.example/centos/8.3.2011/BaseOS/x86_64/os/" +:+ nl.
Proof.
  split; [reflexivity|]. split; [discriminate|].
  split; [reflexivity|]. split; [reflexivity|]. split; [reflexivity|].
  vm_compute. done.
Qed.

(** *** The paths through the handler *)

Lemma length_pos_ne (s : string) :
  (0 <? Z.of_nat (String.length s)) = bool_decide (s ≠ "").
Proof. by destruct s. Qed.

(** The five ways the handler ends: a parameter is missing; no
    repository matches; the cache answers; no mirror carries the
    repository; a body is rendered. *)
Lemma handler_cases env cfg db now elapsed rnd req c :
  let h := http_handler_root env cfg db now elapsed rnd req c in
  let repoid := (Stated.request_repo db req).1.1 in
  let key := Stated.request_key env db req in
  let lk := Stated.looked_up env cfg db now req c in
  (∃ k, first_missing (QueryArgs req) ["arch"; "release"; "repo"] = Some k
        ∧ StatusCode h.1 = 400 ∧ h.2 = c)
  ∨ (first_missing (QueryArgs req) ["arch"; "release"; "repo"] = None
     ∧ repoid <= 0 ∧ StatusCode h.1 = 404 ∧ h.2 = c)
  ∨ (first_missing (QueryArgs req) ["arch"; "release"; "repo"] = None
     ∧ 0 < repoid
     ∧ ∃ body, lk.1 = Some body
        ∧ StatusCode h.1 = 200 ∧ Body h.1 = body ∧ h.2 = lk.2)
  ∨ (first_missing (QueryArgs req) ["arch"; "release"; "repo"] = None
     ∧ 0 < repoid ∧ lk.1 = None
     ∧ mirrors_with_repo db rnd repoid = []
     ∧ StatusCode h.1 = 404 ∧ Body h.1 = "" ∧ h.2 = lk.2)
  ∨ (first_missing (QueryArgs req) ["arch"; "release"; "repo"] = None
     ∧ 0 < repoid ∧ lk.1 = None
     ∧ mirrors_with_repo db rnd repoid ≠ []
     ∧ StatusCode h.1 = 200
     ∧ h.2 = (if caching cfg && bool_decide (Body h.1 ≠ "")
              then cache_Set now key (Body h.1) 3600 lk.2
              else lk.2)
     ∧ Body h.1
       = full_mirror_urls db
           (pick_mirrors cfg db
              (λ i, rnd (length (mirrors_with_repo db rnd repoid) + i)%nat)
              (get_ip_location env (client_address req))
              (IPversion env (client_address req))
              (mirrors_with_repo db rnd repoid))
           (Stated.request_repo db req).1.2
           (Peek (QueryArgs req) "repo") (Peek (QueryArgs req) "arch")
           (Stated.request_repo db req).2).
Proof.
  intros h repoid key lk.
  unfold h, lk, Stated.looked_up, key, Stated.request_key, repoid,
    Stated.request_repo, http_handler_root.
  destruct (first_missing (QueryArgs req) ["arch"; "release"; "repo"])
    as [k|] eqn:Hmiss.
  { left. by exists k. }
  right.
  destruct (get_repo_id db _ _ _) as [[rid rpath] ralt]. cbv zeta. simpl fst.
  destruct (Z.leb_spec rid 0) as [Hle|Hlt].
  { left. done. }
  right.
  destruct (caching cfg) eqn:Hcaching.
  - destruct (cache_Get now _ c) as [[body|] c1] eqn:Hget.
    + left. split; [done|]. split; [done|]. by exists body.
    + right. simpl fst. simpl snd.
      destruct (decide (length (mirrors_with_repo db rnd rid) = 0%nat))
        as [Hnil|Hnil].
      * left. apply length_zero_iff_nil in Hnil. done.
      * right. rewrite length_pos_ne.
        assert (mirrors_with_repo db rnd rid ≠ [])
          by (intros E; by rewrite E in Hnil).
        split; [done|]. split; [done|]. split; [done|]. split; [done|].
        set (response := full_mirror_urls _ _ _ _ _ _).
        destruct (bool_decide (response ≠ "")) eqn:Hb;
          cbn [fst snd StatusCode Body Write SetHeader andb];
          change ("" +:+ response) with response;
          by rewrite Hb.
  - right. simpl fst. simpl snd.
    destruct (decide (length (mirrors_with_repo db rnd rid) = 0%nat))
      as [Hnil|Hnil].
    + left. apply length_zero_iff_nil in Hnil. done.
    + right. assert (mirrors_with_repo db rnd rid ≠ [])
        by (intros E; by rewrite E in Hnil).
      done.
Qed.

Lemma cache_Get_entries now key c k x :
  entries (cache_Get now key c).2 !! k = Some x → entries c !! k = Some x.
Proof.
  unfold cache_Get. destruct (entries c !! key) as [[v e]|] eqn:Hk; [|done].
  destruct (negb (e =? 0) && (e <=? now)); simpl; [|done].
  intros H. apply lookup_delete_Some in H. tauto.
Qed.

Lemma cache_Get_miss now key c :
  (cache_Get now key c).1 = None →
  entries (cache_Get now key c).2 !! key = None.
Proof.
  unfold cache_Get. destruct (entries c !! key) as [[v e]|] eqn:Hk; [|done].
  destruct (negb (e =? 0) && (e <=? now)); simpl; [|done].
  intros _. apply lookup_delete_eq.
Qed.

Lemma cache_Get_lookups now key c :
  LookupCount (cache_Get now key c).2 = LookupCount c + 1.
Proof.
  unfold cache_Get, LookupCount.
  destruct (entries c !! key) as [[v e]|]; [|simpl; lia].
  destruct (negb (e =? 0) && (e <=? now)); simpl; lia.
Qed.

Lemma cache_Get_live now key c body :
  (cache_Get now key c).1 = Some body →
  ∃ e, entries c !! key = Some (body, e) ∧ (e = 0 ∨ now < e)
       ∧ HitCount (cache_Get now key c).2 = HitCount c + 1.
Proof.
  unfold cache_Get. destruct (entries c !! key) as [[v e]|] eqn:Hk; [|done].
  destruct (Z.eqb_spec e 0) as [->|Hne]; simpl.
  - intros [= ->]. eauto.
  - destruct (Z.leb_spec e now); simpl; [done|].
    intros [= ->]. exists e. eauto.
Qed.

(** An enabled mirror carries the repository exactly when the query of
    [mirrors_with_repo] returns something. *)
Lemma mirrors_with_repo_nil db rnd repoid :
  mirrors_with_repo db rnd repoid = [] ↔
  ∀ s m, s ∈ status db → m ∈ mirrors db →
         mirror_id m = st_mirror_id s → st_repo_id s = repoid →
         enabled m = false.
Proof.
  unfold mirrors_with_repo.
  set (rows := status db ≫= _).
  assert (rows = [] ↔
    ∀ s m, s ∈ status db → m ∈ mirrors db →
           mirror_id m = st_mirror_id s → st_repo_id s = repoid →
           enabled m = false) as <-.
  { split.
    - intros Hnil s m Hs Hm Hid Hrepo.
      destruct (enabled m) eqn:Hen; [|done]. exfalso.
      assert (s ∈ rows) as Hin; [|rewrite Hnil in Hin; by apply elem_of_nil in Hin].
      apply list_elem_of_bind. exists s. split; [|done].
      apply list_elem_of_bind. exists m.
      split; [|by apply list_elem_of_filter].
      rewrite decide_True; [by left|]. rewrite Hen. done.
    - intros Hall. apply elem_of_nil_inv. intros x Hx.
      apply list_elem_of_bind in Hx as (s & Hx & Hs).
      apply list_elem_of_bind in Hx as (m & Hx & Hm).
      apply list_elem_of_filter in Hm as [Hid Hm].
      case_decide as Hc; [|by apply elem_of_nil in Hx].
      destruct Hc as [Hrepo Hen].
      rewrite (Hall s m Hs Hm Hid Hrepo) in Hen. simpl in Hen. lia. }
  split.
  - intros Hnil. apply fmap_nil_inv in Hnil.
    pose proof (merge_sort_Permutation fresher (with_rand rnd 0 rows)) as Hp.
    rewrite Hnil in Hp. symmetry in Hp. apply Permutation_nil_r in Hp.
    unfold with_rand in Hp. apply (f_equal length) in Hp.
    rewrite length_imap in Hp. by destruct rows.
  - intros ->. reflexivity.
Qed.

(** The handler passes the path of the repository where
    [full_mirror_urls] expects the release. *)
Lemma handler_renders_path env cfg db now elapsed rnd req c :
  first_missing (QueryArgs req) ["arch"; "release"; "repo"] = None →
  0 < (Stated.request_repo db req).1.1 →
  (Stated.looked_up env cfg db now req c).1 = None →
  mirrors_with_repo db rnd (Stated.request_repo db req).1.1 ≠ [] →
  ∃ mirrors_,
    Body (http_handler_root env cfg db now elapsed rnd req c).1
    = full_mirror_urls db mirrors_ (Stated.request_repo db req).1.2
        (Peek (QueryArgs req) "repo") (Peek (QueryArgs req) "arch")
        (Stated.request_repo db req).2.
Proof.
  intros Hmiss Hrepo Hlk Hne.
  pose proof (handler_cases env cfg db now elapsed rnd req c) as Hcases.
  cbv zeta in Hcases.
  destruct Hcases as [(k & Hk & _)|[(_ & Hle & _)|[Hhit|[Hno|Hr]]]].
  - congruence.
  - lia.
  - destruct Hhit as (_ & _ & body & Hb & _). congruence.
  - destruct Hno as (_ & _ & _ & Hnil & _). done.
  - destruct Hr as (_ & _ & _ & _ & _ & _ & Hbody). eauto.
Qed.

Lemma ipv_column_IPversion env ip :
  ∃ ipv, ipv_column (IPversion env ip) = Some ipv.
Proof. unfold IPversion. destruct (To4 env ip); eauto. Qed.

(** C4, as the code has it: a request whose repository resolves and
    has no enabled mirror.  With caching off the answer is 404 with an
    empty body and the cache is not touched.  With caching on the cache
    is consulted first, so one lookup is counted; a miss is followed by
    404 with an empty body, a live entry is sent with status 200. *)
Theorem no_mirrors_response env cfg db now elapsed rnd req c :
  first_missing (QueryArgs req) ["arch"; "release"; "repo"] = None →
  0 < (Stated.request_repo db req).1.1 →
  mirrors_with_repo db rnd (Stated.request_repo db req).1.1 = [] →
  let h := http_handler_root env cfg db now elapsed rnd req c in
  let got := cache_Get now (Stated.request_key env db req) c in
  if caching cfg then
    h.2 = got.2
    ∧ LookupCount h.2 = LookupCount c + 1
    ∧ match got.1 with
      | Some body => StatusCode h.1 = 200 ∧ Body h.1 = body
      | None => StatusCode h.1 = 404 ∧ Body h.1 = ""
      end
  else h.2 = c ∧ StatusCode h.1 = 404 ∧ Body h.1 = "".
Proof.
  intros Hmiss Hrepo Hnone.
  pose proof (handler_cases env cfg db now elapsed rnd req c) as Hcases.
  cbv zeta in *. unfold Stated.looked_up in Hcases.
  set (h := http_handler_root env cfg db now elapsed rnd req c) in *.
  set (got := cache_Get now (Stated.request_key env db req) c) in *.
  destruct Hcases as [(k & Hk & _)|[(_ & Hle & _)|[Hhit|[Hno|Hrender]]]].
  - congruence.
  - lia.
  - destruct Hhit as (_ & _ & body & Hlk & Hst & Hbody & Hc).
    destruct (caching cfg); [|done].
    rewrite Hlk, Hc.
    split; [done|]. split; [apply cache_Get_lookups|done].
  - destruct Hno as (_ & _ & Hlk & _ & Hst & Hbody & Hc).
    destruct (caching cfg); [|done].
    rewrite Hlk, Hc.
    split; [done|]. split; [apply cache_Get_lookups|done].
  - destruct Hrender as (_ & _ & _ & Hne & _). done.
Qed.

Lemma no_mirrors_response_witness :
  let h := http_handler_root Sample.env (Sample.cfg 3 true)
             Sample.db_no_mirrors 2000 "1ms" Sample.rnd
             (Sample.get_baseos "8") NewCache in
  h.2 = (cache_Get 2000 "14EUDEBY" NewCache).2
  ∧ LookupCount h.2 = 1
  ∧ StatusCode h.1 = 404 ∧ Body h.1 = "".
Proof.
  exact (no_mirrors_response Sample.env (Sample.cfg 3 true)
           Sample.db_no_mirrors 2000 "1ms" Sample.rnd
           (Sample.get_baseos "8") NewCache eq_refl eq_refl eq_refl).
Defined.

(** C4, as stated, fails: the client at 192.0.2.7 (given in the [ip]
    parameter) asks for repository 1, which resolves and which no
    mirror carries, but the cache still holds the body rendered for
    that client's key while mirrors existed; the handler looks the key
    up, counts a hit and sends that body with status 200. *)
Lemma stale_entry_served :
  let req := Sample.from "192.0.2.7" in
  let h := http_handler_root Sample.env (Sample.cfg 3 true)
             Sample.db_no_mirrors 2000 "1ms" Sample.rnd req
             Sample.stale_cache in
  client_address req = "192.0.2.7"
  ∧ first_missing (QueryArgs req) ["arch"; "release"; "repo"] = None
  ∧ (Stated.request_repo Sample.db_no_mirrors req).1.1 = 1
  ∧ mirrors_with_repo Sample.db_no_mirrors Sample.rnd 1 = []
  ∧ Stated.request_key Sample.env Sample.db_no_mirrors req = "14EUDEBY"
  ∧ StatusCode h.1 = 200
  ∧ Body h.1 = Sample.body_A8
  ∧ Header h.1 !! "X-Cache-Hit" = Some "true"
  ∧ LookupCount h.2 = LookupCount Sample.stale_cache + 1
  ∧ ¬ Stated.notfound_without_cache h.1 Sample.stale_cache h.2.
Proof.
  repeat split; try reflexivity.
  intros [Hst _]. vm_compute in Hst. discriminate Hst.
Qed.

(** What a request can leave in the cache: what was there, and the
    body it has just rendered, if that is not empty. *)
Lemma handler_cache_frame env cfg db now elapsed rnd req c :
  let h := http_handler_root env cfg db now elapsed rnd req c in
  ∀ k v e, entries h.2 !! k = Some (v, e) →
    entries c !! k = Some (v, e)
    ∨ (caching cfg = true ∧ k = Stated.request_key env db req
       ∧ v = Body h.1 ∧ v ≠ "" ∧ e = now + 3600).
Proof.
  pose proof (handler_cases env cfg db now elapsed rnd req c) as Hcases.
  cbv zeta in *. unfold Stated.looked_up in Hcases.
  set (h := http_handler_root env cfg db now elapsed rnd req c) in *.
  intros k v e Hk.
  assert (h.2 = (if caching cfg
                 then cache_Get now (Stated.request_key env db req) c
                 else (None, c)).2 →
          entries c !! k = Some (v, e)) as Hlooked.
  { intros Hc. rewrite Hc in Hk.
    destruct (caching cfg); [|done]. by apply cache_Get_entries in Hk. }
  destruct Hcases as [(k' & _ & _ & Hc)|[(_ & _ & _ & Hc)|[Hhit|[Hno|Hr]]]].
  - left. by rewrite Hc in Hk.
  - left. by rewrite Hc in Hk.
  - destruct Hhit as (_ & _ & body & _ & _ & _ & Hc). left. by apply Hlooked.
  - destruct Hno as (_ & _ & _ & _ & _ & _ & Hc). left. by apply Hlooked.
  - destruct Hr as (_ & _ & _ & _ & _ & Hc & _).
    destruct (caching cfg) eqn:Hcaching; simpl in Hc;
      [|left; by apply Hlooked].
    case_bool_decide as Hb; [|left; by apply Hlooked].
    rewrite Hc in Hk. simpl in Hk.
    apply lookup_insert_Some in Hk as [[<- [= <- <-]]|[_ Hk]].
    + right. done.
    + left. by apply cache_Get_entries in Hk.
Qed.

Lemma handler_keeps_no_empty_body env cfg db now elapsed rnd req c :
  Stated.no_empty_body c →
  Stated.no_empty_body (http_handler_root env cfg db now elapsed rnd req c).2.
Proof.
  intros Hinv k v e Hk.
  destruct (handler_cache_frame env cfg db now elapsed rnd req c k v e Hk)
    as [Hold|(_ & _ & _ & Hne & _)]; [|done].
  by apply (Hinv k v e).
Qed.

(** From an empty cache, no sequence of requests and cache clearings
    leaves an entry with an empty body. *)
Lemma serve_no_empty_body cfg evs : ∀ c,
  Stated.no_empty_body c → Stated.no_empty_body (serve cfg evs c).
Proof.
  induction evs as [|[env db now elapsed rnd req|] evs IH]; intros c Hinv.
  - done.
  - simpl. by apply IH, handler_keeps_no_empty_body.
  - simpl. apply IH. destruct (caching cfg); [|done].
    intros k v e Hk. unfold cache_Clear, NewCache in Hk. simpl in Hk.
    by rewrite lookup_empty in Hk.
Qed.

(** C7: with caching on, whatever the request, the handler leaves in
    the cache only what was there and, at most, the body it has just
    rendered, stored under the key of the request to expire 3600
    seconds later, and only when that body is not empty.  On the path
    that renders a body (parameters present, repository found, no live
    entry, some mirror) the key holds the body afterwards if and only if
    the body is not empty.  When no mirror carries the repository no
    entry appears.  So a cache without empty bodies stays so, and after
    any sequence of requests and clearings, starting from the new cache,
    no entry has an empty body. *)
Theorem cache_store_policy env cfg db now elapsed rnd req c :
  caching cfg = true →
  let h := http_handler_root env cfg db now elapsed rnd req c in
  let key := Stated.request_key env db req in
  let repoid := (Stated.request_repo db req).1.1 in
  (∀ k v e, entries h.2 !! k = Some (v, e) →
     entries c !! k = Some (v, e)
     ∨ (k = key ∧ v = Body h.1 ∧ v ≠ "" ∧ e = now + 3600))
  ∧ (first_missing (QueryArgs req) ["arch"; "release"; "repo"] = None →
     0 < repoid →
     (cache_Get now key c).1 = None →
     mirrors_with_repo db rnd repoid ≠ [] →
     entries h.2 !! key
     = if decide (Body h.1 = "") then None else Some (Body h.1, now + 3600))
  ∧ (mirrors_with_repo db rnd repoid = [] →
     ∀ k x, entries h.2 !! k = Some x → entries c !! k = Some x)
  ∧ (Stated.no_empty_body c → Stated.no_empty_body h.2)
  ∧ (∀ evs, Stated.no_empty_body (serve cfg evs NewCache)).
Proof.
  intros Hcaching.
  pose proof (handler_cases env cfg db now elapsed rnd req c) as Hcases.
  pose proof (handler_cache_frame env cfg db now elapsed rnd req c) as Hframe.
  cbv zeta in *. unfold Stated.looked_up in Hcases.
  rewrite Hcaching in Hcases.
  set (h := http_handler_root env cfg db now elapsed rnd req c) in *.
  set (key := Stated.request_key env db req) in *.
  set (repoid := (Stated.request_repo db req).1.1) in *.
  split; [|split; [|split; [|split]]].
  - intros k v e Hk. destruct (Hframe k v e Hk) as [?|(_ & ?)]; auto.
  - intros Hmiss Hrepo Hget Hne.
    destruct Hcases as [(k' & Hk' & _)|[(_ & Hle & _)|[Hhit|[Hno|Hr]]]].
    + congruence.
    + lia.
    + destruct Hhit as (_ & _ & body & Hb & _). congruence.
    + destruct Hno as (_ & _ & _ & Hnil & _). done.
    + destruct Hr as (_ & _ & _ & _ & _ & Hc & _). rewrite Hc. simpl.
      destruct (decide (Body h.1 = "")) as [He|He].
      * rewrite bool_decide_eq_false_2 by (by intros ?).
        by apply cache_Get_miss.
      * rewrite bool_decide_eq_true_2 by done. simpl. apply lookup_insert_eq.
  - intros Hnil k x Hk.
    destruct Hcases as [(k' & _ & _ & Hc)|[(_ & _ & _ & Hc)|[Hhit|[Hno|Hr]]]].
    + by rewrite Hc in Hk.
    + by rewrite Hc in Hk.
    + destruct Hhit as (_ & _ & body & _ & _ & _ & Hc). rewrite Hc in Hk.
      by apply cache_Get_entries in Hk.
    + destruct Hno as (_ & _ & _ & _ & _ & _ & Hc). rewrite Hc in Hk.
      by apply cache_Get_entries in Hk.
    + destruct Hr as (_ & _ & _ & Hne & _). done.
  - apply handler_keeps_no_empty_body.
  - intros evs. apply serve_no_empty_body.
    intros k v e Hk. simpl in Hk. by rewrite lookup_empty in Hk.
Qed.

Lemma cache_store_policy_witness :
  let h := http_handler_root Sample.env (Sample.cfg 3 true) Sample.db 1000
             "1ms" Sample.rnd (Sample.get_baseos "8") NewCache in
  Stated.no_empty_body h.2
  ∧ entries h.2 !! "14EUDEBY" = Some (Body h.1, 4600).
Proof.
  destruct (cache_store_policy Sample.env (Sample.cfg 3 true) Sample.db 1000
              "1ms" Sample.rnd (Sample.get_baseos "8") NewCache eq_refl)
    as (_ & Hstored & _ & Hinv & _).
  split.
  - apply Hinv. intros k v e Hk. vm_compute in Hk. discriminate Hk.
  - apply (Hstored eq_refl eq_refl eq_refl). vm_compute. discriminate.
Defined.

(** A release directory that begins with neither 7 nor 8 renders an
    empty body, which is sent with status 200 and not stored. *)
Example empty_body_not_stored :
  let h := http_handler_root Sample.env (Sample.cfg 3 true) Sample.db 1000
             "1ms" Sample.rnd (Sample.get_baseos "9") NewCache in
  StatusCode h.1 = 200 ∧ Body h.1 = "" ∧ entries h.2 = ∅.
Proof. vm_compute. done. Qed.

End HandlerFacts.


(** ** The selection front end: rendering and narrowing *)

Module SelectionFacts.
Import GoString Lib Mirrorlist.

(** *** Strings *)

Lemma app_cons c (s t : string) : String c s +:+ t = String c (s +:+ t).
Proof. reflexivity. Qed.


Lemma app_nil_r (s : string) : s +:+ "" = s.
Proof. induction s as [|c s IH]; [done|]. by rewrite app_cons, IH. Qed.

Lemma app_assoc (a b c : string) : (a +:+ b) +:+ c = a +:+ (b +:+ c).
Proof. induction a as [|x a IH]; [done|]. by rewrite !app_cons, IH. Qed.






(** *** The slash scanner *)






(** *** Rendering *)






Example full_mirror_urls_sample :
  full_mirror_urls Sample.db [3; 1; 3] "8.3.2011" "BaseOS" "x86_64" false
  = "http://a.example/centos/8.3.2011/BaseOS/x86_64/os/" +:+ nl +:+
    "http://c.example/pub/centos/8.3.2011/BaseOS/x86_64/os/" +:+ nl.
Proof. reflexivity. Qed.


(** *** Narrowing *)

#[local] Instance prio_rand_le_total : Total prio_rand_le.
Proof. intros [[a p] r] [[b q] r']. unfold prio_rand_le. simpl. lia. Qed.

#[local] Instance prio_rand_le_trans : Transitive prio_rand_le.
Proof.
  intros [[a p] r] [[b q] r'] [[c s] r'']. unfold prio_rand_le. simpl. lia.
Qed.

Lemma tier1_tier2 loc ipv m : tier1 loc ipv m → tier2 loc ipv m.
Proof. unfold tier1, tier2. tauto. Qed.

Lemma tier2_tier3 loc ipv m : tier2 loc ipv m → tier3 loc ipv m.
Proof. unfold tier2, tier3. tauto. Qed.

Lemma elem_of_tagged prio rnd off ms (row : prio_row) :
  row ∈ tagged prio rnd off ms ↔
  ∃ i m, ms !! i = Some m ∧ row = (mirror_id m, prio, rnd (off + i)%nat).
Proof.
  unfold tagged, with_rand. rewrite list_elem_of_fmap. split.
  - intros ([m r] & -> & Hin).
    apply elem_of_lookup_imap in Hin as (i & m' & [= -> ->] & Hi). eauto.
  - intros (i & m & Hi & ->). exists (m, rnd (off + i)%nat).
    split; [done|]. apply elem_of_lookup_imap. eauto.
Qed.

(** Every row of the compound query belongs to a candidate that
    matches the tier of the row's tag. *)
Lemma nearby_rows_inv db rnd loc ipv ms (row : prio_row) :
  row ∈ nearby_rows db rnd loc ipv ms →
  ∃ m, m ∈ mirrors db ∧ mirror_id m ∈ ms ∧ row.1.1 = mirror_id m
       ∧ tier3 loc ipv m
       ∧ (row.1.2 = 3 ∨ row.1.2 = 2 ∨ (row.1.2 = 1 ∧ tier1 loc ipv m)).
Proof.
  unfold nearby_rows. rewrite elem_of_remove_dups, !elem_of_app.
  rewrite !elem_of_tagged.
  intros [H|[H|H]]; destruct H as (i & m & Hi & ->);
    apply list_elem_of_lookup_2 in Hi;
    apply list_elem_of_filter in Hi as [Ht Hi];
    apply list_elem_of_filter in Hi as [Hid Hm];
    exists m; simpl.
  - auto 10.
  - auto 10 using tier2_tier3.
  - auto 10 using tier2_tier3, tier1_tier2.
Qed.

(** Every candidate that matches tier 1 has a row tagged 1. *)
Lemma tier1_row db rnd loc ipv ms m :
  m ∈ mirrors db → mirror_id m ∈ ms → tier1 loc ipv m →
  ∃ r, (mirror_id m, 1, r) ∈ nearby_rows db rnd loc ipv ms.
Proof.
  intros Hm Hid Ht. unfold nearby_rows.
  set (eligible := filter (λ m, mirror_id m ∈ ms) (mirrors db)).
  assert (m ∈ filter (tier1 loc ipv) eligible) as Hin.
  { apply list_elem_of_filter. split; [done|]. by apply list_elem_of_filter. }
  apply list_elem_of_lookup_1 in Hin as [i Hi].
  exists (rnd (2 * length eligible + i)%nat).
  rewrite elem_of_remove_dups, !elem_of_app. right. right.
  apply elem_of_tagged. eauto.
Qed.

Lemma StronglySorted_lookup {A} (R : relation A) (l : list A) i j x y :
  StronglySorted R l → l !! i = Some x → l !! j = Some y → (i < j)%nat →
  R x y.
Proof.
  intros Hs Hi Hj Hij. rewrite <- (take_drop j l) in Hs.
  apply (StronglySorted_app_1_elem_of _ _ _ _ _ Hs).
  - apply elem_of_take. eauto.
  - apply list_elem_of_lookup. exists 0%nat.
    by rewrite lookup_drop, Nat.add_0_r.
Qed.

(** The order [nearby_mirrors] gives its rows: when the candidates
    outnumber the list size, some candidate matches tier 1 and the IP
    version names a column (it always does in the handler,
    [ipv_column_IPversion]), the list the handler goes on with has at
    most list-size entries; every
    entry is a candidate that matches tier 3 at least (same continent,
    IP version supported, enabled), so nothing is filled in from other
    mirrors; every candidate that matches tier 1 has an entry before
    each entry of a mirror that does not; and, the list size being
    positive, the first entry is a tier-1 mirror. *)
Theorem narrowing_tier_order cfg db rnd loc ipversion ipv allmirrors :
  0 <= listsize cfg < Z.of_nat (length allmirrors) →
  ipv_column ipversion = Some ipv →
  (∃ a, Stated.matches db allmirrors (tier1 loc ipv) a) →
  let res := pick_mirrors cfg db rnd loc ipversion allmirrors in
  Z.of_nat (length res) <= listsize cfg
  ∧ Forall (Stated.matches db allmirrors (tier3 loc ipv)) res
  ∧ (∀ a b j,
       Stated.matches db allmirrors (tier1 loc ipv) a →
       ¬ Stated.matches db allmirrors (tier1 loc ipv) b →
       res !! j = Some b →
       ∃ i, (i < j)%nat ∧ res !! i = Some a)
  ∧ (0 < listsize cfg →
     ∃ a, res !! 0%nat = Some a
          ∧ Stated.matches db allmirrors (tier1 loc ipv) a).
Proof.
  intros [Hpos Hmore] Hipv Hsome res.
  unfold res, pick_mirrors, nearby_mirrors, sql_limit. clear res.
  destruct (Z.ltb_spec (listsize cfg) (Z.of_nat (length allmirrors)));
    [|lia].
  rewrite decide_False by (intros ->; simpl in *; lia).
  rewrite Hipv.
  destruct (Z.ltb_spec (listsize cfg) 0); [lia|].
  set (rows := nearby_rows db rnd loc ipv allmirrors).
  pose proof (StronglySorted_merge_sort prio_rand_le rows) as Hsorted.
  pose proof (merge_sort_Permutation prio_rand_le rows) as Hperm.
  set (sorted := merge_sort prio_rand_le rows) in *.
  set (n := Z.to_nat (listsize cfg)).
  assert (∀ row, row ∈ sorted → row ∈ rows) as Hrows.
  { intros row. by rewrite Hperm. }
  (* a row of the kept prefix, by position *)
  assert (∀ j b, ((λ row : prio_row, row.1.1) <$> take n sorted) !! j = Some b →
            ∃ p r, sorted !! j = Some (b, p, r) ∧ (j < n)%nat) as Hentry.
  { intros j b Hj. apply list_lookup_fmap_Some in Hj as ([[b' p] r] & -> & Hj).
    apply lookup_take_Some in Hj as [Hj Hlt]. eauto. }
  (* the row tagged 1 of a tier-1 candidate, by position *)
  assert (∀ a, Stated.matches db allmirrors (tier1 loc ipv) a →
            ∃ i r, sorted !! i = Some (a, 1, r)) as Hfirst.
  { intros a (Ha & m & Hm & <- & Ht).
    destruct (tier1_row db rnd loc ipv allmirrors m Hm Ha Ht) as [r Hr].
    fold rows in Hr. rewrite <- Hperm in Hr.
    apply list_elem_of_lookup_1 in Hr as [i Hi]. eauto. }
  unfold prio_row in *.
  split; [|split; [|split]].
  - rewrite length_fmap, length_take. lia.
  - apply Forall_forall. intros b Hb.
    apply list_elem_of_lookup_1 in Hb as [j Hj].
    apply Hentry in Hj as (p & r & Hj & _).
    apply list_elem_of_lookup_2, Hrows, nearby_rows_inv in Hj
      as (m & Hm & Hid & Heq & Ht & _).
    simpl in Heq. subst b. split; [done|]. eauto.
  - intros a b j Ha Hb Hj.
    apply Hentry in Hj as (p & r & Hj & Hlt).
    destruct (Hfirst a Ha) as (i & r' & Hi).
    assert (2 <= p) as Hp.
    { pose proof Hj as Hin.
      apply list_elem_of_lookup_2, Hrows, nearby_rows_inv in Hin
        as (m & Hm & Hid & Heq & _ & Hprio).
      simpl in *. destruct Hprio as [->|[->|[-> Ht]]]; [lia|lia|].
      exfalso. apply Hb. subst b. split; [done|]. eauto. }
    destruct (decide (i < j)%nat) as [Hij|Hij].
    + exists i. split; [done|].
      apply list_lookup_fmap_Some. exists (a, 1, r').
      split; [done|]. apply lookup_take_Some. split; [exact Hi|lia].
    + destruct (decide (i = j)) as [->|Hne]; [rewrite Hi in Hj; simplify_eq; lia|].
      assert (j < i)%nat as Hji by lia.
      pose proof (StronglySorted_lookup _ _ _ _ _ _ Hsorted Hj Hi Hji) as Hle.
      unfold prio_rand_le in Hle. simpl in Hle. lia.
  - intros Hsize. destruct Hsome as [a Ha].
    destruct (Hfirst a Ha) as (i & r & Hi).
    destruct (sorted !! 0%nat) as [[[b p] r']|] eqn:Hhd.
    2:{ apply lookup_ge_None in Hhd. apply lookup_lt_Some in Hi. lia. }
    exists b. split.
    { apply list_lookup_fmap_Some. exists (b, p, r').
      split; [done|]. apply lookup_take_Some. split; [exact Hhd|lia]. }
    destruct (decide (i = 0%nat)) as [->|Hne].
    { rewrite Hi in Hhd. by simplify_eq. }
    assert (0 < i)%nat as H0i by lia.
    pose proof (StronglySorted_lookup _ _ _ _ _ _ Hsorted Hhd Hi H0i) as Hle.
    unfold prio_rand_le in Hle. simpl in Hle.
    apply list_elem_of_lookup_2, Hrows, nearby_rows_inv in Hhd
      as (m & Hm & Hid & Heq & _ & Hprio).
    simpl in *. subst b.
    destruct Hprio as [->|[->|[-> Ht]]]; [lia|lia|].
    split; [done|]. eauto.
Qed.

Lemma sample_tier1_A :
  Stated.matches Sample.db [1; 2; 3; 4] (tier1 Sample.bavaria ipv4) 1.
Proof.
  split; [by left|]. exists Sample.mA. split; [by left|].
  split; [reflexivity|]. unfold tier1, usable. simpl. repeat split; lia.
Qed.

Lemma sample_not_tier1_B :
  ¬ Stated.matches Sample.db [1; 2; 3; 4] (tier1 Sample.bavaria ipv4) 2.
Proof.
  intros (_ & m & Hm & Hid & Ht). simpl in Hm.
  repeat (apply elem_of_cons in Hm as [->|Hm]); try discriminate Hid.
  - destruct Ht as (_ & _ & Hreg & _). discriminate Hreg.
  - by apply elem_of_nil in Hm.
Qed.

Lemma narrowing_tier_order_witness :
  let res := pick_mirrors (Sample.cfg 3 true) Sample.db Sample.rnd
               Sample.bavaria "4" [1; 2; 3; 4] in
  Z.of_nat (length res) <= 3
  ∧ Forall (Stated.matches Sample.db [1; 2; 3; 4] (tier3 Sample.bavaria ipv4))
      res
  ∧ (∀ a b j,
       Stated.matches Sample.db [1; 2; 3; 4] (tier1 Sample.bavaria ipv4) a →
       ¬ Stated.matches Sample.db [1; 2; 3; 4] (tier1 Sample.bavaria ipv4) b →
       res !! j = Some b →
       ∃ i, (i < j)%nat ∧ res !! i = Some a)
  ∧ (0 < 3 →
     ∃ a, res !! 0%nat = Some a
          ∧ Stated.matches Sample.db [1; 2; 3; 4]
              (tier1 Sample.bavaria ipv4) a).
Proof.
  apply (narrowing_tier_order (Sample.cfg 3 true) Sample.db Sample.rnd
           Sample.bavaria "4" ipv4 [1; 2; 3; 4]).
  - simpl. lia.
  - reflexivity.
  - exists 1. exact sample_tier1_A.
Defined.

(** A mirror can fill several places: for a client in Bavaria, list
    size 3 and the four candidates, mirror A matches tier 1 and mirror
    B tier 2 at best.  The rows of the compound query are (A, 3), (B, 3), (D, 3),
    (A, 2), (B, 2) and (A, 1), all different, so the UNION keeps the
    three rows of A; the first three in the order of tag and random
    value are (A, 1), (B, 2), (A, 2).  The list is A, B, A: its third
    entry is the tier-1 mirror A, after the tier-2 mirror B. *)
Lemma tier1_entry_after_tier2 :
  let res := pick_mirrors (Sample.cfg 3 true) Sample.db Sample.rnd
               Sample.bavaria "4" [1; 2; 3; 4] in
  res = [1; 2; 1]
  ∧ Stated.matches Sample.db [1; 2; 3; 4] (tier1 Sample.bavaria ipv4) 1
  ∧ ¬ Stated.matches Sample.db [1; 2; 3; 4] (tier1 Sample.bavaria ipv4) 2
  ∧ ¬ Stated.tier1_entries_first Sample.db Sample.bavaria ipv4 [1; 2; 3; 4]
        res.
Proof.
  split; [reflexivity|]. split; [exact sample_tier1_A|].
  split; [exact sample_not_tier1_B|].
  intros H.
  specialize (H 2%nat 1%nat 1 2 eq_refl eq_refl sample_tier1_A
                sample_not_tier1_B).
  lia.
Qed.

(** The body sent for that client names each listed mirror once, in
    the order of the mirrors table. *)
Example narrowed_body_sample :
  Body (http_handler_root Sample.env (Sample.cfg 3 false) Sample.db 1000
          "1ms" Sample.rnd (Sample.get_baseos "8") NewCache).1
  = "http://a.example/centos/8.3.2011/BaseOS/x86_64/os/" +:+ nl +:+
    "http://b.example/centos/8.3.2011/BaseOS/x86_64/os/" +:+ nl.
Proof. reflexivity. Qed.

(** The body depends only on which identifiers the list holds: their
    order and their repetitions are lost when the rows are read from
    the mirrors table again. *)
Lemma full_mirror_urls_same_ids db (l1 l2 : list Z) release repo arch_ alt :
  (∀ id, id ∈ l1 ↔ id ∈ l2) →
  full_mirror_urls db l1 release repo arch_ alt
  = full_mirror_urls db l2 release repo arch_ alt.
Proof.
  intros Hsame. unfold full_mirror_urls.
  destruct (decide (l1 = [])) as [->|Hne1], (decide (l2 = [])) as [->|Hne2].
  - done.
  - destruct l2 as [|x l2]; [done|].
    exfalso. apply (not_elem_of_nil x), Hsame. by left.
  - destruct l1 as [|x l1]; [done|].
    exfalso. apply (not_elem_of_nil x), Hsame. by left.
  - cbv zeta. f_equal. f_equal. apply list_filter_iff. intros m. apply Hsame.
Qed.

(** C5: the order of the tiers does not reach the client.  A client in
    Hesse (address 192.0.2.8, passed in the [ip] parameter) asks for
    repository 1 with list size 3; four mirrors carry it, so narrowing
    is triggered.  Mirror B matches tier 1, mirror A tier 2 at best.
    [nearby_mirrors] returns B, A, B: the rows of B tagged 1 and 2 are
    different rows for the UNION, so B fills two of the three places and
    its second entry follows the tier-2 mirror A.  [full_mirror_urls]
    then reads the rows of these identifiers from the mirrors table, in
    the order of the table: the body names A first and the tier-1
    mirror B after it, and has two lines for a list size of three. *)
Theorem tier_order_lost_in_body :
  let req := Sample.from "192.0.2.8" in
  let cfg := Sample.cfg 3 false in
  let loc := get_ip_location Sample.env (client_address req) in
  let all := mirrors_with_repo Sample.db Sample.rnd 1 in
  let picked :=
    pick_mirrors cfg Sample.db (λ i, Sample.rnd (length all + i)%nat) loc
      (IPversion Sample.env (client_address req)) all in
  let h := http_handler_root Sample.env cfg Sample.db 1000 "1ms" Sample.rnd
             req NewCache in
  listsize cfg < Z.of_nat (length all)
  ∧ Stated.matches Sample.db all (tier1 loc ipv4) 2
  ∧ ¬ Stated.matches Sample.db all (tier1 loc ipv4) 1
  ∧ Stated.matches Sample.db all (tier2 loc ipv4) 1
  ∧ picked = [2; 1; 2]
  ∧ ¬ Stated.tier1_entries_first Sample.db loc ipv4 all picked
  ∧ StatusCode h.1 = 200
  ∧ Body h.1
    = "http://a.example/centos/8.3.2011/BaseOS/x86_64/os/" +:+ nl +:+
      "http://b.example/centos/8.3.2011/BaseOS/x86_64/os/" +:+ nl.
Proof.
  cbv zeta.
  assert (pick_mirrors (Sample.cfg 3 false) Sample.db
            (λ i, Sample.rnd
                    (length (mirrors_with_repo Sample.db Sample.rnd 1) + i)%nat)
            (get_ip_location Sample.env
               (client_address (Sample.from "192.0.2.8")))
            (IPversion Sample.env (client_address (Sample.from "192.0.2.8")))
            (mirrors_with_repo Sample.db Sample.rnd 1) = [2; 1; 2]) as ->
    by reflexivity.
  assert (mirrors_with_repo Sample.db Sample.rnd 1 = [1; 2; 3; 4]) as ->
    by reflexivity.
  assert (get_ip_location Sample.env (client_address (Sample.from "192.0.2.8"))
          = {| Known := true; Continent := "EU"; Country := "DE";
               Region := "HE" |}) as -> by reflexivity.
  assert (Stated.matches Sample.db [1; 2; 3; 4]
            (tier1 {| Known := true; Continent := "EU"; Country := "DE";
                      Region := "HE" |} ipv4) 2) as HB.
  { split; [by right; left|]. exists Sample.mB.
    split; [by right; left|]. split; [reflexivity|].
    unfold tier1, usable. simpl. repeat split; lia. }
  assert (¬ Stated.matches Sample.db [1; 2; 3; 4]
              (tier1 {| Known := true; Continent := "EU"; Country := "DE";
                        Region := "HE" |} ipv4) 1) as HA.
  { intros (_ & m & Hm & Hid & Ht). simpl in Hm.
    repeat (apply elem_of_cons in Hm as [->|Hm]); try discriminate Hid.
    - destruct Ht as (_ & _ & Hreg & _). discriminate Hreg.
    - by apply elem_of_nil in Hm. }
  split; [reflexivity|]. split; [exact HB|]. split; [exact HA|].
  split.
  { split; [by left|]. exists Sample.mA.
    split; [by left|]. split; [reflexivity|].
    unfold tier2, usable. simpl. repeat split; lia. }
  split; [reflexivity|].
  split.
  { intros H. specialize (H 2%nat 1%nat 2 1 eq_refl eq_refl HB HA). lia. }
  split; reflexivity.
Qed.

End SelectionFacts.


(** ** More on the checker pipeline *)

Module PipelineFacts.
Import GoString Lib Updater.

(** *** The timestamp of repomd.xml *)

Lemma span_digits_all (s : string) : all_digits (span_digits s).1 = true.
Proof.
  induction s as [|c s IH]; [done|]. simpl.
  destruct (is_digit c) eqn:Hc; [|done].
  destruct (span_digits s) as [d r]. simpl in *. by rewrite Hc.
Qed.

Lemma tsregex_at_digits (s d : string) :
  tsregex_at s = Some d → all_digits d = true.
Proof.
  unfold tsregex_at.
  destruct (strip_prefix "<timestamp>" s) as [r|]; [|done].
  pose proof (span_digits_all r) as Hall.
  destruct (span_digits r) as [d' r']. simpl in Hall.
  destruct d' as [|c d']; [done|].
  destruct (has_prefix "</timestamp>" r'); [|done].
  by intros [= <-].
Qed.

Lemma FindStringSubmatch_sound (s w d : string) :
  tsregex_FindStringSubmatch s = [w; d] →
  w = "<timestamp>" +:+ d +:+ "</timestamp>"
  ∧ d ≠ "" ∧ all_digits d = true
  ∧ ∃ pre rest, s = pre +:+ w +:+ rest.
Proof.
  induction s as [|c s IH]; simpl.
  - destruct (tsregex_at "") eqn:Hat; [|done]. by vm_compute in Hat.
  - destruct (tsregex_at (String c s)) as [d'|] eqn:Hat.
    + intros [= <- <-].
      destruct (UpdaterFacts.tsregex_at_sound _ _ Hat) as (Hne & rest & Hs).
      split; [done|]. split; [done|].
      split; [by apply (tsregex_at_digits _ _ Hat)|].
      exists "", rest. rewrite Hs.
      by rewrite !SelectionFacts.app_assoc.
    + intros Hfind. destruct (IH Hfind) as (Hw & Hne & Hd & pre & rest & Hs).
      split; [done|]. split; [done|]. split; [done|].
      exists (String c pre), rest. by rewrite Hs.
Qed.

Lemma FindStringSubmatch_complete (pre d rest : string) :
  d ≠ "" → all_digits d = true →
  tsregex_FindStringSubmatch
    (pre +:+ "<timestamp>" +:+ d +:+ "</timestamp>" +:+ rest) ≠ [].
Proof.
  intros Hne Hd. induction pre as [|c pre IH].
  - change ("" +:+ ?x) with x.
    pose proof (UpdaterFacts.tsregex_at_complete d rest Hne Hd) as Hat.
    destruct d as [|c d]; [done|].
    change ("" +:+ "<timestamp>" +:+ String c d +:+ "</timestamp>" +:+ rest)
      with (String "<" ("timestamp>" +:+ String c d +:+ "</timestamp>" +:+ rest)).
    change ("<timestamp>" +:+ String c d +:+ "</timestamp>" +:+ rest)
      with (String "<" ("timestamp>" +:+ String c d +:+ "</timestamp>" +:+ rest))
      in Hat.
    simpl. by rewrite Hat.
  - change (String c pre +:+ ?x) with (String c (pre +:+ x)). simpl.
    by destruct (tsregex_at _).
Qed.

Lemma is_digit_value c :
  is_digit c = true → 0 <= Z.of_nat (nat_of_ascii c) - 48 <= 9.
Proof.
  destruct c as [[] [] [] [] [] [] [] []]; vm_compute; intros; try discriminate;
    split; discriminate.
Qed.

Lemma is_digit_no_sign c (s : string) :
  is_digit c = true →
  ParseInt (String c s)
  = match digits_value 0 (String c s) with
    | None => None
    | Some v => if (- 2 ^ 63 <=? v) && (v <=? 2 ^ 63 - 1) then Some v else None
    end.
Proof.
  destruct c as [[] [] [] [] [] [] [] []]; intros Hc; try discriminate Hc;
    reflexivity.
Qed.

Lemma digits_value_ge (s : string) : ∀ acc v,
  0 <= acc → digits_value acc s = Some v → acc <= v.
Proof.
  induction s as [|c s IH]; intros acc v Hacc; simpl.
  - intros [= <-]. lia.
  - destruct (is_digit c) eqn:Hc; [|done]. intros Hv.
    pose proof (is_digit_value c Hc).
    apply IH in Hv; lia.
Qed.

(** A run of digits parses to a number from 0 to 2^63 - 1, or not at
    all. *)
Lemma ParseInt_digits (d : string) v :
  d ≠ "" → all_digits d = true → ParseInt d = Some v →
  0 <= v <= 2 ^ 63 - 1.
Proof.
  intros Hne Hd. destruct d as [|c d]; [done|].
  simpl in Hd. apply andb_true_iff in Hd as [Hc Hd].
  rewrite (is_digit_no_sign c d Hc).
  destruct (digits_value 0 (String c d)) as [v'|] eqn:Hv; [|done].
  apply digits_value_ge in Hv; [|lia].
  destruct (Z.leb_spec (- 2 ^ 63) v'); simpl; [|done].
  destruct (Z.leb_spec v' (2 ^ 63 - 1)); [|done].
  intros [= <-]. lia.
Qed.

(** X1: for an answer with HTTP 200, the probe reports -4 exactly when
    the body holds no timestamp tag (the opening tag, one or more
    digits, the closing tag), wherever in the body it may stand;
    otherwise it reports 200. *)
Theorem parse_failure_iff_no_tag net url data :
  net (url +:+ "/repodata/repomd.xml") = HTTPResponse 200 data →
  ((repository_timestamp net url).2 = -4 ↔
   ¬ ∃ pre d rest,
       data = pre +:+ "<timestamp>" +:+ d +:+ "</timestamp>" +:+ rest
       ∧ d ≠ "" ∧ all_digits d = true)
  ∧ ((repository_timestamp net url).2 = -4
     ∨ (repository_timestamp net url).2 = 200).
Proof.
  intros Hnet. rewrite (UpdaterFacts.repository_timestamp_ok _ _ _ Hnet).
  destruct (UpdaterFacts.FindStringSubmatch_length data) as [Hnone|[d Hd]].
  - rewrite Hnone. simpl. split; [|by left]. split; [|done].
    intros _ (pre & d & rest & -> & Hne & Hall).
    by apply (FindStringSubmatch_complete pre d rest Hne Hall).
  - rewrite Hd.
    destruct (FindStringSubmatch_sound _ _ _ Hd)
      as (_ & Hne & Hall & pre & rest & Hdata).
    assert ((match ParseInt d with
             | Some t => (t, 200) | None => (0, 200) end).2 = 200) as ->
      by (by destruct (ParseInt d)).
    split; [|by right]. split; [done|].
    intros Hno. exfalso. apply Hno. exists pre, d, rest.
    split; [|done]. rewrite Hdata. by rewrite !SelectionFacts.app_assoc.
Qed.

Lemma parse_failure_iff_no_tag_witness :
  (repository_timestamp (λ _, HTTPResponse 200 "<repomd></repomd>")
     (URL Sample.task)).2 = -4
  ∨ (repository_timestamp (λ _, HTTPResponse 200 "<repomd></repomd>")
       (URL Sample.task)).2 = 200.
Proof.
  exact (proj2 (parse_failure_iff_no_tag
                  (λ _, HTTPResponse 200 "<repomd></repomd>")
                  (URL Sample.task) "<repomd></repomd>" eq_refl)).
Defined.

(** X2: whatever the mirror answers, the timestamp a repository probe
    reports lies between 0 and 2^63 - 1; it is 0 unless the outcome is
    200; a transport error gives timestamp 0 with outcome -1, -2 or -3,
    and -1 whenever the message names an unknown host, also when it
    names a timeout too. *)
Theorem repository_timestamp_range net url :
  0 <= (repository_timestamp net url).1 <= 2 ^ 63 - 1
  ∧ ((repository_timestamp net url).1 ≠ 0 →
     (repository_timestamp net url).2 = 200)
  ∧ ∀ msg, net (url +:+ "/repodata/repomd.xml") = TransportError msg →
      (repository_timestamp net url).1 = 0
      ∧ ((repository_timestamp net url).2 = -1
         ∨ (repository_timestamp net url).2 = -2
         ∨ (repository_timestamp net url).2 = -3)
      ∧ ((repository_timestamp net url).2 = -1
         ↔ contains "no such host" msg = true).
Proof.
  destruct (net (url +:+ "/repodata/repomd.xml")) as [msg|code data] eqn:Hnet.
  - assert (repository_timestamp net url
            = if contains "no such host" msg then (0, -1)
              else if contains "deadline exceeded" msg then (0, -2)
              else (0, -3)) as ->.
    { unfold repository_timestamp. by rewrite Hnet. }
    split; [|split].
    + destruct (contains "no such host" msg);
        [|destruct (contains "deadline exceeded" msg)]; simpl; lia.
    + destruct (contains "no such host" msg);
        [|destruct (contains "deadline exceeded" msg)]; simpl; done.
    + intros msg' [= <-].
      destruct (contains "no such host" msg);
        [|destruct (contains "deadline exceeded" msg)]; simpl;
        repeat split; auto; try done.
  - split; [|split; [|done]].
    + destruct (decide (code = 200)) as [->|Hne].
      * rewrite (UpdaterFacts.repository_timestamp_ok _ _ _ Hnet).
        destruct (UpdaterFacts.FindStringSubmatch_length data)
          as [Hnone|[d Hd]]; rewrite ?Hnone, ?Hd; simpl; [lia|].
        destruct (FindStringSubmatch_sound _ _ _ Hd) as (_ & Hne & Hall & _).
        destruct (ParseInt d) as [t|] eqn:Ht; simpl; [|lia].
        apply (ParseInt_digits d t Hne Hall Ht).
      * rewrite (UpdaterFacts.repository_timestamp_not_ok _ _ _ _ Hnet Hne).
        simpl. lia.
    + destruct (decide (code = 200)) as [->|Hne].
      * rewrite (UpdaterFacts.repository_timestamp_ok _ _ _ Hnet).
        destruct (tsregex_FindStringSubmatch data) as [|w [|d [|x l]]];
          simpl; try done.
        by destruct (ParseInt d).
      * rewrite (UpdaterFacts.repository_timestamp_not_ok _ _ _ _ Hnet Hne).
        done.
Qed.

(** X3: an ISO probe succeeds, with the clock as timestamp, as soon as
    one of the two requests gets any HTTP answer, whatever its status
    (a 404 for the checksum file counts as success); it reports (0, 404)
    only when both requests fail in transport. *)
Theorem iso_timestamp_outcome net now url :
  ((∃ code body,
      net (url +:+ "/sha256sum.txt") = HTTPResponse code body
      ∨ net (url +:+ "/CHECKSUM") = HTTPResponse code body) →
   iso_timestamp net now url = (now, 200))
  ∧ ((∃ e1 e2,
        net (url +:+ "/sha256sum.txt") = TransportError e1
        ∧ net (url +:+ "/CHECKSUM") = TransportError e2) →
     iso_timestamp net now url = (0, 404)).
Proof.
  unfold iso_timestamp. split.
  - intros (code & body & [H|H]).
    + by rewrite H.
    + destruct (net (url +:+ "/sha256sum.txt")); [by rewrite H|done].
  - intros (e1 & e2 & H1 & H2). by rewrite H1, H2.
Qed.

Lemma iso_timestamp_outcome_witness :
  iso_timestamp Sample.net404 2000 "http://a.example/centos/8/isos/x86_64"
  = (2000, 200).
Proof.
  apply (proj1 (iso_timestamp_outcome Sample.net404 2000
                  "http://a.example/centos/8/isos/x86_64")).
  exists 404, "". left. reflexivity.
Defined.

Lemma repository_timestamp_range_witness :
  (repository_timestamp (λ _, TransportError "dial tcp: no such host")
     (URL Sample.task)).1 = 0
  ∧ (repository_timestamp (λ _, TransportError "dial tcp: no such host")
       (URL Sample.task)).2 = -1.
Proof.
  destruct (repository_timestamp_range
              (λ _, TransportError "dial tcp: no such host") (URL Sample.task))
    as (_ & _ & Herr).
  destruct (Herr "dial tcp: no such host" eq_refl) as (Hts & _ & Hhost).
  split; [exact Hts|]. apply Hhost. reflexivity.
Defined.

(** *** From the scheduler to the result *)

Lemma next_check_rows_due db now arg limit (row : Status * Mirror * Repo) :
  row ∈ next_check_rows db now arg limit →
  row ∈ status_join db ∧ due now arg row = true.
Proof.
  unfold next_check_rows, sql_limit. intros Hin.
  assert (row ∈ merge_sort checked_le
            (filter (λ row, due now arg row = true) (status_join db))) as Hs.
  { destruct (limit <? 0); [done|].
    apply elem_of_take in Hin as (i & Hi & _).
    by eapply list_elem_of_lookup_2. }
  rewrite merge_sort_Permutation in Hs.
  apply list_elem_of_filter in Hs. tauto.
Qed.

(** X4: every task the scheduler builds is valid, so its probe is
    never skipped, and stands for a status row that was due; a result
    the probe writes for it carries the identifiers of the task, so no
    result names a pair that was not scheduled.  (Whether the probe
    gets to write depends on the requests: see [execute_test].) *)
Theorem scheduled_task_result_ids db rescan now draw limit net clock task :
  task ∈ find_next_check db rescan now draw limit →
  Valid task = true
  ∧ (∃ s, s ∈ status db
          ∧ st_mirror_id s = MirrorID task ∧ st_repo_id s = RepoID task
          ∧ checked s < now - (rescan + Intn 60 draw))
  ∧ ∀ cr, execute_test net clock task = Some cr →
          cr_MirrorID cr = MirrorID task ∧ cr_RepoID cr = RepoID task.
Proof.
  unfold find_next_check. intros Hin.
  apply list_elem_of_fmap in Hin as (row & -> & Hrow).
  apply next_check_rows_due in Hrow as [Hjoin Hdue].
  apply UpdaterFacts.elem_of_status_join in Hjoin as (Hs & _ & Hmid & _).
  destruct (UpdaterFacts.task_of_ids row Hmid) as (HM & HR & HV).
  unfold due in Hdue. apply andb_true_iff in Hdue as [Hchk _].
  apply Z.ltb_lt in Hchk.
  unfold compose. split; [exact HV|]. split.
  { exists row.1.1. by rewrite HM, HR. }
  intros cr. unfold execute_test. rewrite HV. cbn [negb].
  destruct (if Iso (task_of (scan row))
            then iso_timestamp net clock (URL (task_of (scan row)))
            else repository_timestamp net (URL (task_of (scan row))))
    as [ts code].
  intros [= <-]. done.
Qed.

Lemma scheduled_task_result_ids_witness :
  Valid Sample.task = true
  ∧ (∃ s, s ∈ status Sample.db
          ∧ st_mirror_id s = 1 ∧ st_repo_id s = 1
          ∧ checked s < 10000 - (7200 + Intn 60 61))
  ∧ ∀ cr, execute_test Sample.net404 2000 Sample.task = Some cr →
          cr_MirrorID cr = 1 ∧ cr_RepoID cr = 1.
Proof.
  apply (scheduled_task_result_ids Sample.db 7200 10000 61 20 Sample.net404
           2000 Sample.task).
  vm_compute. do 4 right. left.
Defined.

(** *** Writing results to the status table *)

(** X5: an update never adds or removes a row and never changes the
    pair a row stands for; a result for a pair without a row changes
    nothing at all. *)
Theorem update_keeps_rows cr now (table : list Status) :
  (λ s, (st_mirror_id s, st_repo_id s)) <$> update_mirror_status cr now table
  = (λ s, (st_mirror_id s, st_repo_id s)) <$> table
  ∧ ((∀ s, s ∈ table →
        ¬ (st_mirror_id s = cr_MirrorID cr ∧ st_repo_id s = cr_RepoID cr)) →
     update_mirror_status cr now table = table).
Proof.
  unfold update_mirror_status. split.
  - rewrite <- list_fmap_compose. apply list_fmap_ext.
    intros i s _. simpl. by case_decide.
  - intros Hnone. rewrite <- (list_fmap_id table) at 2.
    apply list_fmap_ext. intros i s Hs. simpl.
    rewrite decide_False; [done|]. apply Hnone.
    by eapply list_elem_of_lookup_2.
Qed.

Lemma update_keeps_rows_witness :
  update_mirror_status
    {| cr_MirrorID := 9; cr_RepoID := 1; cr_Timestamp := 5; cr_Result := 200 |}
    2000 (status Sample.db)
  = status Sample.db.
Proof.
  apply (proj2 (update_keeps_rows
                  {| cr_MirrorID := 9; cr_RepoID := 1; cr_Timestamp := 5;
                     cr_Result := 200 |} 2000 (status Sample.db))).
  intros s Hs [Hm _]. simpl in Hs, Hm.
  repeat (apply elem_of_cons in Hs as [->|Hs]); try discriminate Hm.
  by apply elem_of_nil in Hs.
Defined.

(** X6: of two updates for one pair the later one alone counts, and
    updates for different pairs can be applied in either order. *)
Theorem update_composes cr1 cr2 now1 now2 (table : list Status) :
  (cr_MirrorID cr1 = cr_MirrorID cr2 → cr_RepoID cr1 = cr_RepoID cr2 →
   update_mirror_status cr2 now2 (update_mirror_status cr1 now1 table)
   = update_mirror_status cr2 now2 table)
  ∧ (¬ (cr_MirrorID cr1 = cr_MirrorID cr2 ∧ cr_RepoID cr1 = cr_RepoID cr2) →
     update_mirror_status cr2 now2 (update_mirror_status cr1 now1 table)
     = update_mirror_status cr1 now1 (update_mirror_status cr2 now2 table)).
Proof.
  unfold update_mirror_status. split.
  - intros Hm Hr. rewrite <- list_fmap_compose. apply list_fmap_ext.
    intros i s _. simpl. rewrite Hm, Hr.
    destruct (decide (st_mirror_id s = cr_MirrorID cr2
                      ∧ st_repo_id s = cr_RepoID cr2)) as [Hk|Hk]; simpl.
    + by rewrite decide_True.
    + by rewrite decide_False.
  - intros Hne. rewrite <- !list_fmap_compose. apply list_fmap_ext.
    intros i s _. simpl.
    repeat (case_decide; simpl in *); try done;
      exfalso; destruct_and?; (apply Hne; split; congruence) || tauto.
Qed.

Lemma update_composes_witness :
  update_mirror_status (Sample.ok 1) 3000
    (update_mirror_status
       {| cr_MirrorID := 1; cr_RepoID := 1; cr_Timestamp := 0;
          cr_Result := 404 |} 2000 (status Sample.db))
  = update_mirror_status (Sample.ok 1) 3000 (status Sample.db).
Proof.
  exact (proj1 (update_composes
                  {| cr_MirrorID := 1; cr_RepoID := 1; cr_Timestamp := 0;
                     cr_Result := 404 |}
                  (Sample.ok 1) 2000 3000 (status Sample.db))
           eq_refl eq_refl).
Defined.

(** *** The committer's loop *)

(** X7: inside its range loop the committer handles the queued results
    oldest first: after k steps (k at most the number queued, nothing
    arriving in between) the table is the result of the first k updates
    in queue order, and the rest is still queued. *)
Theorem committer_drains_in_order (k : nat) : ∀ (s : Committer) now,
  pc s = AtReceive →
  (k ≤ length (buf (resultchan s)))%nat →
  let s' := run (replicate k (Commit_step now)) s in
  table s' = foldl (λ t r, update_mirror_status r now t) (table s)
               (take k (buf (resultchan s)))
  ∧ buf (resultchan s') = drop k (buf (resultchan s))
  ∧ pc s' = AtReceive
  ∧ committed s' = committed s.
Proof.
  induction k as [|k IH]; intros s now Hpc Hlen.
  - simpl. by rewrite drop_0.
  - destruct (buf (resultchan s)) as [|r rest] eqn:Hbuf; [simpl in Hlen; lia|].
    simpl in Hlen.
    change (replicate (S k) (Commit_step now))
      with (Commit_step now :: replicate k (Commit_step now)).
    cbn [run step]. unfold committer_step. rewrite Hpc, Hbuf. cbn [default].
    match goal with
    | |- context [run _ ?s1] =>
        destruct (IH s1 now eq_refl ltac:(simpl; lia)) as (Ht & Hb & Hp & Hc)
    end.
    cbv zeta. rewrite Ht, Hb, Hp, Hc. done.
Qed.

Lemma committer_drains_in_order_witness :
  let s := run [Commit_step 2000] Sample.half_full in
  let s' := run (replicate 2 (Commit_step 2000)) s in
  table s' = foldl (λ t r, update_mirror_status r 2000 t) (table s)
               (take 2 (buf (resultchan s)))
  ∧ buf (resultchan s') = drop 2 (buf (resultchan s))
  ∧ pc s' = AtReceive
  ∧ committed s' = committed s.
Proof.
  apply (committer_drains_in_order 2 (run [Commit_step 2000] Sample.half_full)
           2000).
  - reflexivity.
  - vm_compute. lia.
Defined.

(** X8: as long as the committer has not entered its range loop (it
    is at its test of the queue length or in its sleep) and fewer
    results are queued than half the capacity, its steps leave the
    queue and the table as they are and open no transaction: until the
    queue first fills up to half, results wait unwritten.  (Once the
    loop is entered the committer stays at the receive and writes each
    result as it arrives.) *)
Theorem committer_waits_below_half (n : nat) : ∀ (s : Committer) now,
  pc s = AtCheck ∨ pc s = AtSleep →
  (length (buf (resultchan s)) < cap (resultchan s) `div` 2)%nat →
  let s' := run (replicate n (Commit_step now)) s in
  resultchan s' = resultchan s ∧ table s' = table s
  ∧ begun s' = begun s ∧ committed s' = committed s
  ∧ (pc s' = AtCheck ∨ pc s' = AtSleep).
Proof.
  induction n as [|n IH]; intros s now Hpc Hlen; [done|].
  change (replicate (S n) (Commit_step now))
    with (Commit_step now :: replicate n (Commit_step now)).
  cbn [run step]. unfold committer_step.
  destruct Hpc as [Hpc|Hpc]; rewrite Hpc.
  - rewrite decide_False by lia. cbn [default].
    match goal with
    | |- context [run _ ?s1] =>
        destruct (IH s1 now (or_intror eq_refl) Hlen) as (?&?&?&?&?)
    end.
    done.
  - cbn [default].
    match goal with
    | |- context [run _ ?s1] =>
        destruct (IH s1 now (or_introl eq_refl) Hlen) as (?&?&?&?&?)
    end.
    done.
Qed.

Lemma committer_waits_below_half_witness :
  let s := {| resultchan := {| buf := [Sample.ok 1; Sample.ok 2]; cap := 20;
                               closed := false |};
              table := status Sample.db; pc := AtCheck;
              begun := 0; committed := 0 |} in
  let s' := run (replicate 50 (Commit_step 2000)) s in
  resultchan s' = resultchan s ∧ table s' = table s
  ∧ begun s' = begun s ∧ committed s' = committed s
  ∧ (pc s' = AtCheck ∨ pc s' = AtSleep).
Proof.
  apply (committer_waits_below_half 50).
  - left. reflexivity.
  - vm_compute. lia.
Defined.

(** X9: once a result for a pair is written at time t, the scheduler
    does not select that pair again before rescan + jitter seconds have
    passed since t. *)
Theorem checked_pair_not_rescheduled cr t db rescan now draw limit task :
  now - (rescan + Intn 60 draw) <= t →
  task ∈ find_next_check
           {| mirrors := mirrors db; repos := repos db;
              status := update_mirror_status cr t (status db) |}
           rescan now draw limit →
  ¬ (MirrorID task = cr_MirrorID cr ∧ RepoID task = cr_RepoID cr).
Proof.
  intros Hrecent Hin [Hm Hr]. unfold find_next_check in Hin.
  apply list_elem_of_fmap in Hin as (row & -> & Hrow).
  apply next_check_rows_due in Hrow as [Hjoin Hdue].
  apply UpdaterFacts.elem_of_status_join in Hjoin as (Hs & _ & Hmid & _).
  destruct (UpdaterFacts.task_of_ids row Hmid) as (HM & HR & _).
  unfold due in Hdue. apply andb_true_iff in Hdue as [Hchk _].
  apply Z.ltb_lt in Hchk. simpl in Hs.
  unfold update_mirror_status in Hs.
  apply list_elem_of_fmap in Hs as (s0 & Hrow1 & _).
  rewrite Hrow1 in *. case_decide as Hkey; simpl in *; [lia|].
  apply Hkey. split; congruence.
Qed.

Lemma checked_pair_not_rescheduled_witness :
  10000 - (7200 + Intn 60 61) <= 9000
  ∧ Forall (λ task, ¬ (MirrorID task = 1 ∧ RepoID task = 1))
      (find_next_check
         {| mirrors := mirrors Sample.db; repos := repos Sample.db;
            status := update_mirror_status (Sample.ok 1) 9000
                        (status Sample.db) |}
         7200 10000 61 20).
Proof.
  split; [vm_compute; discriminate|].
  apply Forall_forall. intros task Hin.
  apply (checked_pair_not_rescheduled (Sample.ok 1) 9000 Sample.db 7200 10000
           61 20 task); [vm_compute; discriminate|exact Hin].
Defined.

End PipelineFacts.

(** ** More on the selection handler *)

Module RootFacts.
Import GoString Lib Mirrorlist.

(** The handler once the parameters are there and the repository is
    found, as a function of what the cache answers. *)
Lemma handler_resolved env cfg db now elapsed rnd req c :
  first_missing (QueryArgs req) ["arch"; "release"; "repo"] = None →
  0 < (Stated.request_repo db req).1.1 →
  http_handler_root env cfg db now elapsed rnd req c
  = let args := QueryArgs req in
    let repoid := (Stated.request_repo db req).1.1 in
    let ctx := {| StatusCode := 200; Header := headers cfg; Body := "" |} in
    let lk := Stated.looked_up env cfg db now req c in
    let ctx := if caching cfg
               then SetHeader "X-Cache-Hit"
                      (FormatBool (bool_decide (is_Some lk.1))) ctx
               else ctx in
    match lk.1 with
    | Some response =>
        (Write response (SetHeader "X-Processing-Time" elapsed ctx), lk.2)
    | None =>
        let allmirrors := mirrors_with_repo db rnd repoid in
        if decide (length allmirrors = 0%nat) then (SetStatusCode 404 ctx, lk.2)
        else
          let response :=
            full_mirror_urls db
              (pick_mirrors cfg db (λ i, rnd (length allmirrors + i)%nat)
                 (get_ip_location env (client_address req))
                 (IPversion env (client_address req)) allmirrors)
              (Stated.request_repo db req).1.2
              (Peek args "repo") (Peek args "arch")
              (Stated.request_repo db req).2 in
          let ctx := Write response
                       (SetHeader "X-Processing-Time" elapsed ctx) in
          if caching cfg && (0 <? Z.of_nat (String.length response))
          then (ctx, cache_Set now (Stated.request_key env db req) response
                       3600 lk.2)
          else (ctx, lk.2)
    end.
Proof.
  intros Hmiss Hrepo.
  unfold http_handler_root, Stated.looked_up, Stated.request_key,
    Stated.request_repo in *.
  rewrite Hmiss.
  destruct (get_repo_id db _ _ _) as [[rid rpath] ralt]. simpl in Hrepo.
  cbv zeta. simpl fst. simpl snd.
  destruct (Z.leb_spec rid 0) as [?|_]; [lia|].
  destruct (caching cfg).
  - by destruct (cache_Get now _ c) as [[body|] c1].
  - done.
Qed.





(** X11: with caching switched off the handler never touches the cache
    and sets no X-Cache-Hit header, whatever the request. *)
Theorem uncached_handler_leaves_cache env cfg db now elapsed rnd req c :
  caching cfg = false →
  headers cfg !! "X-Cache-Hit" = None →
  (http_handler_root env cfg db now elapsed rnd req c).2 = c
  ∧ Header (http_handler_root env cfg db now elapsed rnd req c).1
      !! "X-Cache-Hit" = None.
Proof.
  intros Hcaching Hhdr.
  destruct (first_missing (QueryArgs req) ["arch"; "release"; "repo"])
    as [k|] eqn:Hmiss.
  { unfold http_handler_root. rewrite Hmiss. done. }
  destruct (Z.leb_spec (Stated.request_repo db req).1.1 0) as [Hle|Hlt].
  { unfold http_handler_root, Stated.request_repo in *. rewrite Hmiss.
    destruct (get_repo_id db _ _ _) as [[rid rpath] ralt]. simpl in Hle.
    cbv zeta. destruct (Z.leb_spec rid 0); [done|lia]. }
  rewrite (handler_resolved _ _ _ _ _ _ _ _ Hmiss Hlt).
  cbv zeta. unfold Stated.looked_up. rewrite Hcaching. simpl.
  destruct (decide (length _ = 0%nat)); simpl; [done|].
  split; [done|]. by rewrite lookup_insert_ne.
Qed.

Lemma uncached_handler_leaves_cache_witness :
  (http_handler_root Sample.env (Sample.cfg 3 false) Sample.db 1000 "1ms"
     Sample.rnd (Sample.get_baseos "8") Sample.stale_cache).2
  = Sample.stale_cache
  ∧ Header (http_handler_root Sample.env (Sample.cfg 3 false) Sample.db 1000
              "1ms" Sample.rnd (Sample.get_baseos "8") Sample.stale_cache).1
      !! "X-Cache-Hit" = None.
Proof.
  exact (uncached_handler_leaves_cache Sample.env (Sample.cfg 3 false)
           Sample.db 1000 "1ms" Sample.rnd (Sample.get_baseos "8")
           Sample.stale_cache eq_refl eq_refl).
Defined.

Lemma get_repo_id_none db release repo arch_ :
  (∀ r, r ∈ repos db →
        ParseInt release = Some (major_release r) →
        repo_name r = repo → arch r = arch_ → repo_enabled r = false) →
  get_repo_id db release repo arch_ = (-1, "", false).
Proof.
  intros Hnone. unfold get_repo_id.
  replace (filter _ (repos db)) with (@nil Repo); [done|].
  symmetry. apply elem_of_nil_inv. intros r Hr.
  apply list_elem_of_filter in Hr as [(Hen & Hrel & Hname & Harch) Hr].
  rewrite (Hnone r Hr Hrel Hname Harch) in Hen. simpl in Hen. lia.
Qed.

(** X12: a request that names all three parameters, the release as a
    string of decimal digits, but no enabled repository (none with that
    release number, name and arch, or only disabled ones) is answered
    404 with the text "Invalid release/repo/arch combination"; the
    cache is neither read nor written, so even a body cached for that
    repository while it was enabled is not served. *)
Theorem disabled_repo_not_found env cfg db now elapsed rnd req c :
  let args := QueryArgs req in
  first_missing args ["arch"; "release"; "repo"] = None →
  all_digits (Peek args "release") = true →
  (∀ r, r ∈ repos db →
        ParseInt (Peek args "release") = Some (major_release r) →
        repo_name r = Peek args "repo" → arch r = Peek args "arch" →
        repo_enabled r = false) →
  http_handler_root env cfg db now elapsed rnd req c
  = ({| StatusCode := 404; Header := headers cfg;
        Body := "Invalid release/repo/arch combination" +:+ nl |}, c).
Proof.
  intros args Hmiss _ Hnone. unfold http_handler_root. fold args.
  rewrite Hmiss, (get_repo_id_none _ _ _ _ Hnone). reflexivity.
Qed.

Lemma disabled_repo_not_found_witness :
  http_handler_root Sample.env (Sample.cfg 3 true) Sample.db 2000 "1ms"
    Sample.rnd (Sample.get_baseos "7") Sample.stale_cache
  = ({| StatusCode := 404; Header := ∅;
        Body := "Invalid release/repo/arch combination" +:+ nl |},
     Sample.stale_cache).
Proof.
  apply (disabled_repo_not_found Sample.env (Sample.cfg 3 true) Sample.db 2000
           "1ms" Sample.rnd (Sample.get_baseos "7") Sample.stale_cache).
  - reflexivity.
  - reflexivity.
  - intros r Hr Hrel _ _. simpl in Hr.
    repeat (apply elem_of_cons in Hr as [->|Hr]); try discriminate Hrel.
    by apply elem_of_nil in Hr.
Defined.

(** *** The mirrors of a repository *)

#[local] Instance fresher_total : Total fresher.
Proof.
  intros [a ra] [b rb]. unfold fresher. simpl.
  destruct (Z.le_ge_cases ra rb);
    destruct (timestamp a) as [x|], (timestamp b) as [y|]; simpl; auto;
    destruct (Z.lt_trichotomy x y) as [?|[->|?]]; auto.
Qed.

#[local] Instance fresher_trans : Transitive fresher.
Proof.
  intros [a ra] [b rb] [c rc]. unfold fresher. simpl.
  destruct (timestamp a) as [x|], (timestamp b) as [y|],
    (timestamp c) as [z|]; simpl;
    intros [?|[? ?]] [?|[? ?]]; simplify_eq; try done; try lia; auto;
    try (right; split; [done|lia]); left; lia.
Qed.

(** The rows [mirrors_with_repo] sorts. *)
Lemma mirrors_with_repo_rows db rnd repoid :
  ∃ rows : list (Status * Z),
    mirrors_with_repo db rnd repoid
    = (λ row : Status * Z, st_mirror_id row.1) <$> rows
    ∧ StronglySorted fresher rows
    ∧ ∀ s, s ∈ rows.*1 ↔
        s ∈ status db ∧ st_repo_id s = repoid
        ∧ ∃ m, m ∈ mirrors db ∧ mirror_id m = st_mirror_id s
               ∧ enabled m = true.
Proof.
  unfold mirrors_with_repo. set (joined := status db ≫= _).
  exists (merge_sort fresher (with_rand rnd 0 joined)).
  split; [done|]. split; [apply StronglySorted_merge_sort; apply _|].
  intros s.
  assert (s ∈ (merge_sort fresher (with_rand rnd 0 joined)).*1 ↔ s ∈ joined)
    as ->.
  { rewrite merge_sort_Permutation. unfold with_rand.
    rewrite list_elem_of_fmap. split.
    - intros ([s' r] & -> & Hin).
      apply elem_of_lookup_imap in Hin as (i & x & [= -> ->] & Hi).
      by eapply list_elem_of_lookup_2.
    - intros Hin. apply list_elem_of_lookup_1 in Hin as [i Hi].
      exists (s, rnd (0 + i)%nat). split; [done|].
      apply elem_of_lookup_imap. eauto. }
  unfold joined. rewrite list_elem_of_bind. split.
  - intros (s' & Hin & Hs').
    apply list_elem_of_bind in Hin as (m & Hin & Hm).
    apply list_elem_of_filter in Hm as [Hid Hm].
    case_decide as Hc; [|by apply elem_of_nil in Hin].
    apply list_elem_of_singleton in Hin as ->.
    destruct Hc as [Hrepo Hen]. split; [done|]. split; [done|].
    exists m. repeat split; try done.
    destruct (enabled m); [done|simpl in Hen; lia].
  - intros (Hs & Hrepo & m & Hm & Hid & Hen).
    exists s. split; [|done].
    apply list_elem_of_bind. exists m.
    split; [|by apply list_elem_of_filter].
    rewrite decide_True; [by left|]. by rewrite Hen.
Qed.

(** Membership in the list of [mirrors_with_repo]. *)
Lemma elem_of_mirrors_with_repo db rnd repoid id :
  id ∈ mirrors_with_repo db rnd repoid ↔
  ∃ s m, s ∈ status db ∧ st_repo_id s = repoid ∧ st_mirror_id s = id
         ∧ m ∈ mirrors db ∧ mirror_id m = id ∧ enabled m = true.
Proof.
  destruct (mirrors_with_repo_rows db rnd repoid)
    as (rows & Heq & Hsorted & Hmem).
  rewrite Heq. rewrite list_elem_of_fmap. split.
  - intros ([s r] & -> & Hin). simpl.
    assert (s ∈ rows.*1) as Hs by (apply list_elem_of_fmap; by exists (s, r)).
    apply Hmem in Hs as (Hs & Hrepo & m & Hm & Hid & Hen).
    exists s, m. done.
  - intros (s & m & Hs & Hrepo & <- & Hm & Hid & Hen).
    assert (s ∈ rows.*1) as Hin by (apply Hmem; eauto 10).
    apply list_elem_of_fmap in Hin as ([s' r] & -> & Hin).
    by exists (s', r).
Qed.

(** X13: the list of [mirrors_with_repo] names exactly the mirrors that
    are enabled and have a status row for the repository, a disabled
    mirror never.  It is the list of the mirror identifiers of those
    status rows, taken in an order in which no row has an older
    timestamp than a later one and rows never checked come last.  With
    (mirror, repository) a key of the status table, as the schema has
    it: whenever one identifier stands before another in the list, the
    status row of the first for this repository is not older than that
    of the second. *)
Theorem mirrors_with_repo_fresh_first db rnd repoid :
  (∀ id, id ∈ mirrors_with_repo db rnd repoid ↔
     ∃ s m, s ∈ status db ∧ st_repo_id s = repoid ∧ st_mirror_id s = id
            ∧ m ∈ mirrors db ∧ mirror_id m = id ∧ enabled m = true)
  ∧ (∃ rows : list Status,
       mirrors_with_repo db rnd repoid = st_mirror_id <$> rows
       ∧ (∀ s, s ∈ rows ↔
            s ∈ status db ∧ st_repo_id s = repoid
            ∧ ∃ m, m ∈ mirrors db ∧ mirror_id m = st_mirror_id s
                   ∧ enabled m = true)
       ∧ ∀ i j a b, rows !! i = Some a → rows !! j = Some b → (i < j)%nat →
           ¬ ts_lt (timestamp a) (timestamp b))
  ∧ ((∀ s s', s ∈ status db → s' ∈ status db →
              st_mirror_id s = st_mirror_id s' →
              st_repo_id s = st_repo_id s' → s = s') →
     ∀ i j sa sb,
       mirrors_with_repo db rnd repoid !! i = Some (st_mirror_id sa) →
       mirrors_with_repo db rnd repoid !! j = Some (st_mirror_id sb) →
       (i < j)%nat →
       sa ∈ status db → st_repo_id sa = repoid →
       sb ∈ status db → st_repo_id sb = repoid →
       ¬ ts_lt (timestamp sa) (timestamp sb)).
Proof.
  split; [intros id; apply elem_of_mirrors_with_repo|].
  destruct (mirrors_with_repo_rows db rnd repoid)
    as (rows & Heq & Hsorted & Hmem).
  assert (∀ i j a b, rows.*1 !! i = Some a → rows.*1 !! j = Some b →
                     (i < j)%nat → ¬ ts_lt (timestamp a) (timestamp b))
    as Horder.
  { intros i j a b Hi Hj Hij.
    apply list_lookup_fmap_Some in Hi as ([a' ra] & -> & Hi).
    apply list_lookup_fmap_Some in Hj as ([b' rb] & -> & Hj).
    pose proof (SelectionFacts.StronglySorted_lookup _ _ _ _ _ _
                  Hsorted Hi Hj Hij) as Hle.
    unfold fresher in Hle. simpl in *. intros Hlt.
    destruct (timestamp a') as [x|], (timestamp b') as [y|]; simpl in *;
      destruct Hle as [?|[? ?]]; simplify_eq; try done; lia. }
  assert (mirrors_with_repo db rnd repoid = st_mirror_id <$> rows.*1) as Hids.
  { rewrite Heq, <- list_fmap_compose. done. }
  split.
  - exists (rows.*1). done.
  - intros Hkey i j sa sb Hi Hj Hij Hsa Hra Hsb Hrb.
    rewrite Hids in Hi, Hj.
    apply list_lookup_fmap_Some in Hi as (a & Hida & Hi).
    apply list_lookup_fmap_Some in Hj as (b & Hidb & Hj).
    assert (a ∈ rows.*1) as Ha by (by eapply list_elem_of_lookup_2).
    assert (b ∈ rows.*1) as Hb by (by eapply list_elem_of_lookup_2).
    apply Hmem in Ha as (Ha & Hrepa & _).
    apply Hmem in Hb as (Hb & Hrepb & _).
    assert (sa = a) as -> by (apply Hkey; congruence).
    assert (sb = b) as -> by (apply Hkey; congruence).
    by eapply Horder.
Qed.

(** *** Without and with narrowing *)

(** X14: while a repository has no more mirrors than the list size,
    the body does not depend on the client: two clients that ask for
    the same repository get the same body, whatever their addresses,
    locations and IP versions (caching off, same store and random
    values). *)
Theorem small_repo_ignores_location
    env1 env2 cfg db now1 now2 el1 el2 rnd req1 req2 c1 c2 :
  caching cfg = false →
  Peek (QueryArgs req1) "arch" = Peek (QueryArgs req2) "arch" →
  Peek (QueryArgs req1) "release" = Peek (QueryArgs req2) "release" →
  Peek (QueryArgs req1) "repo" = Peek (QueryArgs req2) "repo" →
  Z.of_nat (length (mirrors_with_repo db rnd (Stated.request_repo db req1).1.1))
    <= listsize cfg →
  Body (http_handler_root env1 cfg db now1 el1 rnd req1 c1).1
  = Body (http_handler_root env2 cfg db now2 el2 rnd req2 c2).1
  ∧ StatusCode (http_handler_root env1 cfg db now1 el1 rnd req1 c1).1
    = StatusCode (http_handler_root env2 cfg db now2 el2 rnd req2 c2).1.
Proof.
  intros Hcaching Ha Hr Hp Hsmall.
  assert (first_missing (QueryArgs req1) ["arch"; "release"; "repo"]
          = first_missing (QueryArgs req2) ["arch"; "release"; "repo"]) as Hfm.
  { simpl. by rewrite Ha, Hr, Hp. }
  assert (Stated.request_repo db req1 = Stated.request_repo db req2) as Hrepo.
  { unfold Stated.request_repo. by rewrite Ha, Hr, Hp. }
  destruct (first_missing (QueryArgs req1) ["arch"; "release"; "repo"])
    as [k|] eqn:Hmiss.
  { unfold http_handler_root. rewrite <- Hfm, Hmiss. done. }
  symmetry in Hfm.
  destruct (Z.leb_spec (Stated.request_repo db req1).1.1 0) as [Hle|Hlt].
  { unfold http_handler_root. rewrite Hfm, Hmiss.
    unfold Stated.request_repo in *. rewrite <- Hrepo in *.
    destruct (get_repo_id db _ _ _) as [[rid rpath] ralt]. simpl in Hle.
    cbv zeta. destruct (Z.leb_spec rid 0); [done|lia]. }
  rewrite (handler_resolved _ _ _ _ _ _ _ _ Hmiss Hlt).
  rewrite Hrepo in Hlt.
  rewrite (handler_resolved _ _ _ _ _ _ _ _ Hfm Hlt).
  cbv zeta. unfold Stated.looked_up. rewrite Hcaching. simpl.
  rewrite <- Hrepo, <- Hp, <- Ha.
  unfold pick_mirrors.
  destruct (Z.ltb_spec (listsize cfg)
              (Z.of_nat (length (mirrors_with_repo db rnd
                                   (Stated.request_repo db req1).1.1))));
    [lia|].
  by destruct (decide (length _ = 0%nat)).
Qed.

Lemma small_repo_ignores_location_witness :
  Body (http_handler_root Sample.env2 (Sample.cfg 10 false) Sample.db2 1000
          "1ms" Sample.rnd (Sample.from "198.51.100.1") NewCache).1
  = Body (http_handler_root Sample.env (Sample.cfg 10 false) Sample.db2 2000
            "2ms" Sample.rnd (Sample.from "203.0.113.9") NewCache).1
  ∧ StatusCode (http_handler_root Sample.env2 (Sample.cfg 10 false) Sample.db2
                  1000 "1ms" Sample.rnd (Sample.from "198.51.100.1")
                  NewCache).1
    = StatusCode (http_handler_root Sample.env (Sample.cfg 10 false)
                    Sample.db2 2000 "2ms" Sample.rnd
                    (Sample.from "203.0.113.9") NewCache).1.
Proof.
  apply (small_repo_ignores_location Sample.env2 Sample.env
           (Sample.cfg 10 false) Sample.db2 1000 2000 "1ms" "2ms" Sample.rnd
           (Sample.from "198.51.100.1") (Sample.from "203.0.113.9")
           NewCache NewCache); try reflexivity.
  vm_compute. discriminate.
Defined.

Lemma mirrors_with_repo_fresh_first_witness :
  1 ∈ mirrors_with_repo Sample.db Sample.rnd 1
  ∧ ∀ i j sa sb,
      mirrors_with_repo Sample.db Sample.rnd 1 !! i
      = Some (st_mirror_id sa) →
      mirrors_with_repo Sample.db Sample.rnd 1 !! j
      = Some (st_mirror_id sb) →
      (i < j)%nat →
      sa ∈ status Sample.db → st_repo_id sa = 1 →
      sb ∈ status Sample.db → st_repo_id sb = 1 →
      ¬ ts_lt (timestamp sa) (timestamp sb).
Proof.
  destruct (mirrors_with_repo_fresh_first Sample.db Sample.rnd 1)
    as (Hin & _ & Horder).
  split.
  - apply Hin. exists (Sample.row 1 1 1600000000 500), Sample.mA.
    repeat split; try reflexivity; by left.
  - apply Horder. intros s s' Hs Hs' Hm Hr. simpl in Hs, Hs'.
    repeat (apply elem_of_cons in Hs as [->|Hs]);
      try (by apply elem_of_nil in Hs);
      repeat (apply elem_of_cons in Hs' as [->|Hs']);
      try (by apply elem_of_nil in Hs');
      first [reflexivity | discriminate Hm | discriminate Hr].
Defined.

(** The mirror rows behind an entry of the narrowed list. *)
Lemma nearby_mirrors_inv db rnd loc ipversion ms limit id :
  id ∈ nearby_mirrors db rnd loc ipversion ms limit →
  id ∈ ms
  ∧ ∃ m ipv, m ∈ mirrors db ∧ mirror_id m = id
             ∧ ipv_column ipversion = Some ipv
             ∧ tier3 loc ipv m.
Proof.
  unfold nearby_mirrors. case_decide; [by intros ?%elem_of_nil|].
  destruct (ipv_column ipversion) as [ipv|] eqn:Hipv;
    [|by intros ?%elem_of_nil].
  intros Hin. apply list_elem_of_fmap in Hin as (row & -> & Hrow).
  assert (row ∈ nearby_rows db rnd loc ipv ms) as Hrows.
  { rewrite <- (merge_sort_Permutation prio_rand_le).
    unfold sql_limit in Hrow. destruct (limit <? 0); [done|].
    apply elem_of_take in Hrow as (i & Hi & _).
    by eapply list_elem_of_lookup_2. }
  apply SelectionFacts.nearby_rows_inv in Hrows
    as (m & Hm & Hid & Heq & Ht & _).
  rewrite Heq. split; [done|]. exists m, ipv. done.
Qed.

(** X15: whatever the location, the limit and the candidates, the list
    of [nearby_mirrors] holds only candidates that have a row in the
    mirrors table which is enabled, supports the client's IP version
    and lies on the client's continent: a disabled mirror, or one
    without an address of the client's IP family, is never handed out
    by narrowing. *)
Theorem nearby_mirrors_usable db rnd loc ipversion ms limit id :
  id ∈ nearby_mirrors db rnd loc ipversion ms limit →
  id ∈ ms
  ∧ ∃ m ipv, m ∈ mirrors db ∧ mirror_id m = id
             ∧ ipv_column ipversion = Some ipv
             ∧ enabled m = true ∧ 0 < ipv m
             ∧ continent m = Continent loc.
Proof.
  intros Hin.
  apply nearby_mirrors_inv in Hin
    as (Hms & m & ipv & Hm & Hid & Hcol & Hcont & Hipv & Hen).
  split; [done|]. exists m, ipv. repeat split; try done.
  destruct (enabled m); [done|simpl in Hen; lia].
Qed.

Lemma nearby_mirrors_usable_witness :
  1 ∈ [1; 2; 3; 4]
  ∧ ∃ m ipv, m ∈ mirrors Sample.db ∧ mirror_id m = 1
             ∧ ipv_column "4" = Some ipv
             ∧ enabled m = true ∧ 0 < ipv m
             ∧ continent m = Continent Sample.bavaria.
Proof.
  apply (nearby_mirrors_usable Sample.db Sample.rnd Sample.bavaria "4"
           [1; 2; 3; 4] 3 1).
  vm_compute. left.
Defined.



(** X17: the selection endpoint answers 400, 404 or 200 and nothing
    else, and after a 400 or 404 every entry of the cache is one that
    was there before, unchanged. *)
Theorem root_status_codes env cfg db now elapsed rnd req c :
  let h := http_handler_root env cfg db now elapsed rnd req c in
  (StatusCode h.1 = 400 ∨ StatusCode h.1 = 404 ∨ StatusCode h.1 = 200)
  ∧ (StatusCode h.1 ≠ 200 →
     ∀ k x, entries h.2 !! k = Some x → entries c !! k = Some x).
Proof.
  pose proof (HandlerFacts.handler_cases env cfg db now elapsed rnd req c)
    as Hcases. cbv zeta in *.
  set (h := http_handler_root env cfg db now elapsed rnd req c) in *.
  destruct Hcases as [(k & _ & Hst & Hc)|[(_ & _ & Hst & Hc)|[Hhit|[Hno|Hr]]]].
  - rewrite Hst, Hc. split; [auto|done].
  - rewrite Hst, Hc. split; [auto|done].
  - destruct Hhit as (_ & _ & body & _ & Hst & _). rewrite Hst.
    split; [auto|done].
  - destruct Hno as (_ & _ & _ & _ & Hst & _ & Hc). rewrite Hst, Hc.
    split; [auto|]. intros _ k x Hk. unfold Stated.looked_up in Hk.
    destruct (caching cfg); [|done]. by apply HandlerFacts.cache_Get_entries in Hk.
  - destruct Hr as (_ & _ & _ & _ & Hst & _). rewrite Hst. split; [auto|done].
Qed.

Lemma root_status_codes_witness :
  let h := http_handler_root Sample.env (Sample.cfg 3 true) Sample.db 1000
             "1ms" Sample.rnd
             {| RemoteAddr := "192.0.2.7:40000"; QueryArgs := [] |}
             Sample.stale_cache in
  StatusCode h.1 = 400
  ∧ ∀ k x, entries h.2 !! k = Some x
           → entries Sample.stale_cache !! k = Some x.
Proof.
  split; [reflexivity|].
  refine (proj2 (root_status_codes Sample.env (Sample.cfg 3 true) Sample.db
                   1000 "1ms" Sample.rnd
                   {| RemoteAddr := "192.0.2.7:40000"; QueryArgs := [] |}
                   Sample.stale_cache) _).
  vm_compute. discriminate.
Defined.

End RootFacts.

(** ** The administrative handlers *)

Module AdminFacts.
Import GoString Lib Mirrorlist Admin.

(** *** DNS families *)

Lemma IPfamilies_fold env (ips : list string) (r4 r6 : Z) :
  foldl (λ result ip,
           let result := if To4 env ip then (1, result.2) else result in
           if negb (To4 env ip) then (result.1, 1) else result)
        (r4, r6) ips
  = (if existsb (To4 env) ips then 1 else r4,
     if existsb (λ ip, negb (To4 env ip)) ips then 1 else r6).
Proof.
  revert r4 r6. induction ips as [|ip ips IH]; intros r4 r6; [done|].
  cbn [foldl existsb]. destruct (To4 env ip) eqn:Hip; simpl; rewrite IH.
  - by destruct (existsb (To4 env) ips).
  - by destruct (existsb (λ ip, negb (To4 env ip)) ips).
Qed.

(** X18: [IPfamilies] sets the flag of family 4 exactly when the host
    resolves and one of its addresses is an IPv4 address, and the flag
    of family 6 exactly when one is not; a host that does not resolve
    has both flags 0, and a flag is never anything but 0 or 1. *)
Theorem IPfamilies_flags env dns host :
  ((IPfamilies env dns host).1 = 1 ↔
   ∃ ip ips a, dns host = Some (ip, ips) ∧ a ∈ ip :: ips ∧ To4 env a = true)
  ∧ ((IPfamilies env dns host).2 = 1 ↔
     ∃ ip ips a, dns host = Some (ip, ips) ∧ a ∈ ip :: ips
                 ∧ To4 env a = false)
  ∧ ((IPfamilies env dns host).1 = 0 ∨ (IPfamilies env dns host).1 = 1)
  ∧ ((IPfamilies env dns host).2 = 0 ∨ (IPfamilies env dns host).2 = 1)
  ∧ (dns host = None → IPfamilies env dns host = (0, 0)).
Proof.
  unfold IPfamilies. destruct (dns host) as [[ip ips]|].
  - rewrite IPfamilies_fold. cbn [fst snd].
    split; [|split; [|split; [|split]]].
    + destruct (existsb (To4 env) (ip :: ips)) eqn:Hex.
      * apply existsb_exists in Hex as (a & Ha & Hv).
        apply list_elem_of_In in Ha. split; [eauto 10|done].
      * split; [done|]. intros (? & ? & a & [= <- <-] & Ha & Hv).
        assert (existsb (To4 env) (ip :: ips) = true) as Htrue.
        { apply existsb_exists. exists a. by rewrite <- list_elem_of_In. }
        congruence.
    + destruct (existsb (λ ip, negb (To4 env ip)) (ip :: ips)) eqn:Hex.
      * apply existsb_exists in Hex as (a & Ha & Hv).
        apply list_elem_of_In in Ha. apply negb_true_iff in Hv.
        split; [eauto 10|done].
      * split; [done|]. intros (? & ? & a & [= <- <-] & Ha & Hv).
        assert (existsb (λ ip, negb (To4 env ip)) (ip :: ips) = true) as Htrue.
        { apply existsb_exists. exists a. rewrite <- list_elem_of_In.
          by rewrite Hv. }
        congruence.
    + destruct (existsb _ _); auto.
    + destruct (existsb _ _); auto.
    + done.
  - simpl. split; [|split; [|split; [|split]]]; auto.
    + split; [done|]. by intros (? & ? & ? & ? & _).
    + split; [done|]. by intros (? & ? & ? & ? & _).
Qed.

Lemma IPfamilies_flags_witness :
  (IPfamilies Sample.env (λ _, Some ("192.0.2.1", ["192.0.2.2"]))
     "a.example").1 = 1.
Proof.
  apply (proj1 (IPfamilies_flags Sample.env
                  (λ _, Some ("192.0.2.1", ["192.0.2.2"])) "a.example")).
  exists "192.0.2.1", ["192.0.2.2"], "192.0.2.1".
  split; [reflexivity|]. split; [by left|reflexivity].
Defined.

(** *** Status rows of a new mirror or repository *)

Lemma insert_status_prefix mid rid (table : list Status) :
  ∃ added, insert_status mid rid table = table ++ added
           ∧ (added = []
              ∨ added = [ {| st_mirror_id := mid; st_repo_id := rid;
                             timestamp := None; checked := 0;
                             result := None |} ]).
Proof.
  unfold insert_status. case_decide.
  - exists []. by rewrite app_nil_r; auto.
  - eexists. split; [done|]. by right.
Qed.

Lemma insert_status_present mid rid (table : list Status) :
  ∃ s, s ∈ insert_status mid rid table
       ∧ st_mirror_id s = mid ∧ st_repo_id s = rid.
Proof.
  unfold insert_status. case_decide as Hex.
  - apply Exists_exists in Hex as (s & Hs & Hm & Hr). eauto.
  - eexists. split; [apply elem_of_app; right; by left|done].
Qed.

(** The rows a loop of inserts adds: the table is kept, every added row
    is a fresh row of a selected item, every selected item has a row. *)
Lemma insert_loop {A} (P : A → Prop) `{!∀ x, Decision (P x)}
    (key : A → Z * Z) (items : list A) : ∀ table : list Status,
  ∃ added,
    foldl (λ table x, if decide (P x)
                      then insert_status (key x).1 (key x).2 table
                      else table) table items
    = table ++ added
    ∧ (∀ s, s ∈ added →
         ∃ x, x ∈ items ∧ P x
              ∧ s = {| st_mirror_id := (key x).1; st_repo_id := (key x).2;
                       timestamp := None; checked := 0; result := None |})
    ∧ (∀ x, x ∈ items → P x →
         ∃ s, s ∈ table ++ added
              ∧ st_mirror_id s = (key x).1 ∧ st_repo_id s = (key x).2).
Proof.
  induction items as [|x items IH]; intros table.
  - exists []. rewrite app_nil_r. split; [done|].
    split; [by intros s ?%elem_of_nil|by intros x ?%elem_of_nil].
  - cbn [foldl]. destruct (decide (P x)) as [HP|HP].
    + destruct (insert_status_prefix (key x).1 (key x).2 table)
        as (add1 & Heq1 & Hadd1).
      destruct (IH (insert_status (key x).1 (key x).2 table))
        as (add2 & Heq2 & Hnew & Hall).
      exists (add1 ++ add2). rewrite Heq2, Heq1, <- (assoc_L (++)).
      split; [done|]. split.
      * intros s [Hs|Hs]%elem_of_app.
        -- destruct Hadd1 as [->| ->]; [by apply elem_of_nil in Hs|].
           apply list_elem_of_singleton in Hs as ->.
           exists x. split; [by left|done].
        -- destruct (Hnew s Hs) as (y & Hy & HPy & ->).
           exists y. split; [by right|done].
      * intros y [->|Hy]%elem_of_cons HPy.
        -- destruct (insert_status_present (key x).1 (key x).2 table)
             as (s & Hs & Hk).
           exists s. split; [|done].
           rewrite (assoc_L (++)), <- Heq1. apply elem_of_app. by left.
        -- destruct (Hall y Hy HPy) as (s & Hs & Hk).
           exists s. split; [|done].
           by rewrite (assoc_L (++)), <- Heq1.
    + destruct (IH table) as (add & Heq & Hnew & Hall).
      exists add. split; [done|]. split.
      * intros s Hs. destruct (Hnew s Hs) as (y & Hy & HPy & ->).
        exists y. split; [by right|done].
      * intros y [->|Hy]%elem_of_cons HPy; [done|]. by apply Hall.
Qed.

Lemma mirror_name_to_id_spec db name_ :
  ((mirror_name_to_id db name_).2 = true ↔ name_ ∈ name <$> mirrors db)
  ∧ ((mirror_name_to_id db name_).2 = true →
     ∃ m, m ∈ mirrors db ∧ name m = name_
          ∧ (mirror_name_to_id db name_).1 = mirror_id m).
Proof.
  unfold mirror_name_to_id.
  destruct (filter (λ m, name m = name_) (mirrors db)) as [|m l] eqn:Hf.
  - split; [|done]. split; [done|]. intros Hin. exfalso.
    apply list_elem_of_fmap in Hin as (m & -> & Hm).
    assert (m ∈ filter (λ m', name m' = name m) (mirrors db)) as Hin
      by (by apply list_elem_of_filter).
    rewrite Hf in Hin. by apply elem_of_nil in Hin.
  - assert (m ∈ filter (λ m, name m = name_) (mirrors db)) as Hin
      by (rewrite Hf; by left).
    apply list_elem_of_filter in Hin as [Hname Hm].
    split; [|eauto]. split; [|done]. intros _.
    apply list_elem_of_fmap. eauto.
Qed.

Lemma mirror_name_to_id_new db (m : Mirror) :
  (mirror_name_to_id db (name m)).2 = false →
  mirror_name_to_id
    {| mirrors := mirrors db ++ [m]; repos := repos db; status := status db |}
    (name m) = (mirror_id m, true).
Proof.
  intros Hnew. unfold mirror_name_to_id in *. simpl.
  rewrite filter_app.
  destruct (filter (λ m', name m' = name m) (mirrors db)); [|done].
  rewrite filter_cons_True by done. done.
Qed.

(** *** Creating a mirror *)

(** The handler on a body that decodes, names the mirror and a base
    directory, and whose name is new. *)
Lemma mirror_post_created env dns newid (nm : Mirror) db :
  name nm ≠ "" →
  basedir nm +:+ basedir_altarch nm ≠ "" →
  name nm ∉ name <$> mirrors db →
  ∃ added,
    http_handler_mirror_post env dns newid (inr nm) db
    = (201, "",
       {| mirrors :=
            mirrors db ++
            [ {| mirror_id := Z.pos newid; name := name nm;
                 basedir := basedir nm;
                 basedir_altarch := basedir_altarch nm;
                 ipv4 := (IPfamilies env dns (name nm)).1;
                 ipv6 := (IPfamilies env dns (name nm)).2;
                 continent :=
                   Continent (get_ip_location env (Name_to_ip dns (name nm)));
                 country :=
                   Country (get_ip_location env (Name_to_ip dns (name nm)));
                 region :=
                   Region (get_ip_location env (Name_to_ip dns (name nm)));
                 enabled := enabled nm |} ];
          repos := repos db;
          status := status db ++ added |})
    ∧ (∀ s, s ∈ added →
         ∃ r, r ∈ repos db ∧ mirror_serves nm r
              ∧ s = {| st_mirror_id := Z.pos newid; st_repo_id := repo_id r;
                       timestamp := None; checked := 0; result := None |})
    ∧ (∀ r, r ∈ repos db → mirror_serves nm r →
         ∃ s, s ∈ status db ++ added
              ∧ st_mirror_id s = Z.pos newid ∧ st_repo_id s = repo_id r).
Proof.
  intros Hname Hdir Hnew.
  assert ((mirror_name_to_id db (name nm)).2 = false) as Hfree.
  { destruct (mirror_name_to_id db (name nm)).2 eqn:Hex; [|done].
    by apply (proj1 (mirror_name_to_id_spec db (name nm))) in Hex. }
  unfold http_handler_mirror_post.
  rewrite decide_False by tauto. rewrite Hfree. cbv zeta.
  match goal with
  | |- context [mirror_name_to_id {| mirrors := mirrors db ++ [?row] |} _] =>
      pose proof (mirror_name_to_id_new db row Hfree) as Hid
  end.
  cbn [name mirror_id] in Hid. rewrite Hid. cbn [fst].
  destruct (Z.leb_spec (Z.pos newid) 0) as [?|_]; [lia|].
  cbn [mirrors repos status].
  destruct (insert_loop (mirror_serves nm)
              (λ r : Repo, (Z.pos newid, repo_id r)) (repos db) (status db))
    as (added & Heq & Hnew' & Hall).
  exists added. cbn [fst snd] in *. rewrite Heq. done.
Qed.

(** X19: creating a mirror answers 400, 409 or 201.  It is 409 exactly
    when the body decodes, names the mirror and a base directory, and a
    mirror of that name exists; any answer but 201 leaves the store as
    it was; and if no two mirrors share a name before, none do
    afterwards. *)
Theorem mirror_post_outcomes env dns newid post db :
  let out := http_handler_mirror_post env dns newid post db in
  (out.1.1 = 400 ∨ out.1.1 = 409 ∨ out.1.1 = 201)
  ∧ (out.1.1 ≠ 201 → out.2 = db)
  ∧ (out.1.1 = 409 ↔
     ∃ nm, post = inr nm ∧ name nm ≠ ""
           ∧ basedir nm +:+ basedir_altarch nm ≠ ""
           ∧ name nm ∈ name <$> mirrors db)
  ∧ (NoDup (name <$> mirrors db) → NoDup (name <$> mirrors out.2)).
Proof.
  cbv zeta. destruct post as [err|nm].
  { simpl. split; [auto|]. split; [done|]. split; [|done].
    split; [done|]. by intros (? & ? & _). }
  destruct (decide (name nm = ""
                    ∨ basedir nm +:+ basedir_altarch nm = "")) as [Hbad|Hok].
  { unfold http_handler_mirror_post. rewrite decide_True by done. simpl.
    split; [auto|]. split; [done|]. split; [|done].
    split; [done|]. intros (? & [= <-] & ? & ? & _). tauto. }
  destruct (mirror_name_to_id db (name nm)).2 eqn:Hex.
  { unfold http_handler_mirror_post. rewrite decide_False by done.
    rewrite Hex. simpl. split; [auto|]. split; [done|]. split; [|done].
    split; [|done]. intros _. exists nm.
    apply (proj1 (mirror_name_to_id_spec db (name nm))) in Hex. tauto. }
  assert (name nm ∉ name <$> mirrors db) as Hnew.
  { intros Hin. apply (proj1 (mirror_name_to_id_spec db (name nm))) in Hin.
    congruence. }
  destruct (mirror_post_created env dns newid nm db) as (added & -> & _);
    [tauto|tauto|done|].
  simpl. split; [auto|]. split; [done|]. split.
  - split; [done|]. intros (? & [= <-] & _ & _ & ?). done.
  - intros Hnodup. rewrite fmap_app. simpl.
    apply NoDup_app. split; [done|]. split; [|apply NoDup_singleton].
    intros x Hx ->%list_elem_of_singleton. done.
Qed.

Lemma mirror_post_outcomes_witness :
  let out := http_handler_mirror_post Sample.env (λ _, None) 5
               (inr Sample.mA) Sample.db in
  out.1.1 = 409 ∧ out.2 = Sample.db.
Proof.
  destruct (mirror_post_outcomes Sample.env (λ _, None) 5 (inr Sample.mA)
              Sample.db) as (_ & Hkeep & Hconflict & _).
  assert ((http_handler_mirror_post Sample.env (λ _, None) 5 (inr Sample.mA)
             Sample.db).1.1 = 409) as H409.
  { apply Hconflict. exists Sample.mA. split; [reflexivity|].
    split; [discriminate|]. split; [discriminate|]. by left. }
  split; [exact H409|]. apply Hkeep. rewrite H409. discriminate.
Defined.

(** X20: a mirror that is created is appended to the mirrors table
    with the identifier the store assigns, the name and base
    directories and the enabled flag of the body, its IPv4 and IPv6
    flags from the DNS answer for its name, and the continent, country
    and region of the name's first address; the repositories are
    untouched; the status table keeps its rows and gains, for the new
    mirror, only never-checked rows (checked 0, no timestamp, no result)
    of enabled repositories whose altarch flag has a base directory on
    the mirror, and every such repository has a row for the mirror. *)
Theorem mirror_post_rows env dns newid (nm : Mirror) db :
  name nm ≠ "" →
  basedir nm +:+ basedir_altarch nm ≠ "" →
  name nm ∉ name <$> mirrors db →
  let out := http_handler_mirror_post env dns newid (inr nm) db in
  let loc := get_ip_location env (Name_to_ip dns (name nm)) in
  out.1.1 = 201
  ∧ repos out.2 = repos db
  ∧ mirrors out.2
    = mirrors db ++
      [ {| mirror_id := Z.pos newid; name := name nm;
           basedir := basedir nm; basedir_altarch := basedir_altarch nm;
           ipv4 := (IPfamilies env dns (name nm)).1;
           ipv6 := (IPfamilies env dns (name nm)).2;
           continent := Continent loc; country := Country loc;
           region := Region loc; enabled := enabled nm |} ]
  ∧ ∃ added,
      status out.2 = status db ++ added
      ∧ (∀ s, s ∈ added →
           st_mirror_id s = Z.pos newid ∧ checked s = 0
           ∧ timestamp s = None ∧ result s = None
           ∧ ∃ r, r ∈ repos db ∧ st_repo_id s = repo_id r
                  ∧ repo_enabled r = true
                  ∧ (if is_altarch r then basedir_altarch nm ≠ ""
                     else basedir nm ≠ ""))
      ∧ (∀ r, r ∈ repos db → repo_enabled r = true →
           (if is_altarch r then basedir_altarch nm ≠ ""
            else basedir nm ≠ "") →
           ∃ s, s ∈ status out.2
                ∧ st_mirror_id s = Z.pos newid ∧ st_repo_id s = repo_id r).
Proof.
  intros Hname Hdir Hnew. cbv zeta.
  destruct (mirror_post_created env dns newid nm db Hname Hdir Hnew)
    as (added & -> & Hadded & Hall).
  cbn [fst snd mirrors repos status].
  split; [done|]. split; [done|]. split; [done|].
  exists added. split; [done|]. split.
  - intros s Hs. destruct (Hadded s Hs) as (r & Hr & Hserves & ->). cbn.
    repeat split; try done. exists r. split; [done|]. split; [done|].
    destruct Hserves as [(? & -> & ?)|(? & -> & ?)]; done.
  - intros r Hr Hen Hbase. apply Hall; [done|].
    unfold mirror_serves. destruct (is_altarch r); auto.
Qed.

Lemma mirror_post_rows_witness :
  let nm := Sample.mirror 0 "e.example" "/centos" "EU" "DE" "BY" in
  let out := http_handler_mirror_post Sample.env (λ _, None) 5 (inr nm)
               Sample.db in
  out.1.1 = 201 ∧ repos out.2 = repos Sample.db.
Proof.
  destruct (mirror_post_rows Sample.env (λ _, None) 5
              (Sample.mirror 0 "e.example" "/centos" "EU" "DE" "BY") Sample.db)
    as (Hcode & Hrepos & _).
  - discriminate.
  - discriminate.
  - intros Hin. simpl in Hin.
    repeat (apply elem_of_cons in Hin as [Hin|Hin]; [discriminate Hin|]).
    by apply elem_of_nil in Hin.
  - split; [exact Hcode|exact Hrepos].
Defined.

Lemma IPfamilies_v4_only env dns host :
  (∀ ip ips a, dns host = Some (ip, ips) → a ∈ ip :: ips →
               To4 env a = true) →
  (IPfamilies env dns host).2 = 0.
Proof.
  intros Hall. unfold IPfamilies.
  destruct (dns host) as [[ip ips]|]; [|done].
  rewrite IPfamilies_fold. cbn [snd].
  destruct (existsb (λ ip, negb (To4 env ip)) (ip :: ips)) eqn:Hex; [|done].
  apply existsb_exists in Hex as (a & Ha & Hv).
  apply list_elem_of_In in Ha.
  rewrite (Hall ip ips a eq_refl Ha) in Hv. done.
Qed.

(** X21: a mirror whose name resolves to IPv4 addresses only (or does
    not resolve) is created with IPv6 flag 0, and narrowing for an IPv6
    client never lists it. *)
Theorem v4_only_mirror_not_for_v6 env dns newid (nm : Mirror) db :
  name nm ≠ "" →
  basedir nm +:+ basedir_altarch nm ≠ "" →
  name nm ∉ name <$> mirrors db →
  Z.pos newid ∉ mirror_id <$> mirrors db →
  (∀ ip ips a, dns (name nm) = Some (ip, ips) → a ∈ ip :: ips →
               To4 env a = true) →
  let out := http_handler_mirror_post env dns newid (inr nm) db in
  (∃ row, row ∈ mirrors out.2 ∧ mirror_id row = Z.pos newid ∧ ipv6 row = 0)
  ∧ ∀ rnd loc ms limit,
      Z.pos newid ∉ nearby_mirrors out.2 rnd loc "6" ms limit.
Proof.
  intros Hname Hdir Hnew Hfresh Hv4. cbv zeta.
  destruct (mirror_post_created env dns newid nm db Hname Hdir Hnew)
    as (added & -> & _).
  cbn [snd mirrors].
  split.
  - eexists. split; [apply elem_of_app; right; by left|].
    split; [done|]. cbn. by apply IPfamilies_v4_only.
  - intros rnd loc ms limit Hin.
    apply RootFacts.nearby_mirrors_inv in Hin as (_ & m & ipv & Hm & Hid & Hcol & Ht).
    injection Hcol as <-. destruct Ht as (_ & Hv6 & _).
    cbn [mirrors] in Hm. apply elem_of_app in Hm as [Hm|Hm].
    + apply Hfresh. apply list_elem_of_fmap. eauto.
    + apply list_elem_of_singleton in Hm as ->. cbn in Hv6.
      rewrite (IPfamilies_v4_only env dns (name nm) Hv4) in Hv6. lia.
Qed.

Lemma v4_only_mirror_not_for_v6_witness :
  let nm := Sample.mirror 0 "e.example" "/centos" "EU" "DE" "BY" in
  let out := http_handler_mirror_post Sample.env
               (λ _, Some ("192.0.2.1", [])) 5 (inr nm) Sample.db in
  (∃ row, row ∈ mirrors out.2 ∧ mirror_id row = 5 ∧ ipv6 row = 0)
  ∧ ∀ rnd loc ms limit, 5 ∉ nearby_mirrors out.2 rnd loc "6" ms limit.
Proof.
  refine (v4_only_mirror_not_for_v6 Sample.env
            (λ _, Some ("192.0.2.1", [])) 5
            (Sample.mirror 0 "e.example" "/centos" "EU" "DE" "BY") Sample.db
            _ _ _ _ _).
  - discriminate.
  - discriminate.
  - intros Hin. simpl in Hin.
    repeat (apply elem_of_cons in Hin as [Hin|Hin]; [discriminate Hin|]).
    by apply elem_of_nil in Hin.
  - intros Hin. simpl in Hin.
    repeat (apply elem_of_cons in Hin as [Hin|Hin]; [discriminate Hin|]).
    by apply elem_of_nil in Hin.
  - intros ip ips a [= <- <-] ->%list_elem_of_singleton. reflexivity.
Defined.

(** *** Creating a repository *)

Lemma repo_post_ID (nr : Repo) (rs : list Repo) (row : Repo) :
  same_repo row nr →
  foldl (λ id repo, if decide (same_repo repo nr) then repo_id repo else id)
        (repo_id nr) (rs ++ [row]) = repo_id row.
Proof. intros Hsame. rewrite foldl_app. simpl. by rewrite decide_True. Qed.

Lemma repo_post_created newid (nr : Repo) db :
  major_release nr ≠ 0 → path nr ≠ "" → repo_name nr ≠ "" → arch nr ≠ "" →
  ∃ added,
    http_handler_repo_post newid (inr nr) db
    = (201, "",
       {| mirrors := mirrors db;
          repos :=
            repos db ++
            [ {| repo_id := Z.pos newid;
                 major_release := major_release nr; path := path nr;
                 repo_name := repo_name nr; arch := arch nr;
                 is_altarch := is_altarch nr;
                 repo_enabled := repo_enabled nr |} ];
          status := status db ++ added |})
    ∧ (∀ s, s ∈ added →
         ∃ m, m ∈ mirrors db ∧ repo_served_by nr m
              ∧ s = {| st_mirror_id := mirror_id m; st_repo_id := Z.pos newid;
                       timestamp := None; checked := 0; result := None |})
    ∧ (∀ m, m ∈ mirrors db → repo_served_by nr m →
         ∃ s, s ∈ status db ++ added
              ∧ st_mirror_id s = mirror_id m ∧ st_repo_id s = Z.pos newid).
Proof.
  intros Hrel Hpath Hname Harch.
  unfold http_handler_repo_post.
  rewrite decide_False by tauto. cbv zeta. cbn [mirrors repos status].
  rewrite repo_post_ID by (by repeat split). cbn [repo_id].
  destruct (insert_loop (repo_served_by nr)
              (λ m : Mirror, (mirror_id m, Z.pos newid))
              (mirrors db) (status db))
    as (added & Heq & Hnew & Hall).
  exists added. cbn [fst snd] in *. rewrite Heq. done.
Qed.

(** X22: creating a repository answers 400 or 201; it is 400 exactly
    when the body does not decode or lacks a release, a path, a name or
    an architecture, and then the store is as it was. *)
Theorem repo_post_outcomes newid post db :
  let out := http_handler_repo_post newid post db in
  (out.1.1 = 400 ∨ out.1.1 = 201)
  ∧ (out.1.1 = 400 ↔
     (∃ err, post = inl err)
     ∨ ∃ nr, post = inr nr
             ∧ (major_release nr = 0 ∨ path nr = ""
                ∨ repo_name nr = "" ∨ arch nr = ""))
  ∧ (out.1.1 = 400 → out.2 = db).
Proof.
  cbv zeta. destruct post as [err|nr].
  { simpl. split; [auto|]. split; [|done]. split; [eauto|done]. }
  destruct (decide (major_release nr = 0 ∨ path nr = ""
                    ∨ repo_name nr = "" ∨ arch nr = "")) as [Hbad|Hok].
  { unfold http_handler_repo_post. rewrite decide_True by done. simpl.
    split; [auto|]. split; [|done]. split; [eauto|done]. }
  destruct (repo_post_created newid nr db) as (added & -> & _);
    [tauto..|].
  simpl. split; [auto|]. split; [|done]. split; [done|].
  intros [[? [=]]|(? & [= <-] & ?)]. done.
Qed.

Lemma repo_post_outcomes_witness :
  let out := http_handler_repo_post 5
               (inr (Sample.repo 0 0 "x")) Sample.db in
  out.1.1 = 400 ∧ out.2 = Sample.db.
Proof.
  destruct (repo_post_outcomes 5 (inr (Sample.repo 0 0 "x"))
              Sample.db) as (_ & H400 & Hkeep).
  assert ((http_handler_repo_post 5
             (inr (Sample.repo 0 0 "x")) Sample.db).1.1 = 400)
    as Hcode.
  { apply H400. right. eexists. split; [reflexivity|]. by left. }
  split; [exact Hcode|]. apply Hkeep, Hcode.
Defined.

(** X23: a repository that is created gets the identifier the store
    assigns, whatever identifier the body carried; the mirrors are
    untouched; the status table keeps its rows and gains, for the new
    repository, only never-checked rows of mirrors that have the base
    directory its altarch flag asks for, and every such mirror has a
    row, whether the mirror or the repository is enabled or not. *)
Theorem repo_post_rows newid (nr : Repo) db :
  major_release nr ≠ 0 → path nr ≠ "" → repo_name nr ≠ "" → arch nr ≠ "" →
  let out := http_handler_repo_post newid (inr nr) db in
  out.1.1 = 201
  ∧ mirrors out.2 = mirrors db
  ∧ (∃ row, repos out.2 = repos db ++ [row]
            ∧ repo_id row = Z.pos newid ∧ same_repo row nr)
  ∧ ∃ added,
      status out.2 = status db ++ added
      ∧ (∀ s, s ∈ added →
           st_repo_id s = Z.pos newid ∧ checked s = 0
           ∧ timestamp s = None ∧ result s = None
           ∧ ∃ m, m ∈ mirrors db ∧ st_mirror_id s = mirror_id m
                  ∧ (if is_altarch nr then basedir_altarch m ≠ ""
                     else basedir m ≠ ""))
      ∧ (∀ m, m ∈ mirrors db →
           (if is_altarch nr then basedir_altarch m ≠ ""
            else basedir m ≠ "") →
           ∃ s, s ∈ status out.2
                ∧ st_mirror_id s = mirror_id m ∧ st_repo_id s = Z.pos newid).
Proof.
  intros Hrel Hpath Hname Harch. cbv zeta.
  destruct (repo_post_created newid nr db Hrel Hpath Hname Harch)
    as (added & -> & Hadded & Hall).
  cbn [fst snd mirrors repos status].
  split; [done|]. split; [done|]. split.
  { eexists. split; [done|]. by repeat split. }
  exists added. split; [done|]. split.
  - intros s Hs. destruct (Hadded s Hs) as (m & Hm & Hserved & ->). cbn.
    repeat split; try done. exists m. split; [done|]. split; [done|].
    destruct Hserved as [(? & ->)|(? & ->)]; done.
  - intros m Hm Hbase. apply Hall; [done|].
    unfold repo_served_by. destruct (is_altarch nr); auto.
Qed.

Lemma repo_post_rows_witness :
  let out := http_handler_repo_post 5
               (inr (Sample.repo 0 9 "9-stream"))
               Sample.db in
  out.1.1 = 201 ∧ mirrors out.2 = mirrors Sample.db.
Proof.
  destruct (repo_post_rows 5
              (Sample.repo 0 9 "9-stream")
              Sample.db) as (Hcode & Hmirrors & _);
    [discriminate..|].
  split; [exact Hcode|exact Hmirrors].
Defined.

(** *** Deleting a mirror or a repository *)

Lemma mirror_name_to_id_mirrors db db' name_ :
  mirrors db = mirrors db' →
  mirror_name_to_id db name_ = mirror_name_to_id db' name_.
Proof. intros Heq. unfold mirror_name_to_id. by rewrite Heq. Qed.

Lemma filter_all {A} (P : A → Prop) `{!∀ x, Decision (P x)} (l : list A) :
  (∀ x, x ∈ l → P x) → filter P l = l.
Proof.
  induction l as [|x l IH]; intros Hall; [done|].
  rewrite filter_cons_True by (apply Hall; by left).
  f_equal. apply IH. intros y Hy. apply Hall. by right.
Qed.

Lemma filter_none {A} (P : A → Prop) `{!∀ x, Decision (P x)} (l : list A) :
  (∀ x, x ∈ l → ¬ P x) → filter P l = [].
Proof.
  induction l as [|x l IH]; intros Hall; [done|].
  rewrite filter_cons_False by (apply Hall; by left).
  apply IH. intros y Hy. apply Hall. by right.
Qed.

(** X24: deleting a mirror answers 204 exactly when a mirror of that
    name exists, and 404 otherwise with the store as it was.  On 204
    the mirror rows and the status rows carrying the identifier of the
    first mirror of that name are gone, every other row and every
    repository is kept in place, and no later list of mirrors for a
    repository contains the identifier. *)
Theorem mirror_delete_cascade name_ db :
  let out := http_handler_mirror_delete name_ db in
  (out.1 = 404 ∨ out.1 = 204)
  ∧ (out.1 = 204 ↔ name_ ∈ name <$> mirrors db)
  ∧ (out.1 = 404 → out.2 = db)
  ∧ (out.1 = 204 →
     ∃ m, m ∈ mirrors db ∧ name m = name_
          ∧ mirrors out.2
            = filter (λ m', mirror_id m' ≠ mirror_id m) (mirrors db)
          ∧ status out.2
            = filter (λ s, st_mirror_id s ≠ mirror_id m) (status db)
          ∧ repos out.2 = repos db
          ∧ ∀ rnd repoid, mirror_id m ∉ mirrors_with_repo out.2 rnd repoid).
Proof.
  cbv zeta.
  destruct (mirror_name_to_id_spec db name_) as [Hiff Hfound].
  unfold http_handler_mirror_delete.
  destruct (mirror_name_to_id db name_) as [id [|]] eqn:Hid;
    cbn [fst snd negb] in *.
  - split; [auto|]. split; [split; [intros _; by apply Hiff|done]|].
    split; [done|]. intros _.
    destruct (Hfound eq_refl) as (m & Hm & Hname & ->).
    exists m. repeat split; try done.
    intros rnd repoid Hin.
    apply RootFacts.elem_of_mirrors_with_repo in Hin
      as (s & m' & _ & _ & _ & Hm' & Hjoin & _).
    cbn [mirrors] in Hm'. apply list_elem_of_filter in Hm' as [Hne _].
    congruence.
  - split; [auto|]. split; [|done]. split; [done|].
    intros Hin%Hiff. done.
Qed.

Lemma mirror_delete_cascade_witness :
  let out := http_handler_mirror_delete "a.example" Sample.db in
  out.1 = 204 ∧ ∀ rnd repoid, 1 ∉ mirrors_with_repo out.2 rnd repoid.
Proof.
  destruct (mirror_delete_cascade "a.example" Sample.db)
    as (_ & _ & _ & Hgone).
  split; [reflexivity|].
  destruct (Hgone eq_refl) as (m & Hm & Hname & _ & _ & _ & Hnever).
  assert (mirror_id m = 1) as <-; [|exact Hnever].
  simpl in Hm.
  repeat (apply elem_of_cons in Hm as [->|Hm]; [done || discriminate Hname|]).
  by apply elem_of_nil in Hm.
Defined.

(** X25: creating a mirror and then deleting it by name gives back the
    store as it was before, provided the identifier the store assigned
    was unused in the mirror and status tables. *)
Theorem mirror_post_then_delete env dns newid (nm : Mirror) db :
  name nm ≠ "" →
  basedir nm +:+ basedir_altarch nm ≠ "" →
  name nm ∉ name <$> mirrors db →
  Z.pos newid ∉ mirror_id <$> mirrors db →
  Z.pos newid ∉ st_mirror_id <$> status db →
  http_handler_mirror_delete (name nm)
    (http_handler_mirror_post env dns newid (inr nm) db).2 = (204, db).
Proof.
  intros Hname Hdir Hnew Hfresh Hfresh'.
  destruct (mirror_post_created env dns newid nm db Hname Hdir Hnew)
    as (added & -> & Hadded & _).
  cbn [snd]. unfold http_handler_mirror_delete.
  match goal with
  | |- context [mirror_name_to_id
                  {| mirrors := mirrors db ++ [?row]; repos := _;
                     status := ?st |} _] =>
      rewrite (mirror_name_to_id_mirrors
                 {| mirrors := mirrors db ++ [row]; repos := repos db;
                    status := st |}
                 {| mirrors := mirrors db ++ [row]; repos := repos db;
                    status := status db |} (name nm) eq_refl);
      pose proof (mirror_name_to_id_new db row) as Hid
  end.
  cbn [name mirror_id] in Hid. rewrite Hid; last first.
  { destruct (mirror_name_to_id db (name nm)).2 eqn:Hex; [|done].
    by apply (proj1 (mirror_name_to_id_spec db (name nm))) in Hex. }
  cbn [negb mirrors repos status].
  rewrite !filter_app.
  rewrite (filter_all (λ m, mirror_id m ≠ Z.pos newid) (mirrors db)).
  2:{ intros m Hm Heq. apply Hfresh, list_elem_of_fmap. eauto. }
  rewrite (filter_all (λ s, st_mirror_id s ≠ Z.pos newid) (status db)).
  2:{ intros s Hs Heq. apply Hfresh', list_elem_of_fmap. eauto. }
  rewrite (filter_none (λ s, st_mirror_id s ≠ Z.pos newid) added).
  2:{ intros s Hs. destruct (Hadded s Hs) as (r & _ & _ & ->). cbn. tauto. }
  rewrite filter_cons_False by (cbn; tauto).
  rewrite filter_nil, !app_nil_r. by destruct db.
Qed.

Lemma mirror_post_then_delete_witness :
  http_handler_mirror_delete "e.example"
    (http_handler_mirror_post Sample.env (λ _, None) 5
       (inr (Sample.mirror 0 "e.example" "/centos" "EU" "DE" "BY"))
       Sample.db).2 = (204, Sample.db).
Proof.
  apply (mirror_post_then_delete Sample.env (λ _, None) 5
           (Sample.mirror 0 "e.example" "/centos" "EU" "DE" "BY") Sample.db).
  - discriminate.
  - discriminate.
  - intros Hin. simpl in Hin.
    repeat (apply elem_of_cons in Hin as [Hin|Hin]; [discriminate Hin|]).
    by apply elem_of_nil in Hin.
  - intros Hin. simpl in Hin.
    repeat (apply elem_of_cons in Hin as [Hin|Hin]; [discriminate Hin|]).
    by apply elem_of_nil in Hin.
  - intros Hin. simpl in Hin.
    repeat (apply elem_of_cons in Hin as [Hin|Hin]; [discriminate Hin|]).
    by apply elem_of_nil in Hin.
Defined.

Lemma repo_delete_exists repo_id_ (rs : list Repo) : ∀ b,
  foldl (λ exists_ repo,
           if decide (pretty (repo_id repo) = repo_id_) then true
           else exists_) b rs
  = b || bool_decide (Exists (λ r, pretty (repo_id r) = repo_id_) rs).
Proof.
  induction rs as [|r rs IH]; intros b; cbn [foldl].
  - rewrite bool_decide_eq_false_2 by (by intros ?%Exists_nil).
    by rewrite orb_false_r.
  - rewrite IH. case_decide as Hr.
    + rewrite (bool_decide_eq_true_2 (Exists _ (r :: rs)))
        by (by apply Exists_cons_hd).
      by rewrite orb_true_r.
    + f_equal. apply bool_decide_ext. rewrite Exists_cons. tauto.
Qed.

(** X26: deleting a repository answers 204 exactly when the text of the
    route is the decimal writing of the identifier of a repository, and
    404 otherwise with the store as it was.  On 204 the repository and
    the status rows of that identifier are gone, and every other row
    and every mirror is kept in place. *)
Theorem repo_delete_cascade repo_id_ db :
  let out := http_handler_repo_delete repo_id_ db in
  (out.1 = 404 ∨ out.1 = 204)
  ∧ (out.1 = 204 ↔ ∃ r, r ∈ repos db ∧ repo_id_ = pretty (repo_id r))
  ∧ (out.1 = 404 → out.2 = db)
  ∧ (out.1 = 204 →
     ∃ n, repo_id_ = pretty n
          ∧ mirrors out.2 = mirrors db
          ∧ repos out.2 = filter (λ r, repo_id r ≠ n) (repos db)
          ∧ status out.2 = filter (λ s, st_repo_id s ≠ n) (status db)).
Proof.
  cbv zeta. unfold http_handler_repo_delete. cbv zeta.
  rewrite repo_delete_exists. cbn [orb].
  case_bool_decide as Hex; cbn [negb fst snd].
  - apply Exists_exists in Hex as (r & Hr & Htext).
    split; [auto|]. split; [split; [eauto|done]|]. split; [done|].
    intros _. exists (repo_id r). split; [done|]. split; [done|].
    cbn [repos status]. subst repo_id_. split.
    + apply list_filter_iff. intros r'. split.
      * intros Hne Heq. apply Hne. by rewrite Heq.
      * intros Hne Heq. by apply (inj pretty) in Heq.
    + apply list_filter_iff. intros s. split.
      * intros Hne Heq. apply Hne. by rewrite Heq.
      * intros Hne Heq. by apply (inj pretty) in Heq.
  - split; [auto|]. split; [|done]. split; [done|].
    intros (r & Hr & ->). exfalso. apply Hex, Exists_exists. eauto.
Qed.

Lemma repo_delete_cascade_witness :
  (http_handler_repo_delete "01" Sample.db).1 = 404
  ∧ (http_handler_repo_delete "1" Sample.db).1 = 204.
Proof.
  split.
  - destruct (repo_delete_cascade "01" Sample.db) as ([H|H] & Hiff & _);
      [exact H|].
    apply Hiff in H as (r & Hr & Htext). exfalso. simpl in Hr.
    repeat (apply elem_of_cons in Hr as [->|Hr]; [discriminate Htext|]).
    by apply elem_of_nil in Hr.
  - apply (repo_delete_cascade "1" Sample.db).
    exists Sample.r8. split; [by left|reflexivity].
Defined.

(** X27: creating a repository and then deleting it by the decimal
    writing of its identifier gives back the store as it was before,
    provided the identifier the store assigned was unused in the
    repository and status tables. *)
Theorem repo_post_then_delete newid (nr : Repo) db :
  major_release nr ≠ 0 → path nr ≠ "" → repo_name nr ≠ "" → arch nr ≠ "" →
  Z.pos newid ∉ repo_id <$> repos db →
  Z.pos newid ∉ st_repo_id <$> status db →
  http_handler_repo_delete (pretty (Z.pos newid))
    (http_handler_repo_post newid (inr nr) db).2 = (204, db).
Proof.
  intros Hrel Hpath Hname Harch Hfresh Hfresh'.
  destruct (repo_post_created newid nr db Hrel Hpath Hname Harch)
    as (added & -> & Hadded & _).
  cbn [snd]. unfold http_handler_repo_delete. cbv zeta.
  rewrite repo_delete_exists. cbn [orb repos mirrors status].
  rewrite bool_decide_eq_true_2.
  2:{ apply Exists_app. right. by apply Exists_cons_hd. }
  cbn [negb]. rewrite !filter_app.
  rewrite (filter_all (λ r, pretty (repo_id r) ≠ pretty (Z.pos newid))
             (repos db)).
  2:{ intros r Hr Heq%(inj pretty). apply Hfresh, list_elem_of_fmap. eauto. }
  rewrite (filter_all (λ s, pretty (st_repo_id s) ≠ pretty (Z.pos newid))
             (status db)).
  2:{ intros s Hs Heq%(inj pretty). apply Hfresh', list_elem_of_fmap. eauto. }
  rewrite (filter_none (λ s, pretty (st_repo_id s) ≠ pretty (Z.pos newid))
             added).
  2:{ intros s Hs. destruct (Hadded s Hs) as (m & _ & _ & ->). cbn. tauto. }
  rewrite filter_cons_False by (cbn; tauto).
  rewrite filter_nil, !app_nil_r. by destruct db.
Qed.

Lemma repo_post_then_delete_witness :
  http_handler_repo_delete "5"
    (http_handler_repo_post 5 (inr (Sample.repo 0 9 "9-stream")) Sample.db).2
  = (204, Sample.db).
Proof.
  apply (repo_post_then_delete 5 (Sample.repo 0 9 "9-stream") Sample.db);
    try discriminate.
  - intros Hin. simpl in Hin.
    repeat (apply elem_of_cons in Hin as [Hin|Hin]; [discriminate Hin|]).
    by apply elem_of_nil in Hin.
  - intros Hin. simpl in Hin.
    repeat (apply elem_of_cons in Hin as [Hin|Hin]; [discriminate Hin|]).
    by apply elem_of_nil in Hin.
Defined.

(** *** The list of issues *)

Lemma elem_of_mirrors_with_issues db mid nm :
  (mid, nm) ∈ mirrors_with_issues db ↔
  ∃ s m, s ∈ status db ∧ m ∈ mirrors db ∧ mirror_id m = st_mirror_id s
         ∧ st_mirror_id s = mid ∧ name m = nm
         ∧ failed s ∧ 0 < checked s.
Proof.
  unfold mirrors_with_issues.
  rewrite elem_of_remove_dups, list_elem_of_bind. split.
  - intros (s & Hin & Hs).
    apply list_elem_of_bind in Hin as (m & Hin & Hm).
    apply list_elem_of_filter in Hm as [Hid Hm].
    case_decide as Hc; [|by apply elem_of_nil in Hin].
    apply list_elem_of_singleton in Hin as [= -> ->].
    exists s, m. tauto.
  - intros (s & m & Hs & Hm & Hid & Hmid & Hnm & Hf & Hc). subst mid nm.
    exists s. split; [|done].
    apply list_elem_of_bind. exists m.
    split; [|by apply list_elem_of_filter].
    rewrite decide_True by done. by left.
Qed.

(** X28: the issues endpoint answers 204 or 200.  A mirror is listed,
    by its name, exactly when one of its status rows was checked at
    least once and has a result other than 200; a row whose result is
    missing does not count.  The answer is 204 exactly when no mirror
    is listed. *)
Theorem issues_listed StatusMessage Marshal db :
  let out := http_handler_issues StatusMessage Marshal db in
  (out.1 = 204 ∨ out.1 = 200)
  ∧ (∀ nm, nm ∈ issue_Name <$> collect_issues StatusMessage db ↔
       ∃ s m r, s ∈ status db ∧ m ∈ mirrors db
                ∧ mirror_id m = st_mirror_id s ∧ name m = nm
                ∧ result s = Some r ∧ r ≠ 200 ∧ 0 < checked s)
  ∧ (out.1 = 204 ↔ collect_issues StatusMessage db = [])
  ∧ (out.1 = 204 → out.2 = "").
Proof.
  cbv zeta. split; [|split; [|split]].
  - unfold http_handler_issues. cbv zeta. case_decide; auto.
  - intros nm. unfold collect_issues. rewrite <- list_fmap_compose.
    rewrite list_elem_of_fmap. split.
    + intros ([mid nm'] & -> & Hin). cbn.
      apply elem_of_mirrors_with_issues in Hin
        as (s & m & Hs & Hm & Hid & _ & Hname & Hf & Hc).
      unfold failed in Hf. destruct (result s) as [r|] eqn:Hr; [|done].
      exists s, m, r. done.
    + intros (s & m & r & Hs & Hm & Hid & Hname & Hr & Hne & Hc).
      exists (st_mirror_id s, nm). split; [done|].
      apply elem_of_mirrors_with_issues. exists s, m.
      repeat split; try done. unfold failed. by rewrite Hr.
  - unfold http_handler_issues. cbv zeta. case_decide as Hlen; cbn.
    + split; [intros _|done]. by apply nil_length_inv.
    + split; [done|]. intros Hnil. by rewrite Hnil in Hlen.
  - unfold http_handler_issues. cbv zeta. case_decide; cbn; done.
Qed.

Lemma issues_listed_witness :
  (http_handler_issues (λ _, "Not Found") (λ _, "[]") Sample.db).1 = 204.
Proof.
  apply (issues_listed (λ _, "Not Found") (λ _, "[]") Sample.db).
  reflexivity.
Defined.

Lemma errors_lookup (f : Z → string) (l : list (Z * Z)) :
  ∀ (m0 : gmap string Z) k c,
    foldl (λ (errors : gmap string Z) (rc : Z * Z), <[f rc.1 := rc.2]> errors)
          m0 l !! k = Some c →
    m0 !! k = Some c ∨ ∃ r, (r, c) ∈ l ∧ f r = k.
Proof.
  induction l as [|[r c'] l IH]; intros m0 k c; cbn [foldl]; [auto|].
  intros [Hl|(r' & Hin & Hk)]%IH.
  - cbn in Hl. destruct (decide (f r = k)) as [<-|Hne].
    + rewrite lookup_insert_eq in Hl. injection Hl as ->.
      right. exists r. split; [by left|done].
    + rewrite lookup_insert_ne in Hl by done. by left.
  - right. exists r'. split; [by right|done].
Qed.

Lemma errors_present (f : Z → string) (l : list (Z * Z)) :
  ∀ (m0 : gmap string Z) k,
    is_Some (m0 !! k) ∨ (∃ rc, rc ∈ l ∧ f rc.1 = k) →
    is_Some (foldl (λ (errors : gmap string Z) (rc : Z * Z),
                      <[f rc.1 := rc.2]> errors) m0 l !! k).
Proof.
  induction l as [|[r c'] l IH]; intros m0 k; cbn [foldl].
  - intros [?|(? & ?%elem_of_nil & _)]; done.
  - intros [Hm|(rc & [->|Hin]%elem_of_cons & Hk)]; apply IH.
    + left. cbn. destruct (decide (f r = k)) as [<-|Hne].
      * rewrite lookup_insert_eq. eauto.
      * by rewrite lookup_insert_ne.
    + left. cbn in *. subst k. rewrite lookup_insert_eq. eauto.
    + right. eauto.
Qed.

Lemma failures_count db mid r :
  length (filter (λ x, x = r) (failures_of db mid))
  = length (filter (λ s, st_mirror_id s = mid ∧ result s = Some r
                         ∧ r ≠ 200) (status db)).
Proof.
  unfold failures_of. induction (status db) as [|s l IH]; [done|].
  rewrite bind_cons, filter_app, length_app, IH. clear IH.
  destruct (result s) as [x|] eqn:Hx.
  - case_decide as Hc.
    + destruct (decide (x = r)) as [->|Hne].
      * rewrite filter_cons_True by done.
        rewrite (filter_cons_True _ s) by (rewrite Hx; tauto). done.
      * rewrite filter_cons_False by done.
        rewrite (filter_cons_False _ s) by (rewrite Hx; intros (_ & [=] & _);
                                           done).
        done.
    + rewrite (filter_cons_False _ s); [done|].
      rewrite Hx. intros (? & [= ->] & ?). tauto.
  - rewrite (filter_cons_False _ s); [done|].
    rewrite Hx. intros (_ & [=] & _).
Qed.

Lemma elem_of_failures_of db mid r :
  r ∈ failures_of db mid ↔
  r ≠ 200 ∧ ∃ s, s ∈ status db ∧ st_mirror_id s = mid ∧ result s = Some r.
Proof.
  unfold failures_of. rewrite list_elem_of_bind. split.
  - intros (s & Hin & Hs). destruct (result s) as [x|] eqn:Hx;
      [|by apply elem_of_nil in Hin].
    case_decide as Hc; [|by apply elem_of_nil in Hin].
    apply list_elem_of_singleton in Hin as ->. split; [tauto|].
    exists s. tauto.
  - intros (Hne & s & Hs & Hid & Hr). exists s. split; [|done].
    rewrite Hr. rewrite decide_True by done. by left.
Qed.

(** X29: in the entry of a listed mirror every count stands under the
    message of a result other than 200 that rows of the mirror have,
    and is the number of the mirror's rows with that result, rows never
    checked included; and every such result has its message in the
    entry.  Results that share a message share one count. *)
Theorem issue_errors_counts StatusMessage db issue :
  issue ∈ collect_issues StatusMessage db →
  ∃ mid,
    (mid, issue_Name issue) ∈ mirrors_with_issues db
    ∧ (∀ k c, issue_Errors issue !! k = Some c →
         ∃ r, category StatusMessage r = k ∧ r ≠ 200 ∧ 0 < c
              ∧ c = Z.of_nat
                      (length (filter (λ s, st_mirror_id s = mid
                                            ∧ result s = Some r)
                                 (status db))))
    ∧ (∀ s r, s ∈ status db → st_mirror_id s = mid →
              result s = Some r → r ≠ 200 →
              is_Some (issue_Errors issue !! category StatusMessage r)).
Proof.
  unfold collect_issues. intros Hin.
  apply list_elem_of_fmap in Hin as ([mid nm] & -> & Hin). cbn.
  exists mid. split; [done|]. split.
  - intros k c Hl. apply errors_lookup in Hl as [Hl|(r & Hrc & Hk)];
      [by rewrite lookup_empty in Hl|].
    unfold result_counts in Hrc.
    apply list_elem_of_fmap in Hrc as (r' & [= -> ->] & Hr).
    rewrite elem_of_remove_dups in Hr.
    pose proof Hr as (Hne & _)%elem_of_failures_of.
    exists r'. split; [done|]. split; [done|].
    assert (filter (λ s, st_mirror_id s = mid ∧ result s = Some r')
              (status db)
            = filter (λ s, st_mirror_id s = mid ∧ result s = Some r'
                           ∧ r' ≠ 200) (status db)) as ->.
    { apply list_filter_iff. intros s. tauto. }
    rewrite <- failures_count. split; [|done].
    assert (r' ∈ filter (λ x, x = r') (failures_of db mid)) as Hpos
      by (by apply list_elem_of_filter).
    destruct (filter (λ x, x = r') (failures_of db mid));
      [by apply elem_of_nil in Hpos|].
    cbn [length]. lia.
  - intros s r Hs Hid Hr Hne. apply errors_present. right.
    exists (r, Z.of_nat (length (filter (λ x, x = r) (failures_of db mid)))).
    split; [|done]. unfold result_counts.
    apply list_elem_of_fmap. exists r. split; [done|].
    apply elem_of_remove_dups, elem_of_failures_of. eauto.
Qed.

Lemma issue_errors_counts_witness :
  let db := {| mirrors := [Sample.mA]; repos := [Sample.r8];
               status := [ {| st_mirror_id := 1; st_repo_id := 1;
                              timestamp := None; checked := 1;
                              result := Some 404 |} ] |} in
  ∃ issue mid,
    issue ∈ collect_issues (λ _, "Not Found") db
    ∧ (mid, issue_Name issue) ∈ mirrors_with_issues db.
Proof.
  intros db.
  assert (default {| issue_Name := ""; issue_Errors := ∅ |}
            (head (collect_issues (λ _, "Not Found") db))
          ∈ collect_issues (λ _, "Not Found") db) as Hin.
  { vm_compute. left. }
  destruct (issue_errors_counts (λ _, "Not Found") db _ Hin)
    as (mid & Hmid & _).
  eauto.
Defined.

(** *** The data source name *)

Lemma occurrences_app c (s t : string) :
  occurrences c (s +:+ t) = (occurrences c s + occurrences c t)%nat.
Proof.
  induction s as [|x s IH]; [done|].
  change (String x s +:+ t) with (String x (s +:+ t)).
  cbn [occurrences]. rewrite IH. lia.
Qed.

Lemma UString_occurrences c (cfg : gmap string string) path_ def :
  (∀ k v, cfg !! k = Some v → occurrences c v = 0%nat) →
  occurrences c def = 0%nat →
  occurrences c (UString cfg path_ def) = 0%nat.
Proof.
  intros Hcfg Hdef. unfold UString.
  destruct (cfg !! path_) as [v|] eqn:Hv; [by eapply Hcfg|done].
Qed.

(** X30: for the mysql driver, with configuration values free of
    parentheses, the data source name built for a socket holds one
    opening and one closing parenthesis, and the one built for a host
    and port holds one opening parenthesis and no closing one. *)
Theorem Build_DSN_parentheses (cfg : gmap string string) :
  cfg !! "database.driver" = Some "mysql" →
  (∀ k v, cfg !! k = Some v →
          occurrences "(" v = 0%nat ∧ occurrences ")" v = 0%nat) →
  (Build_DSN cfg).1 = "mysql"
  ∧ occurrences "(" (Build_DSN cfg).2 = 1%nat
  ∧ occurrences ")" (Build_DSN cfg).2
    = (if decide (cfg !! "database.socket" = None
                  ∨ cfg !! "database.socket" = Some "")
       then 0%nat else 1%nat).
Proof.
  intros Hdriver Hclean.
  assert (∀ k v, cfg !! k = Some v → occurrences "(" v = 0%nat) as Hopen
    by (intros k v Hk; by destruct (Hclean k v Hk)).
  assert (∀ k v, cfg !! k = Some v → occurrences ")" v = 0%nat) as Hclose
    by (intros k v Hk; by destruct (Hclean k v Hk)).
  unfold Build_DSN. cbv zeta.
  assert (UString cfg "database.driver" "sqlite3" = "mysql") as ->
    by (unfold UString; by rewrite Hdriver).
  rewrite (decide_False (P := "mysql" = "sqlite3")) by done.
  rewrite (decide_True (P := "mysql" = "mysql")) by done.
  cbn [fst snd]. split; [done|].
  destruct (decide (UString cfg "database.socket" "" ≠ "")) as [Hsock|Hsock].
  - rewrite decide_False.
    2:{ unfold UString in Hsock. intros [Hs|Hs]; rewrite Hs in Hsock; done. }
    rewrite !occurrences_app.
    rewrite !(UString_occurrences "(") by done.
    rewrite !(UString_occurrences ")") by done.
    done.
  - rewrite decide_True.
    2:{ unfold UString in Hsock.
        destruct (cfg !! "database.socket") as [v|]; [|by left].
        right. f_equal. simpl in Hsock.
        destruct (decide (v = "")); [done|tauto]. }
    rewrite !occurrences_app.
    rewrite !(UString_occurrences "(") by done.
    rewrite !(UString_occurrences ")") by done.
    done.
Qed.

Lemma Build_DSN_parentheses_witness :
  let cfg : gmap string string :=
    {[ "database.driver" := "mysql"; "database.host" := "db.example" ]} in
  occurrences "(" (Build_DSN cfg).2 = 1%nat
  ∧ occurrences ")" (Build_DSN cfg).2 = 0%nat.
Proof.
  intros cfg.
  destruct (Build_DSN_parentheses cfg) as (_ & Hopen & Hclose).
  - reflexivity.
  - intros k v Hk. unfold cfg in Hk.
    apply lookup_insert_Some in Hk as [[_ <-]|[_ Hk]]; [done|].
    apply lookup_singleton_Some in Hk as [_ <-]. done.
  - split; [exact Hopen|]. rewrite Hclose. reflexivity.
Defined.

End AdminFacts.
